(** * pyclarity-lims: descriptors, live XML projections and entity identity

    A shallow embedding of [genologics/descriptors.py],
    [pyclarity_lims/constants.py] and the [Entity], [Process] and [Sample]
    classes of [pyclarity_lims/entities.py].

    Conventions of the embedding.
    - A Python call that can raise is a computation in the monad [M S]:
      a function from a state [S] to a [result] and the state the call left
      behind.  A raise keeps every mutation made before it, as in Python.
    - An XML document is an [Element] tree.  A reference to an element of a
      document (what Python holds in [node], [_rootnode], [self._elems]) is
      its position [Ref]: the child indices leading to it from the root.
      Documents are trees owned by one entity, so a position identifies one
      element object for as long as no sibling before it is inserted or
      removed; the code rescans its references ([_update_elems]) after such
      edits, and the removal loops track the shift ([current_ref]).
    - [Stuck] is not a Python exception: a computation ends with it where
      the embedding has nothing to say (a reference that designates no
      element, a value of a type that is not modelled).
    - A [float] and a [date] are carried by their texts; [float()] and
      [strptime()] are parameters of the UDF dictionary.  [int()] and [str()]
      of an [int] are defined on decimal strings.
    - Entities are objects in a heap, addressed by [addr]; the identity
      cache [lims.cache] maps a URI to an address.
    - The methods of the [Lims] object (module [lims.py], the transport)
      are the fields of a record [Lims]. *)

From Stdlib Require Import ZArith Ascii String List Decimal DecimalString DecimalZ.
From stdpp Require Import base option list gmap strings fin_maps.

Set Warnings "-register-all".
Local Open Scope string_scope.
Local Open Scope list_scope.

(** ** Python exceptions, results and the state-and-error monad *)

Inductive exn : Type :=
  | KeyError
  | TypeError
  | ValueError
  | AttributeError
  | NotImplementedError
  | AssertionError
  | IndexError
  | TransportError
  | Stuck.   (* model only: a dangling reference or an ill-typed value *)

#[global] Instance exn_eq_dec : EqDecision exn.
Proof. solve_decision. Defined.

Inductive result (A : Type) : Type :=
  | Ok (a : A)
  | Raise (e : exn).
Arguments Ok {A} a.
Arguments Raise {A} e.

Definition M (S A : Type) : Type := S -> result A * S.

Definition ret {S A} (a : A) : M S A := fun s => (Ok a, s).
Definition raise {S A} (e : exn) : M S A := fun s => (Raise e, s).
Definition bind {S A B} (m : M S A) (k : A -> M S B) : M S B :=
  fun s => match m s with
           | (Ok a, s') => k a s'
           | (Raise e, s') => (Raise e, s')
           end.
Definition get_state {S} : M S S := fun s => (Ok s, s).
Definition put_state {S} (s : S) : M S unit := fun _ => (Ok tt, s).
Definition modify {S} (f : S -> S) : M S unit := fun s => (Ok tt, f s).
Definition lift_result {S A} (r : result A) : M S A := fun s => (r, s).
(** [try: m except e: h] *)
Definition try_except {S A} (m : M S A) (e : exn) (h : M S A) : M S A :=
  fun s => match m s with
           | (Raise e', s') => if decide (e' = e) then h s' else (Raise e', s')
           | r => r
           end.
(** Run a computation on a component of the state. *)
Definition zoom {S T A} (proj : S -> T) (inj : T -> S -> S) (m : M T A) : M S A :=
  fun s => let '(r, t) := m (proj s) in (r, inj t s).

Declare Scope py_scope.
Delimit Scope py_scope with py.
Notation "x <- c1 ;; c2" := (bind c1 (fun x => c2))
  (at level 20, c1 at level 99, c2 at level 200, only parsing) : py_scope.
Notation "' pat <- c1 ;; c2" := (bind c1 (fun x => match x with pat => c2 end))
  (at level 20, pat pattern, c1 at level 99, c2 at level 200, only parsing) : py_scope.
Notation "c1 ;; c2" := (bind c1 (fun _ => c2))
  (at level 100, c2 at level 200, only parsing, right associativity) : py_scope.
Local Open Scope py_scope.

(** [for x in xs: body x] *)
Fixpoint for_each {S A} (xs : list A) (body : A -> M S unit) : M S unit :=
  match xs with
  | [] => ret tt
  | x :: xs' => body x ;; for_each xs' body
  end.

(** A loop that updates an accumulator *)
Fixpoint fold_m {S A B} (f : B -> A -> M S B) (xs : list A) (b : B) : M S B :=
  match xs with
  | [] => ret b
  | x :: xs' => b' <- f b x ;; fold_m f xs' b'
  end.

(** [[f x for x in xs]] *)
Fixpoint map_m {S A B} (f : A -> M S B) (xs : list A) : M S (list B) :=
  match xs with
  | [] => ret []
  | x :: xs' => y <- f x ;; ys <- map_m f xs' ;; ret (y :: ys)
  end.

(** ** Python strings: the few [str] methods the code uses *)

Module PyStr.

Definition is_upper (c : ascii) : bool :=
  let n := nat_of_ascii c in (65 <=? n)%nat && (n <=? 90)%nat.

Definition lower_char (c : ascii) : ascii :=
  if is_upper c then ascii_of_nat (nat_of_ascii c + 32) else c.

(** [s.lower()], on ASCII *)
Fixpoint lower (s : string) : string :=
  match s with
  | EmptyString => EmptyString
  | String c r => String (lower_char c) (lower r)
  end.

(** [c in s] for a one-character [c] *)
Fixpoint contains_char (c : ascii) (s : string) : bool :=
  match s with
  | EmptyString => false
  | String d r => if decide (c = d) then true else contains_char c r
  end.

(** [s.split(sep)] for a one-character separator *)
Fixpoint split (sep : ascii) (s : string) : list string :=
  match s with
  | EmptyString => [EmptyString]
  | String c r =>
      if decide (c = sep) then EmptyString :: split sep r
      else match split sep r with
           | [] => [String c EmptyString]
           | p :: ps => String c p :: ps
           end
  end.

(** ASCII white space, as [str.strip] and [int] skip it *)
Definition is_space (c : ascii) : bool :=
  let n := nat_of_ascii c in
  (n =? 32)%nat || ((9 <=? n)%nat && (n <=? 13)%nat).

Fixpoint lstrip (s : string) : string :=
  match s with
  | EmptyString => EmptyString
  | String c r => if is_space c then lstrip r else s
  end.

Fixpoint rstrip (s : string) : string :=
  match s with
  | EmptyString => EmptyString
  | String c r =>
      match rstrip r with
      | EmptyString => if is_space c then EmptyString else String c EmptyString
      | r' => String c r'
      end
  end.

Definition strip (s : string) : string := rstrip (lstrip s).

(** The digits of an integer literal; [int] allows one underscore between
    two digits. [prev] tells whether the previous character was a digit. *)
Fixpoint drop_underscores (prev : bool) (s : string) : option string :=
  match s with
  | EmptyString => if prev then Some EmptyString else None
  | String c r =>
      if decide (c = "_"%char) then
        if prev then
          match r with
          | EmptyString => None
          | _ => drop_underscores false r
          end
        else None
      else String c <$> drop_underscores true r
  end.

(** [int(s)]: [None] stands for [ValueError] *)
Definition int (s : string) : option Z :=
  let body := strip s in
  let '(neg, digits) :=
    match body with
    | String c r =>
        if decide (c = "-"%char) then (true, r)
        else if decide (c = "+"%char) then (false, r)
        else (false, body)
    | EmptyString => (false, body)
    end in
  match digits with
  | EmptyString => None
  | _ =>
      ds ← drop_underscores false digits;
      u ← NilEmpty.uint_of_string ds;
      Some (Z.of_int (if neg then Neg u else Pos u))
  end.

(** [str(n)] for an [int] *)
Definition of_int (n : Z) : string := NilZero.string_of_int (Z.to_int n).

End PyStr.

(** ** Python values that reach the descriptors *)

(** A [float] is represented by its [repr], a [datetime.date] by its ISO
    form, any other object by its [str()]: these are what the code reads of
    them. *)
Inductive PyValue : Type :=
  | VNone
  | VStr (s : string)
  | VBytes (s : string)
  | VBool (b : bool)
  | VInt (n : Z)
  | VFloat (repr : string)
  | VDate (iso : string)
  | VObj (repr : string).

#[global] Instance PyValue_eq_dec : EqDecision PyValue.
Proof. solve_decision. Defined.

(** [str(value)] *)
Definition py_str (v : PyValue) : string :=
  match v with
  | VNone => "None"
  | VStr s => s
  | VBytes s => "b'" +:+ s +:+ "'"
  | VBool true => "True"
  | VBool false => "False"
  | VInt n => PyStr.of_int n
  | VFloat r => r
  | VDate iso => iso
  | VObj r => r
  end.

(** ** [pyclarity_lims/constants.py] *)

Definition _NSMAP : list (string * string) :=
  [ ("art", "http://pyclarity_lims.com/ri/artifact");
    ("artgr", "http://pyclarity_lims.com/ri/artifactgroup");
    ("cnf", "http://pyclarity_lims.com/ri/configuration");
    ("con", "http://pyclarity_lims.com/ri/container");
    ("ctp", "http://pyclarity_lims.com/ri/containertype");
    ("exc", "http://pyclarity_lims.com/ri/exception");
    ("file", "http://pyclarity_lims.com/ri/file");
    ("inst", "http://pyclarity_lims.com/ri/instrument");
    ("lab", "http://pyclarity_lims.com/ri/lab");
    ("prc", "http://pyclarity_lims.com/ri/process");
    ("prj", "http://pyclarity_lims.com/ri/project");
    ("prop", "http://pyclarity_lims.com/ri/property");
    ("protcnf", "http://pyclarity_lims.com/ri/protocolconfiguration");
    ("protstepcnf", "http://pyclarity_lims.com/ri/stepconfiguration");
    ("prx", "http://pyclarity_lims.com/ri/processexecution");
    ("ptm", "http://pyclarity_lims.com/ri/processtemplate");
    ("ptp", "http://pyclarity_lims.com/ri/processtype");
    ("res", "http://pyclarity_lims.com/ri/researcher");
    ("ri", "http://pyclarity_lims.com/ri");
    ("rt", "http://pyclarity_lims.com/ri/routing");
    ("rtp", "http://pyclarity_lims.com/ri/reagenttype");
    ("kit", "http://pyclarity_lims.com/ri/reagentkit");
    ("lot", "http://pyclarity_lims.com/ri/reagentlot");
    ("smp", "http://pyclarity_lims.com/ri/sample");
    ("stg", "http://pyclarity_lims.com/ri/stage");
    ("stp", "http://pyclarity_lims.com/ri/step");
    ("udf", "http://pyclarity_lims.com/ri/userdefined");
    ("ver", "http://pyclarity_lims.com/ri/version");
    ("wkfcnf", "http://pyclarity_lims.com/ri/workflowconfiguration") ].

Fixpoint assoc (k : string) (l : list (string * string)) : option string :=
  match l with
  | [] => None
  | (k', v) :: l' => if decide (k' = k) then Some v else assoc k l'
  end.

(** Convert from normal XML-ish namespace tag to ElementTree variant. *)
Definition nsmap (tag : string) : result string :=
  match PyStr.split ":" tag with
  | [prefix; name] =>
      match assoc prefix _NSMAP with
      | Some uri => Ok ("{" +:+ uri +:+ "}" +:+ name)
      | None => Raise KeyError
      end
  | _ => Raise ValueError
  end.

(** The two qualified tags [descriptors.py] builds with [nsmap]. *)
Definition udf_type_tag : string := "{http://pyclarity_lims.com/ri/userdefined}type".
Definition udf_field_tag : string := "{http://pyclarity_lims.com/ri/userdefined}field".

(** ** [xml.etree.ElementTree]: documents and element references *)

Module ElementTree.

(** [Element.text] is a [str]; [UdfDictionary._setitem] can also store
    [bytes] there. *)
Inductive PyText : Type :=
  | TStr (s : string)
  | TBytes (s : string).

#[global] Instance PyText_eq_dec : EqDecision PyText.
Proof. solve_decision. Defined.

Inductive Element : Type :=
  mkElement {
    tag : string;
    attrib : gmap string string;
    text : option PyText;
    children : list Element
  }.

(** [ElementTree.Element(tag)] *)
Definition Element_ (t : string) : Element := mkElement t ∅ None [].

Definition with_text (x : option PyText) (e : Element) : Element :=
  mkElement (tag e) (attrib e) x (children e).
Definition with_attrib (a : gmap string string) (e : Element) : Element :=
  mkElement (tag e) a (text e) (children e).
Definition with_children (cs : list Element) (e : Element) : Element :=
  mkElement (tag e) (attrib e) (text e) cs.

(** [e.set(k, v)], [e.attrib[k] = v] *)
Definition set (k v : string) (e : Element) : Element :=
  with_attrib (<[k := v]> (attrib e)) e.

(** [e.append(c)] *)
Definition append (c : Element) (e : Element) : Element :=
  with_children (children e ++ [c]) e.

(** The position [list.insert(i, x)] inserts at: a negative index counts
    from the end, and the result is clamped to [0 .. len]. *)
Definition insert_pos (i : Z) (len : nat) : nat :=
  if (i <? 0)%Z then Z.to_nat (Z.max 0 (Z.of_nat len + i))
  else Nat.min (Z.to_nat i) len.

(** [e.insert(i, c)] *)
Definition insert (i : Z) (c : Element) (e : Element) : Element :=
  let k := insert_pos i (length (children e)) in
  with_children (take k (children e) ++ c :: drop k (children e)) e.

(** [e.remove(c)] for the child [c] at position [i] (removal is by object
    identity). *)
Definition remove_at (i : nat) (e : Element) : Element :=
  with_children (delete i (children e)) e.

(** Positions, in order, of the elements of [l] that satisfy [P]; [i] is
    the position of the head of [l]. *)
Fixpoint positions {A} (P : A -> bool) (l : list A) (i : nat) : list nat :=
  match l with
  | [] => []
  | x :: l' => if P x then i :: positions P l' (S i) else positions P l' (S i)
  end.

Definition has_tag (name : string) (e : Element) : bool :=
  bool_decide (tag e = name).

(** A reference to an element of the document: the child positions that
    lead to it from the root. *)
Abbreviation Ref := (list nat).

Fixpoint node_at (p : Ref) (e : Element) : option Element :=
  match p with
  | [] => Some e
  | i :: p' =>
      match children e !! i with
      | Some c => node_at p' c
      | None => None
      end
  end.

Fixpoint alter_at (f : Element -> Element) (p : Ref) (e : Element) : Element :=
  match p with
  | [] => f e
  | i :: p' => with_children (alter (alter_at f p') i (children e)) e
  end.

(** Computations on the document an instance holds in [instance.root]. *)
Definition D (A : Type) : Type := M Element A.

(** Read the element a reference designates. *)
Definition deref (p : Ref) : D Element :=
  fun root =>
    match node_at p root with
    | Some n => (Ok n, root)
    | None => (Raise Stuck, root)
    end.

(** Mutate the element a reference designates. *)
Definition mutate (p : Ref) (f : Element -> Element) : D unit :=
  fun root =>
    match node_at p root with
    | Some _ => (Ok tt, alter_at f p root)
    | None => (Raise Stuck, root)
    end.

(** [list(node)]: references to the children of [node], in order. *)
Definition child_refs (p : Ref) : D (list Ref) :=
  n <- deref p ;; ret ((fun i => p ++ [i]) <$> seq 0 (length (children n))).

(** [node.findall(tag)] for a plain tag: the children with that tag. *)
Definition findall (p : Ref) (name : string) : D (list Ref) :=
  n <- deref p ;;
  ret ((fun i => p ++ [i]) <$> positions (has_tag name) (children n) 0).

(** [node.find(tag)] for a plain tag: the first child with that tag. *)
Definition find (p : Ref) (name : string) : D (option Ref) :=
  l <- findall p name ;; ret (head l).

(** [parent.append(Element)] for a new element; returns the reference to
    it. *)
Definition append_new (p : Ref) (c : Element) : D Ref :=
  n <- deref p ;;
  mutate p (append c) ;;
  ret (p ++ [length (children n)]).

(** [ElementTree.SubElement(parent, tag, **attrib)]; [parent] may be
    [None], which [SubElement] refuses. *)
Definition SubElement (parent : option Ref) (t : string)
    (attrs : list (string * string)) : D Ref :=
  match parent with
  | None => raise TypeError
  | Some p => append_new p (with_attrib (list_to_map attrs) (Element_ t))
  end.

(** [node.attrib[k]] *)
Definition attrib_get (p : Ref) (k : string) : D string :=
  n <- deref p ;;
  match attrib n !! k with
  | Some v => ret v
  | None => raise KeyError
  end.

End ElementTree.
Import ElementTree.

(** ** [descriptors.py]: locating the element behind an attribute *)

(** [get_sub_nodes(node, subnode_name)]: the children of [node] whose tag
    is [subnode_name], in document order. *)
Definition get_sub_nodes (node : Ref) (subnode_name : string) : D (list Ref) :=
  n <- deref node ;;
  ret ((fun i => node ++ [i]) <$> positions (has_tag subnode_name) (children n) 0).

(** [get_sub_node(node, subnode_name)]: [next(get_sub_nodes(...), None)] *)
Definition get_sub_node (node : Ref) (subnode_name : string) : D (option Ref) :=
  l <- get_sub_nodes node subnode_name ;; ret (head l).

(** [XmlElement.rootnode(instance)]: [instance.root] *)
Definition XmlElement_rootnode : D Ref := ret [].

(** The loop of [Nestable.rootnode]; [_rootnode] is the element reached so
    far. *)
Fixpoint rootnode_loop (rootkeys : list string) (_rootnode : Ref) : D Ref :=
  match rootkeys with
  | [] => ret _rootnode
  | rootkey :: rest =>
      childnode <- get_sub_node _rootnode rootkey ;;
      childnode <- match childnode with
                   | Some c => ret c
                   | None => append_new _rootnode (Element_ rootkey)
                   end ;;
      rootnode_loop rest childnode
  end.

(** [Nestable.rootnode(instance)] *)
Definition Nestable_rootnode (rootkeys : list string) : D Ref :=
  rootnode_loop rootkeys [].

(** Truth value of [self.tag], which is a string or [None]. *)
Definition tag_truthy (tag : option string) : option string :=
  match tag with
  | Some EmptyString => None
  | t => t
  end.

(** [TagDescriptor.get_node(instance)] *)
Definition TagDescriptor_get_node (tag : option string) : D (option Ref) :=
  match tag_truthy tag with
  | Some t => r <- XmlElement_rootnode ;; get_sub_node r t
  | None => r <- XmlElement_rootnode ;; ret (Some r)
  end.

(** ** Scalar descriptors, on the document of a fetched instance

    Each [__get__] / [__set__] below is the body that follows
    [instance.get()]; the entity-level accessors further down run
    [Entity.get] first. *)

Definition StringDescriptor_get_doc (tag : option string) : D (option PyText) :=
  node <- TagDescriptor_get_node tag ;;
  match node with
  | None => ret None
  | Some node => n <- deref node ;; ret (text n)
  end.

Definition StringDescriptor_set_doc (tag : option string) (value : PyValue) : D unit :=
  node <- TagDescriptor_get_node tag ;;
  node <- match node with
          | Some node => ret node
          | None =>
              (* create the new tag *)
              r <- XmlElement_rootnode ;;
              append_new r (Element_ (default EmptyString tag))
          end ;;
  mutate node (with_text (Some (TStr (py_str value)))).

(** The characters [int()] and [str.lower()] read from a text. *)
Definition text_chars (t : PyText) : string :=
  match t with TStr s => s | TBytes s => s end.

Definition IntegerDescriptor_get_doc (tag : option string) : D (option Z) :=
  text <- StringDescriptor_get_doc tag ;;
  match text with
  | None => ret None
  | Some t =>
      match PyStr.int (text_chars t) with
      | Some n => ret (Some n)
      | None => raise ValueError
      end
  end.

Definition BooleanDescriptor_get_doc (tag : option string) : D (option bool) :=
  text <- StringDescriptor_get_doc tag ;;
  match text with
  | None => ret None
  | Some (TStr s) => ret (Some (bool_decide (PyStr.lower s = "true")))
  | Some (TBytes _) => ret (Some false)
  end.

Definition BooleanDescriptor_set_doc (tag : option string) (value : PyValue) : D unit :=
  StringDescriptor_set_doc tag (VStr (PyStr.lower (py_str value))).

(** [StringListDescriptor.__get__]: the texts of the children of the
    nested root node that carry the tag. *)
Definition StringListDescriptor_get_doc (tag : string) (rootkeys : list string)
    : D (list (option PyText)) :=
  r <- Nestable_rootnode rootkeys ;;
  n <- deref r ;;
  ret (text <$> filter (fun node => tag = ElementTree.tag node) (children n)).

(** ** [entities.py]: entity objects, the identity cache and the transport *)

Abbreviation addr := nat.

(** The descriptors a class can bind to an attribute name, as far as
    [Entity._create] is modelled: the scalar ones. *)
Inductive Descriptor : Type :=
  | StringDescriptor (tag : option string)
  | IntegerDescriptor (tag : option string)
  | BooleanDescriptor (tag : option string).

#[global] Instance Descriptor_eq_dec : EqDecision Descriptor.
Proof. solve_decision. Defined.

(** An entity class: its name, its class attributes and its descriptors. *)
Record Class : Type := mkClass {
  c_name : string;
  c_TAG : option string;
  c_URI : option string;
  c_PREFIX : option string;
  c_CREATION_PREFIX : option string;
  c_CREATION_TAG : option string;
  c_descriptors : list (string * Descriptor)
}.

#[global] Instance Class_eq_dec : EqDecision Class.
Proof. solve_decision. Defined.

(** [class Entity(object)] *)
Definition Entity : Class := mkClass "Entity" None None None None None [].

(** The instance attributes [__init__] sets: [lims] (there is one [Lims]),
    [_uri] and [root]. *)
Record Attrs : Type := mkAttrs {
  _uri : option string;
  root : option Element
}.

(** An object made by [object.__new__(cls)] has no instance attribute
    until [__init__] sets them. *)
Record Object : Type := mkObject {
  o_class : Class;
  o_attrs : option Attrs
}.

Inductive Request : Type :=
  | GET (uri : option string)
  | POST (uri : string) (data : string).

(** What the program acts on: the entity objects, [lims.cache], the
    requests made to the server so far, and the records handed to
    [logger.error]. *)
Record World : Type := mkWorld {
  heap : list Object;
  cache : gmap string addr;
  requests : list Request;
  error_log : list string
}.

Definition W (A : Type) : Type := M World A.

Definition with_heap (h : list Object) (w : World) : World :=
  mkWorld h (cache w) (requests w) (error_log w).
Definition with_cache (c : gmap string addr) (w : World) : World :=
  mkWorld (heap w) c (requests w) (error_log w).
Definition with_requests (r : list Request) (w : World) : World :=
  mkWorld (heap w) (cache w) r (error_log w).
Definition with_error_log (l : list string) (w : World) : World :=
  mkWorld (heap w) (cache w) (requests w) l.

(** The [Lims] object of [lims.py], which is not part of the sources: its
    methods are taken as given.  A response may depend on the requests
    made before it. *)
Record Lims : Type := mkLims {
  (** [lims.get_uri], applied to its segments *)
  get_uri : list (option string) -> result string;
  (** [lims.get(uri)] *)
  lims_get : list Request -> option string -> result Element;
  (** [lims.post(uri, data)] *)
  lims_post : list Request -> string -> string -> result Element;
  (** [lims.tostring(ElementTree.ElementTree(root))] *)
  tostring : option Element -> string;
  (** [lims.get_batch(instances)] *)
  get_batch : list addr -> World -> result (list addr) * World
}.

(** isinstance(obj, cls), every entity class deriving from [Entity] directly *)
Definition isinstance (o : Object) (cls : Class) : bool :=
  bool_decide (o_class o = cls) || bool_decide (cls = Entity).

(** Truth value of a string-or-None argument. *)
Definition truthy (s : option string) : bool :=
  match s with
  | None | Some EmptyString => false
  | Some _ => true
  end.

Definition object_at (a : addr) : W Object :=
  fun w => match heap w !! a with
           | Some o => (Ok o, w)
           | None => (Raise Stuck, w)
           end.

(** Reading an instance attribute set by [__init__]. *)
Definition attrs_of (a : addr) : W Attrs :=
  o <- object_at a ;;
  match o_attrs o with
  | Some x => ret x
  | None => raise AttributeError
  end.

Definition set_attrs (a : addr) (x : Attrs) : W unit :=
  o <- object_at a ;;
  modify (fun w => with_heap (<[a := mkObject (o_class o) (Some x)]> (heap w)) w).

(** [object.__new__(cls)] *)
Definition object_new (cls : Class) : W addr :=
  fun w => (Ok (length (heap w)), with_heap (heap w ++ [mkObject cls None]) w).

Section Entities.

Variable lims : Lims.

(** [Entity.__new__(cls, lims, uri, id, _create_new)] *)
Definition Entity___new__ (cls : Class) (uri id : option string) (_create_new : bool)
    : W addr :=
  uri <- (if negb (truthy uri) then
            if truthy id then
              u <- lift_result (get_uri lims [c_URI cls; id]) ;; ret (Some u)
            else if _create_new then
              (* create the Object without id or uri *)
              ret uri
            else raise ValueError
          else ret uri) ;;
  w <- get_state ;;
  match uri ≫= (fun u => cache w !! u) with
  | Some a => ret a
  | None => object_new cls
  end.

(** [Entity.__init__(self, lims, uri, id, _create_new)] *)
Definition Entity___init__ (self : addr) (uri id : option string) (_create_new : bool)
    : W unit :=
  (if truthy uri || truthy id || _create_new then ret tt else raise AssertionError) ;;
  o <- object_at self ;;
  if negb _create_new then
    match o_attrs o with
    | Some _ => ret tt      (* hasattr(self, 'lims'): return *)
    | None =>
        uri <- (if negb (truthy uri) then
                  u <- lift_result (get_uri lims [c_URI (o_class o); id]) ;; ret u
                else ret (default EmptyString uri)) ;;
        modify (fun w => with_cache (<[uri := self]> (cache w)) w) ;;
        set_attrs self (mkAttrs (Some uri) None)
    end
  else
    set_attrs self (mkAttrs uri None).

(** The call [cls(lims, uri=uri, id=id, _create_new=_create_new)]:
    [__new__], then [__init__] when the object is an instance of [cls]. *)
Definition Entity_call (cls : Class) (uri id : option string) (_create_new : bool)
    : W addr :=
  self <- Entity___new__ cls uri id _create_new ;;
  o <- object_at self ;;
  (if isinstance o cls then Entity___init__ self uri id _create_new else ret tt) ;;
  ret self.

(** The property [Entity.uri] *)
Definition Entity_uri (self : addr) : W (option string) :=
  o <- object_at self ;;
  match o_attrs o with
  | Some x => ret (_uri x)
  | None => ret (c_URI (o_class o))
  end.

(** [self.root = r] *)
Definition set_root (self : addr) (r : option Element) : W unit :=
  o <- object_at self ;;
  modify (fun w =>
    with_heap (<[self := mkObject (o_class o)
                   (Some (mkAttrs (from_option _uri None (o_attrs o)) r))]> (heap w)) w).

(** [self._uri = u] *)
Definition set_uri (self : addr) (u : option string) : W unit :=
  o <- object_at self ;;
  modify (fun w =>
    with_heap (<[self := mkObject (o_class o)
                   (Some (mkAttrs u (from_option root None (o_attrs o))))]> (heap w)) w).

(** One [lims.get(uri)]: the request is recorded, then answered. *)
Definition transport_get (uri : option string) : W Element :=
  w <- get_state ;;
  modify (with_requests (requests w ++ [GET uri])) ;;
  lift_result (lims_get lims (requests w) uri).

(** One [lims.post(uri, data)] *)
Definition transport_post (uri data : string) : W Element :=
  w <- get_state ;;
  modify (with_requests (requests w ++ [POST uri data])) ;;
  lift_result (lims_post lims (requests w) uri data).

(** [Entity.get(self, force)]: get the XML data for this instance. *)
Definition Entity_get (self : addr) (force : bool) : W unit :=
  x <- attrs_of self ;;
  if negb force && bool_decide (root x <> None) then ret tt
  else
    uri <- Entity_uri self ;;
    r <- transport_get uri ;;
    set_root self (Some r).

(** Run a computation on the document in [instance.root].  A root that is
    [None] cannot be iterated or indexed: [TypeError]. *)
Definition on_root {A} (instance : addr) (m : D A) : W A :=
  x <- attrs_of instance ;;
  match root x with
  | None => raise TypeError
  | Some r =>
      let '(res, r') := m r in
      set_root instance (Some r') ;; lift_result res
  end.

(** [StringDescriptor.__get__(instance, cls)] *)
Definition StringDescriptor___get__ (tag : option string) (instance : addr)
    : W (option PyText) :=
  Entity_get instance false ;; on_root instance (StringDescriptor_get_doc tag).

(** [StringDescriptor.__set__(instance, value)] *)
Definition StringDescriptor___set__ (tag : option string) (instance : addr)
    (value : PyValue) : W unit :=
  Entity_get instance false ;; on_root instance (StringDescriptor_set_doc tag value).

(** [IntegerDescriptor.__get__(instance, cls)] *)
Definition IntegerDescriptor___get__ (tag : option string) (instance : addr)
    : W (option Z) :=
  text <- StringDescriptor___get__ tag instance ;;
  match text with
  | None => ret None
  | Some t =>
      match PyStr.int (text_chars t) with
      | Some n => ret (Some n)
      | None => raise ValueError
      end
  end.

(** [IntegerDescriptor] inherits [__set__] from [StringDescriptor]. *)
Definition IntegerDescriptor___set__ := StringDescriptor___set__.

(** [BooleanDescriptor.__get__(instance, cls)] *)
Definition BooleanDescriptor___get__ (tag : option string) (instance : addr)
    : W (option bool) :=
  text <- StringDescriptor___get__ tag instance ;;
  match text with
  | None => ret None
  | Some (TStr s) => ret (Some (bool_decide (PyStr.lower s = "true")))
  | Some (TBytes _) => ret (Some false)
  end.

(** [BooleanDescriptor.__set__(instance, value)] *)
Definition BooleanDescriptor___set__ (tag : option string) (instance : addr)
    (value : PyValue) : W unit :=
  StringDescriptor___set__ tag instance (VStr (PyStr.lower (py_str value))).

(** [StringListDescriptor.__get__(instance, cls)] *)
Definition StringListDescriptor___get__ (tag : string) (rootkeys : list string)
    (instance : addr) : W (list (option PyText)) :=
  Entity_get instance false ;;
  on_root instance (StringListDescriptor_get_doc tag rootkeys).

(** [getattr] and [setattr] through a descriptor of the class. *)
Definition Descriptor___get__ (d : Descriptor) (instance : addr) : W unit :=
  match d with
  | StringDescriptor tag => StringDescriptor___get__ tag instance ;; ret tt
  | IntegerDescriptor tag => IntegerDescriptor___get__ tag instance ;; ret tt
  | BooleanDescriptor tag => BooleanDescriptor___get__ tag instance ;; ret tt
  end.

Definition Descriptor___set__ (d : Descriptor) (instance : addr) (value : PyValue)
    : W unit :=
  match d with
  | StringDescriptor tag => StringDescriptor___set__ tag instance value
  | IntegerDescriptor tag => IntegerDescriptor___set__ tag instance value
  | BooleanDescriptor tag => BooleanDescriptor___set__ tag instance value
  end.

Fixpoint lookup_descriptor (name : string) (l : list (string * Descriptor))
    : option Descriptor :=
  match l with
  | [] => None
  | (n, d) :: l' => if decide (n = name) then Some d else lookup_descriptor name l'
  end.

(** [hasattr(instance, attribute)] for an attribute name that is a
    descriptor of the class or no attribute at all: the descriptor is read,
    and only an [AttributeError] means that the attribute is missing. *)
Definition hasattr (cls : Class) (instance : addr) (attribute : string) : W bool :=
  match lookup_descriptor attribute (c_descriptors cls) with
  | Some d => try_except (Descriptor___get__ d instance ;; ret true)
                AttributeError (ret false)
  | None => ret false
  end.

(** [setattr(instance, attribute, value)], for a descriptor of the class *)
Definition setattr (cls : Class) (instance : addr) (attribute : string)
    (value : PyValue) : W unit :=
  match lookup_descriptor attribute (c_descriptors cls) with
  | Some d => Descriptor___set__ d instance value
  | None => raise AttributeError
  end.

(** [prefix + ':' + tag]; [prefix] can be [None] *)
Definition creation_qname (prefix : option string) (tag : string) : result string :=
  match prefix with
  | Some p => Ok (p +:+ ":" +:+ tag)
  | None => Raise TypeError
  end.

(** [Entity._create(cls, lims, **kwargs)]: create an instance from
    attributes and return it. *)
Definition Entity__create (cls : Class) (kwargs : list (string * PyValue)) : W addr :=
  instance <- Entity_call cls None None true ;;
  let prefix := match c_CREATION_PREFIX cls with
                | None => c_PREFIX cls
                | p => p
                end in
  let tag := match c_CREATION_TAG cls with
             | None => c_TAG cls
             | t => t
             end in
  let tag := match tag with
             | None => PyStr.lower (c_name cls)
             | Some t => t
             end in
  qname <- lift_result (creation_qname prefix tag) ;;
  qtag <- lift_result (nsmap qname) ;;
  set_root instance (Some (Element_ qtag)) ;;
  for_each kwargs (fun '(attribute, value) =>
    b <- hasattr cls instance attribute ;;
    if b then setattr cls instance attribute value
    else raise TypeError) ;;
  ret instance.

(** [Entity.create(cls, lims, **kwargs)]: create an instance from
    attributes then post it to the LIMS. *)
Definition Entity_create (cls : Class) (kwargs : list (string * PyValue)) : W addr :=
  instance <- Entity__create cls kwargs ;;
  x <- attrs_of instance ;;
  let data := tostring lims (root x) in
  uri <- lift_result (get_uri lims [c_URI cls]) ;;
  r <- transport_post uri data ;;
  set_root instance (Some r) ;;
  match attrib r !! "uri" with
  | Some u => set_uri instance (Some u) ;; ret instance
  | None => raise KeyError
  end.

(** *** [Artifact], [Process] and the input/output maps *)

(** The two classes [InputOutputMapList] instantiates, with their scalar
    descriptors. *)
Definition Artifact : Class :=
  mkClass "Artifact" None (Some "artifacts") (Some "art") None None
    [ ("name", StringDescriptor (Some "name"));
      ("type", StringDescriptor (Some "type"));
      ("output_type", StringDescriptor (Some "output-type"));
      ("volume", StringDescriptor (Some "volume"));
      ("concentration", StringDescriptor (Some "concentration"));
      ("qc_flag", StringDescriptor (Some "qc-flag"));
      ("working_flag", BooleanDescriptor (Some "working-flag")) ].

Definition Process : Class :=
  mkClass "Process" None (Some "processes") (Some "prc") (Some "prx") None
    [ ("date_run", StringDescriptor (Some "date-run"));
      ("protocol_name", StringDescriptor (Some "protocol-name"));
      ("process_parameter", StringDescriptor (Some "process-parameter")) ].

(** A value of the dictionaries [get_dict] builds: an attribute string or
    an entity. *)
Inductive IOValue : Type :=
  | IOStr (s : string)
  | IOEntity (a : addr).

#[global] Instance IOValue_eq_dec : EqDecision IOValue.
Proof. solve_decision. Defined.

(** [InputOutputMapList.get_dict(lims, node)]; [node] is an element of the
    document of [instance]. *)
Definition InputOutputMapList_get_dict (instance : addr) (node : option Ref)
    : W (option (gmap string IOValue)) :=
  match node with
  | None => ret None
  | Some node =>
      result <- fold_m (fun result key =>
          result <- try_except
                      (v <- on_root instance (attrib_get node key) ;;
                       ret (<[key := IOStr v]> result))
                      KeyError (ret result) ;;
          fold_m (fun result uri =>
              try_except
                (u <- on_root instance (attrib_get node uri) ;;
                 a <- Entity_call Artifact (Some u) None false ;;
                 ret (<[uri := IOEntity a]> result))
                KeyError (ret result))
            ["uri"; "post-process-uri"] result)
        ["limsid"; "output-type"; "output-generation-type"]
        (∅ : gmap string IOValue) ;;
      node <- on_root instance (get_sub_node node "parent-process") ;;
      match node with
      | None => ret (Some result)
      | Some node =>
          u <- on_root instance (attrib_get node "uri") ;;
          p <- Entity_call Process (Some u) None false ;;
          ret (Some (<["parent-process" := IOEntity p]> result))
      end
  end.

(** [InputOutputMapList.__get__(instance, cls)] *)
Definition InputOutputMapList___get__ (rootkeys : list string) (instance : addr)
    : W (list (option (gmap string IOValue) * option (gmap string IOValue))) :=
  Entity_get instance false ;;
  r <- on_root instance (Nestable_rootnode rootkeys) ;;
  nodes <- on_root instance (get_sub_nodes r "input-output-map") ;;
  map_m (fun node =>
      i <- on_root instance (get_sub_node node "input") ;;
      input <- InputOutputMapList_get_dict instance i ;;
      o <- on_root instance (get_sub_node node "output") ;;
      output <- InputOutputMapList_get_dict instance o ;;
      ret (input, output))
    nodes.

(** [io[0]['limsid']] *)
Definition input_limsid {S}
    (io : option (gmap string IOValue) * option (gmap string IOValue)) : M S IOValue :=
  match io.1 with
  | None => raise TypeError        (* None is not subscriptable *)
  | Some d =>
      match d !! "limsid" with
      | Some v => ret v
      | None => raise KeyError
      end
  end.

(** [logger.error(msg, ...)] *)
Definition logger_error (msg : string) : W unit :=
  modify (fun w => with_error_log (error_log w ++ [msg]) w).

(** [Artifact(self.lims, id=id)] for an element of [ids] *)
Definition Artifact_by_id (id : IOValue) : W addr :=
  match id with
  | IOStr s => Entity_call Artifact None (Some s) false
  | IOEntity _ => raise Stuck      (* get_dict stores a string under 'limsid' *)
  end.

(** [Process.all_inputs(self, unique, resolve)]: retrieving all input
    artifacts from input_output_maps; if unique is true, no duplicates are
    returned.  [list(frozenset(ids))] has no specified order; the model keeps
    the first occurrences in order. *)
Definition Process_all_inputs (self : addr) (unique resolve : bool) : W (list addr) :=
  (* if the process has no input, that is not standard and we want to know
     about it *)
  ids <- try_except
           (maps <- InputOutputMapList___get__ [] self ;;
            map_m input_limsid maps)
           TypeError
           (logger_error "Process " ;; raise TypeError) ;;
  let ids := if unique then remove_dups ids else ids in
  arts <- map_m Artifact_by_id ids ;;
  if resolve then get_batch lims arts else ret arts.

End Entities.

(** ** More descriptors of [descriptors.py] *)

(** [StringAttributeDescriptor]: a string held by an attribute of the root
    element; the bodies that follow [instance.get()]. *)
Definition StringAttributeDescriptor_get_doc (tag : string) : D string :=
  r <- XmlElement_rootnode ;; attrib_get r tag.

Definition StringAttributeDescriptor_set_doc (tag value : string) : D unit :=
  r <- XmlElement_rootnode ;; mutate r (ElementTree.set tag value).

(** [IntegerAttributeDescriptor.__get__]: [int(attrib[tag])] *)
Definition IntegerAttributeDescriptor_get_doc (tag : string) : D Z :=
  r <- XmlElement_rootnode ;;
  v <- attrib_get r tag ;;
  match PyStr.int v with
  | Some n => ret n
  | None => raise ValueError
  end.

(** [StringDictionaryDescriptor.__get__]: the tags and texts of the
    children of the first [tag] element of the nested root node; a later child
    replaces an earlier one with the same tag.  ([Element.getchildren] is the
    list of the children, where Python has it.) *)
Definition StringDictionaryDescriptor_get_doc (tag : string) (rootkeys : list string)
    : D (gmap string (option PyText)) :=
  r <- Nestable_rootnode rootkeys ;;
  node <- get_sub_node r tag ;;
  match node with
  | None => ret ∅
  | Some node =>
      n <- deref node ;;
      ret (foldl (fun result node2 => <[ElementTree.tag node2 := text node2]> result)
             ∅ (children n))
  end.

(** [ExternalidListDescriptor.__get__]: the pairs [(id, uri)] of the
    [ri:externalid] children; [attrib.get] gives [None] for a missing
    attribute. *)
Definition ExternalidListDescriptor_get_doc : D (list (option string * option string)) :=
  r <- XmlElement_rootnode ;;
  t <- lift_result (nsmap "ri:externalid") ;;
  nodes <- findall r t ;;
  map_m (fun node => n <- deref node ;; ret (attrib n !! "id", attrib n !! "uri")) nodes.

(** [ReagentLabelList.__get__]: the names of the [reagent-label] children;
    the bare [except] skips a child without [name]. *)
Definition ReagentLabelList_get_doc : D (list string) :=
  r <- XmlElement_rootnode ;;
  nodes <- findall r "reagent-label" ;;
  fold_m (fun value node =>
      fun s => match attrib_get node "name" s with
               | (Ok name, s') => (Ok (value ++ [name]), s')
               | (Raise _, s') => (Ok value, s')
               end)
    nodes [].

Section MoreDescriptors.

Variable lims : Lims.

Definition StringAttributeDescriptor___get__ (tag : string) (instance : addr) : W string :=
  Entity_get lims instance false ;;
  on_root instance (StringAttributeDescriptor_get_doc tag).

Definition StringAttributeDescriptor___set__ (tag : string) (instance : addr)
    (value : string) : W unit :=
  Entity_get lims instance false ;;
  on_root instance (StringAttributeDescriptor_set_doc tag value).

Definition IntegerAttributeDescriptor___get__ (tag : string) (instance : addr) : W Z :=
  Entity_get lims instance false ;;
  on_root instance (IntegerAttributeDescriptor_get_doc tag).

Definition StringDictionaryDescriptor___get__ (tag : string) (rootkeys : list string)
    (instance : addr) : W (gmap string (option PyText)) :=
  Entity_get lims instance false ;;
  on_root instance (StringDictionaryDescriptor_get_doc tag rootkeys).

Definition ExternalidListDescriptor___get__ (instance : addr)
    : W (list (option string * option string)) :=
  Entity_get lims instance false ;;
  on_root instance ExternalidListDescriptor_get_doc.

Definition ReagentLabelList___get__ (instance : addr) : W (list string) :=
  Entity_get lims instance false ;;
  on_root instance ReagentLabelList_get_doc.

(** [EntityDescriptor.__get__(instance, cls)]: the entity the first [tag]
    child refers to, or [None]. *)
Definition EntityDescriptor___get__ (tag : string) (klass : Class) (instance : addr)
    : W (option addr) :=
  Entity_get lims instance false ;;
  node <- on_root instance (r <- XmlElement_rootnode ;; find r tag) ;;
  match node with
  | None => ret None
  | Some node =>
      u <- on_root instance (attrib_get node "uri") ;;
      a <- Entity_call lims klass (Some u) None false ;;
      ret (Some a)
  end.

(** [EntityDescriptor.__set__(instance, value)] for an entity [value] *)
Definition EntityDescriptor___set__ (tag : string) (instance : addr) (value : addr)
    : W unit :=
  Entity_get lims instance false ;;
  node <- on_root instance (TagDescriptor_get_node (Some tag)) ;;
  node <- match node with
          | Some node => ret node
          | None =>
              (* create the new tag *)
              on_root instance (r <- XmlElement_rootnode ;; append_new r (Element_ tag))
          end ;;
  uri <- Entity_uri value ;;
  match uri with
  | Some u => on_root instance (mutate node (ElementTree.set "uri" u))
  | None => raise Stuck       (* an attribute that is None is not modelled *)
  end.

End MoreDescriptors.

(** *** [Process.all_outputs] *)

Section ProcessOutputs.

Variable lims : Lims.

(** [io[1] is not None] *)
Definition has_output (io : option (gmap string IOValue) * option (gmap string IOValue))
    : bool :=
  match io.2 with Some _ => true | None => false end.

(** [io[1]['limsid']] *)
Definition output_limsid {S}
    (io : option (gmap string IOValue) * option (gmap string IOValue)) : M S IOValue :=
  match io.2 with
  | None => raise TypeError        (* None is not subscriptable *)
  | Some d =>
      match d !! "limsid" with
      | Some v => ret v
      | None => raise KeyError
      end
  end.

(** [Process.all_outputs(self, unique, resolve)]: retrieving all output
    artifacts from input_output_maps; if unique is true, no duplicates are
    returned.  As for [all_inputs], the model of [list(frozenset(ids))] keeps
    the first occurrences in order. *)
Definition Process_all_outputs (self : addr) (unique resolve : bool) : W (list addr) :=
  (* Given how ids is structured, io[1] might be None : some process don't
     have an output. *)
  maps <- InputOutputMapList___get__ lims [] self ;;
  ids <- map_m output_limsid (filter (fun io => has_output io = true) maps) ;;
  let ids := if unique then remove_dups ids else ids in
  arts <- map_m (Artifact_by_id lims) ids ;;
  if resolve then get_batch lims arts else ret arts.

End ProcessOutputs.

(** *** [Sample.create] *)

Section SampleCreate.

Variable lims : Lims.

(** [class Container(Entity)] with its scalar descriptors *)
Definition Container : Class :=
  mkClass "Container" None (Some "containers") (Some "con") None None
    [ ("name", StringDescriptor (Some "name"));
      ("occupied_wells", IntegerDescriptor (Some "occupied-wells"));
      ("state", StringDescriptor (Some "state")) ].

(** [Sample.create(cls, lims, container, position, **kwargs)]: create an
    instance of Sample from attributes then post it to the LIMS.  [cls] is
    the class the method is called on, [container] an object of the heap and
    [position] a string.  An attribute dictionary holds strings: a container
    whose [uri] is [None] gives a document that cannot be written out. *)
Definition Sample_create (cls : Class) (container : addr) (position : string)
    (kwargs : list (string * PyValue)) : W addr :=
  c <- object_at container ;;
  if negb (isinstance c Container) then raise TypeError
  else
    instance <- Entity__create lims cls kwargs ;;
    location <- on_root instance (SubElement (Some []) "location" []) ;;
    uri <- Entity_uri container ;;
    match uri with
    | None => raise Stuck
    | Some u =>
        on_root instance (SubElement (Some location) "container" [("uri", u)]) ;;
        position_element <- on_root instance (SubElement (Some location) "value" []) ;;
        on_root instance (mutate position_element (with_text (Some (TStr position)))) ;;
        x <- attrs_of instance ;;
        let data := tostring lims (root x) in
        uri <- lift_result (get_uri lims [c_URI cls]) ;;
        r <- transport_post lims uri data ;;
        set_root instance (Some r) ;;
        match attrib r !! "uri" with
        | Some u => set_uri instance (Some u) ;; ret instance
        | None => raise KeyError
        end
    end.

End SampleCreate.

(** ** Dictionary projections: [XmlDictionary] and [UdfDictionary]

    The state of a call on a projection is the projection object and the
    document of its instance. *)

(** [Element.remove(child)] on the element [parent]: by identity, so
    [child] has to be one of the children of [parent]. *)
Definition child_index (parent child : Ref) : option nat :=
  match drop (length parent) child with
  | [i] => if decide (take (length parent) child = parent) then Some i else None
  | _ => None
  end.

Definition remove (parent child : Ref) : D unit :=
  n <- deref parent ;;
  match child_index parent child with
  | Some i =>
      if decide (i < length (children n)) then mutate parent (remove_at i)
      else raise ValueError
  | None => raise ValueError
  end.

(** Where the element at [r] is once the element at [removed] has been
    taken out of the document: later siblings move up by one, and the
    elements of the removed subtree are no longer in the document. *)
Definition relocate (removed r : Ref) : option Ref :=
  let k := length removed - 1 in
  if decide (take (length removed) r = removed) then None
  else if decide (take k r = take k removed) then
    match drop k removed, drop k r with
    | [i], j :: rest => Some (take k r ++ (if decide (i < j) then j - 1 else j) :: rest)
    | _, _ => Some r
    end
  else Some r.

(** The present position of an element scanned at [elem], after the
    removals [removed] (oldest first). *)
Definition current_ref (removed : list Ref) (elem : Ref) : option Ref :=
  foldl (fun acc rm => acc ≫= relocate rm) (Some elem) removed.

Record XmlDictionary (V X : Type) : Type := mkXmlDictionary {
  items : gmap string V;        (* the entries of the [dict] itself *)
  _elems : list Ref;
  fields : X                    (* what a subclass adds *)
}.
Arguments mkXmlDictionary {V X} _ _ _.
Arguments items {V X} _.
Arguments _elems {V X} _.
Arguments fields {V X} _.

Section XmlDictionary.

Context {V X : Type}.

Definition P (A : Type) : Type := M (XmlDictionary V X * Element) A.

(** The methods a subclass provides or overrides. *)
Variable rootnode : P Ref.
Variable _update_elems : P unit.
Variable _parse_element : Ref -> P unit.
Variable _setitem : string -> V -> P unit.

(** A computation on the document of [self.instance]. *)
Definition doc {A} (m : D A) : P A := zoom snd (fun r s => (s.1, r)) m.

Definition self_elems : P (list Ref) := fun s => (Ok (_elems s.1), s).

Definition set_items (f : gmap string V -> gmap string V) : P unit :=
  modify (fun s => (mkXmlDictionary (f (items s.1)) (_elems s.1) (fields s.1), s.2)).

Definition set_elems (l : list Ref) : P unit :=
  modify (fun s => (mkXmlDictionary (items s.1) l (fields s.1), s.2)).

Definition dict___setitem__ (key : string) (value : V) : P unit :=
  set_items (fun m => <[key := value]> m).

Definition dict___delitem__ (key : string) : P unit :=
  fun s => match items s.1 !! key with
           | Some _ => set_items (delete key) s
           | None => (Raise KeyError, s)
           end.

Definition dict_clear : P unit := set_items (fun _ => ∅).

Definition XmlDictionary__prepare_lookup : P unit :=
  elems <- self_elems ;; for_each elems _parse_element.

Definition XmlDictionary___init__ : P unit :=
  dict_clear ;;                       (* dict.__init__(self) *)
  _update_elems ;;
  XmlDictionary__prepare_lookup.

Definition XmlDictionary___setitem__ (key : string) (value : V) : P unit :=
  dict___setitem__ key value ;;
  _setitem key value.

(** The loop that ends [__delitem__] *)
Fixpoint remove_named (key : string) (elems : list Ref) : P unit :=
  match elems with
  | [] => ret tt
  | node :: rest =>
      name <- doc (attrib_get node "name") ;;
      if decide (name = key) then r <- rootnode ;; doc (remove r node)
      else remove_named key rest
  end.

(** [self._del_item(key)]: the class has no attribute [_del_item] (the
    method it defines is [_delitem]). *)
Definition self__del_item (key : string) : P unit := raise AttributeError.

Definition XmlDictionary___delitem__ (key : string) : P unit :=
  dict___delitem__ key ;;
  self__del_item key ;;
  elems <- self_elems ;;
  remove_named key elems.

(** [for elem in elems: self.rootnode(self.instance).remove(elem)] *)
Fixpoint remove_each (removed : list Ref) (elems : list Ref) : P unit :=
  match elems with
  | [] => ret tt
  | elem :: rest =>
      r <- rootnode ;;
      match current_ref removed elem with
      | Some e => doc (remove r e) ;; remove_each (removed ++ [e]) rest
      | None => raise ValueError
      end
  end.

Definition XmlDictionary_clear : P unit :=
  dict_clear ;;
  elems <- self_elems ;;
  remove_each [] elems ;;
  _update_elems.

End XmlDictionary.

(** [self._udt]: [False], [True] or the name of the UDT *)
Inductive Udt : Type :=
  | UdtFlag (b : bool)
  | UdtName (name : string).

#[global] Instance Udt_eq_dec : EqDecision Udt.
Proof. solve_decision. Defined.

Definition udt_truthy (u : Udt) : bool :=
  match u with
  | UdtFlag b => b
  | UdtName EmptyString => false
  | UdtName _ => true
  end.

Record UdfFields : Type := mkUdfFields {
  rootkeys : list string;
  _udt : Udt
}.

Abbreviation UdfDictionary := (XmlDictionary PyValue UdfFields).

Section UdfDictionary.

(** [float(text)] as the [repr] of the result, and the date
    [time.strptime(text, "%Y-%m-%d")] reads, in ISO form; [None] stands for
    [ValueError]. *)
Variable py_float : string -> option string.
Variable py_strpdate : string -> option string.

Definition U (A : Type) : Type := M (UdfDictionary * Element) A.

Definition self_udt : U Udt := fun s => (Ok (_udt (fields s.1)), s).

Definition set_self_udt (u : Udt) : U unit :=
  modify (fun s => (mkXmlDictionary (items s.1) (_elems s.1)
                      (mkUdfFields (rootkeys (fields s.1)) u), s.2)).

Definition UdfDictionary__is_string (value : PyValue) : bool :=
  match value with VStr _ => true | _ => false end.

(** [Nestable.rootnode(self, self.instance)] *)
Definition UdfDictionary_rootnode : U Ref :=
  fun s => doc (Nestable_rootnode (rootkeys (fields s.1))) s.

Definition UdfDictionary_get_udt (self : UdfDictionary) : PyValue :=
  match _udt (fields self) with
  | UdtFlag true => VNone
  | UdtFlag false => VBool false
  | UdtName name => VStr name
  end.

Definition UdfDictionary_set_udt (name : PyValue) : U unit :=
  match name with
  | VStr name =>
      udt <- self_udt ;;
      if negb (udt_truthy udt) then raise AttributeError
      else
        set_self_udt (UdtName name) ;;
        r <- UdfDictionary_rootnode ;;
        elem <- doc (find r udf_type_tag) ;;
        match elem with
        | None => raise AssertionError
        | Some elem => doc (mutate elem (set "name" name))
        end
  | _ => raise AssertionError
  end.

Definition UdfDictionary__update_elems : U unit :=
  set_elems [] ;;
  udt <- self_udt ;;
  if udt_truthy udt then
    r <- UdfDictionary_rootnode ;;
    elem <- doc (find r udf_type_tag) ;;
    match elem with
    | None => ret tt
    | Some elem =>
        name <- doc (attrib_get elem "name") ;;
        set_self_udt (UdtName name) ;;
        l <- doc (findall elem udf_field_tag) ;;
        set_elems l
    end
  else
    r <- UdfDictionary_rootnode ;;
    l <- doc (get_sub_nodes r udf_field_tag) ;;
    set_elems l.

(** The value [_parse_element] reads from the text of a field of type
    [type] (lower case). *)
Definition parse_value (type : string) (text : option PyText) : result PyValue :=
  match text with
  | None => Ok VNone
  | Some t =>
      if decide (text_chars t = EmptyString) then Ok VNone      (* not value *)
      else if decide (type = "numeric") then
        match PyStr.int (text_chars t) with
        | Some n => Ok (VInt n)
        | None =>
            match py_float (text_chars t) with
            | Some f => Ok (VFloat f)
            | None => Raise ValueError
            end
        end
      else if decide (type = "boolean") then
        Ok (VBool (bool_decide (t = TStr "true")))
      else if decide (type = "date") then
        match t with
        | TStr s =>
            match py_strpdate s with
            | Some d => Ok (VDate d)
            | None => Raise ValueError
            end
        | TBytes _ => Raise TypeError
        end
      else
        Ok (match t with TStr s => VStr s | TBytes s => VBytes s end)
  end.

Definition UdfDictionary__parse_element (element : Ref) : U unit :=
  type <- doc (attrib_get element "type") ;;
  e <- doc (deref element) ;;
  value <- lift_result (parse_value (PyStr.lower type) (text e)) ;;
  name <- doc (attrib_get element "name") ;;
  dict___setitem__ name value.

(** The type check of [_setitem] for a field that exists, of type
    [vtype]: the value to store, or the exception. *)
Definition check_value (vtype : string) (value : PyValue) : result PyValue :=
  match value with
  | VNone => Ok VNone
  | _ =>
      if decide (vtype = "string") then
        if UdfDictionary__is_string value then Ok value else Raise TypeError
      else if decide (vtype = "str") then
        if UdfDictionary__is_string value then Ok value else Raise TypeError
      else if decide (vtype = "text") then
        if UdfDictionary__is_string value then Ok value else Raise TypeError
      else if decide (vtype = "numeric") then
        match value with
        | VInt _ | VFloat _ | VBool _ => Ok (VStr (py_str value))
        | _ => Raise TypeError
        end
      else if decide (vtype = "boolean") then
        match value with
        | VBool b => Ok (VStr (if b then "true" else "false"))
        | _ => Raise TypeError
        end
      else if decide (vtype = "date") then
        match value with
        | VDate _ => Ok (VStr (py_str value))
        | _ => Raise TypeError
        end
      else if decide (vtype = "uri") then
        if UdfDictionary__is_string value then Ok (VStr (py_str value))
        else Raise TypeError
      else Raise TypeError      (* raise NotImplemented(...): not callable *)
  end.

(** What [node.text] receives: a [str] as it is, anything else as
    [str(value).encode('UTF-8')]. *)
Definition encode_text (value : PyValue) : PyText :=
  match value with
  | VStr s => TStr s
  | _ => TBytes (py_str value)
  end.

(** The heuristics of [_setitem] for the type of a new entry. *)
Definition infer_type (value : PyValue) : result (string * PyValue) :=
  match value with
  | VStr s => Ok (if PyStr.contains_char "010" s then "Text" else "String", value)
  | VBool b => Ok ("Boolean", VStr (if b then "true" else "false"))
  | VInt _ | VFloat _ => Ok ("Numeric", VStr (py_str value))
  | VDate _ => Ok ("Date", VStr (py_str value))
  | _ => Raise NotImplementedError
  end.

(** The [for node in self._elems] loop of [_setitem]; the result tells
    whether it ended by [break]. *)
Fixpoint UdfDictionary__setitem_loop (key : string) (value : PyValue)
    (elems : list Ref) : U bool :=
  match elems with
  | [] => ret false
  | node :: rest =>
      name <- doc (attrib_get node "name") ;;
      if decide (name <> key) then UdfDictionary__setitem_loop key value rest
      else
        vtype <- doc (attrib_get node "type") ;;
        value <- lift_result (check_value (PyStr.lower vtype) value) ;;
        doc (mutate node (with_text (Some (encode_text value)))) ;;
        ret true
  end.

Definition UdfDictionary__prepare_lookup : U unit :=
  XmlDictionary__prepare_lookup UdfDictionary__parse_element.

Definition UdfDictionary__setitem (key : string) (value : PyValue) : U unit :=
  elems <- self_elems ;;
  found <- UdfDictionary__setitem_loop key value elems ;;
  if (found : bool) then ret tt
  else
    (* Create new entry; heuristics for type *)
    '(vtype, value) <- lift_result (infer_type value) ;;
    udt <- self_udt ;;
    root <- (if udt_truthy udt then
               r <- UdfDictionary_rootnode ;; doc (find r udf_type_tag)
             else
               r <- UdfDictionary_rootnode ;; ret (Some r)) ;;
    elem <- doc (SubElement root udf_field_tag [("type", vtype); ("name", key)]) ;;
    doc (mutate elem (with_text (Some (encode_text value)))) ;;
    (* update the internal elements and lookup with new values *)
    UdfDictionary__update_elems ;;
    UdfDictionary__prepare_lookup.

Definition UdfDictionary___setitem__ (key : string) (value : PyValue) : U unit :=
  XmlDictionary___setitem__ UdfDictionary__setitem key value.

Definition UdfDictionary___delitem__ (key : string) : U unit :=
  XmlDictionary___delitem__ UdfDictionary_rootnode key.

Definition UdfDictionary_clear : U unit :=
  XmlDictionary_clear UdfDictionary_rootnode UdfDictionary__update_elems.

(** [UdfDictionary._delitem(key)], which nothing calls *)
Definition UdfDictionary__delitem (key : string) : U unit :=
  elems <- self_elems ;;
  remove_named UdfDictionary_rootnode key elems.

(** [UdfDictionary.__init__(self, instance, nesting, udt=udt)] *)
Definition UdfDictionary___init__ (nesting : option (list string)) (udt : Udt) : U unit :=
  modify (fun s => (mkXmlDictionary (items s.1) (_elems s.1)
                      (mkUdfFields (default [] nesting) udt), s.2)) ;;
  XmlDictionary___init__ UdfDictionary__update_elems UdfDictionary__parse_element.

(** The object before [__init__] runs. *)
Definition UdfDictionary_blank : UdfDictionary :=
  mkXmlDictionary ∅ [] (mkUdfFields [] (UdtFlag false)).

(** [UdfDictionary(instance, nesting=nesting, udt=udt)] on an instance
    whose document is [root]: the outcome, the projection and the document
    afterwards. *)
Definition UdfDictionary_call (nesting : option (list string)) (udt : Udt)
    (root : Element) : result unit * (UdfDictionary * Element) :=
  UdfDictionary___init__ nesting udt (UdfDictionary_blank, root).

End UdfDictionary.

(** *** [UdfDictionaryDescriptor] *)

Section UdfDictionaryDescriptor.

Variable lims : Lims.
Variable py_float : string -> option string.
Variable py_strpdate : string -> option string.

(** A call on a dictionary projection of [instance]: it acts on the
    projection and on the document of the instance. *)
Definition on_udf {A} (instance : addr) (m : U A) (d : UdfDictionary)
    : W (result A * UdfDictionary) :=
  x <- attrs_of instance ;;
  match root x with
  | None => raise TypeError
  | Some r =>
      let '(res, (d', r')) := m (d, r) in
      set_root instance (Some r') ;; ret (res, d')
  end.

(** [UdfDictionaryDescriptor.__get__(instance, cls)] *)
Definition UdfDictionaryDescriptor___get__ (nesting : option (list string)) (_UDT : bool)
    (instance : addr) : W UdfDictionary :=
  Entity_get lims instance false ;;
  '(res, d) <- on_udf instance
                 (UdfDictionary___init__ py_float py_strpdate nesting (UdtFlag _UDT))
                 UdfDictionary_blank ;;
  lift_result res ;;
  ret d.

(** [UdfDictionaryDescriptor.__set__(instance, dict_value)]; [dict_value]
    is given by its items, in the order of the [dict]. *)
Definition UdfDictionaryDescriptor___set__ (nesting : option (list string)) (_UDT : bool)
    (instance : addr) (dict_value : list (string * PyValue)) : W unit :=
  Entity_get lims instance false ;;
  '(res, _) <- on_udf instance
                 (UdfDictionary___init__ py_float py_strpdate nesting (UdtFlag _UDT) ;;
                  UdfDictionary_clear ;;
                  for_each dict_value (fun '(k, v) =>
                    UdfDictionary___setitem__ py_float py_strpdate k v))
                 UdfDictionary_blank ;;
  lift_result res.

End UdfDictionaryDescriptor.

(** ** List projections: [XmlList], [TagXmlList], [EntityList], [AttributeList]

    The state of a call on a list projection is the projection object and
    the world its instance lives in. *)

(** What a caller can hand to a list projection as an item. *)
Inductive ListItem : Type :=
  | LEntity (a : addr)                  (* an [Entity] *)
  | LDict (d : gmap string string)      (* a [dict] of attributes *)
  | LOther.                             (* anything else *)

(** An index: an [int] or a [slice]. *)
Inductive PyIndex : Type :=
  | IInt (i : Z)
  | ISlice (start stop : option Z).

Record XmlList : Type := mkXmlList {
  entries : list ListItem;      (* the entries of the [list] itself *)
  l_elems : list Ref;           (* [self._elems] *)
  l_instance : addr;            (* [self.instance] *)
  l_tag : string;               (* [self.tag] *)
  l_rootkeys : list string;     (* [self.rootkeys] *)
  l_klass : Class               (* [self.klass], for an [EntityList] *)
}.

Definition L (A : Type) : Type := M (XmlList * World) A.

Definition with_entries (f : list ListItem -> list ListItem) (l : XmlList) : XmlList :=
  mkXmlList (f (entries l)) (l_elems l) (l_instance l) (l_tag l) (l_rootkeys l) (l_klass l).
Definition with_l_elems (e : list Ref) (l : XmlList) : XmlList :=
  mkXmlList (entries l) e (l_instance l) (l_tag l) (l_rootkeys l) (l_klass l).

(** [seq[i]] positions: a negative index counts from the end. *)
Definition index_pos (i : Z) (len : nat) : option nat :=
  let j := if (i <? 0)%Z then (Z.of_nat len + i)%Z else i in
  if ((0 <=? j)%Z && (j <? Z.of_nat len)%Z) then Some (Z.to_nat j) else None.

Definition self_ : L XmlList := fun s => (Ok s.1, s).
Definition world {A} (m : W A) : L A := zoom snd (fun w s => (s.1, w)) m.
(** A computation on the document of [self.instance]. *)
Definition ldoc {A} (m : D A) : L A :=
  self <- self_ ;; world (on_root (l_instance self) m).

Definition list_append (item : ListItem) : L unit :=
  modify (fun s => (with_entries (fun l => l ++ [item]) s.1, s.2)).
Definition list_extend (other : list ListItem) : L unit :=
  modify (fun s => (with_entries (fun l => l ++ other) s.1, s.2)).
Definition list_insert (i : Z) (item : ListItem) : L unit :=
  modify (fun s => (with_entries (fun l =>
    let k := insert_pos i (length l) in take k l ++ item :: drop k l) s.1, s.2)).
Definition list___setitem__ (i : Z) (item : ListItem) : L unit :=
  self <- self_ ;;
  match index_pos i (length (entries self)) with
  | Some k => modify (fun s => (with_entries (fun l => <[k := item]> l) s.1, s.2))
  | None => raise IndexError
  end.

Section XmlList.

(** The methods a subclass provides or overrides. *)
Variable rootnode : L Ref.
Variable _update_elems : L unit.
Variable _parse_element : Ref -> L unit.
Variable _create_new_node : ListItem -> L Element.

Definition XmlList__prepare_list : L unit :=
  self <- self_ ;; for_each (l_elems self) _parse_element.

Definition XmlList___init__ : L unit :=
  modify (fun s => (with_entries (fun _ => []) s.1, s.2)) ;;   (* list.__init__(self) *)
  _update_elems ;;
  XmlList__prepare_list.

(** [for elem in elems: self.rootnode(self.instance).remove(elem)] *)
Fixpoint XmlList_remove_each (removed : list Ref) (elems : list Ref) : L unit :=
  match elems with
  | [] => ret tt
  | elem :: rest =>
      r <- rootnode ;;
      match current_ref removed elem with
      | Some e => ldoc (remove r e) ;; XmlList_remove_each (removed ++ [e]) rest
      | None => raise ValueError
      end
  end.

(** [dict.clear(self)] on an object that is a [list], not a [dict]:
    descriptor 'clear' for 'dict' objects doesn't apply. *)
Definition dict_clear_on_list : L unit := raise TypeError.

Definition XmlList_clear : L unit :=
  dict_clear_on_list ;;
  self <- self_ ;;
  XmlList_remove_each [] (l_elems self) ;;
  _update_elems.

Definition XmlList__additem (value : ListItem) : L unit :=
  node <- _create_new_node value ;;
  r <- rootnode ;;
  ldoc (mutate r (ElementTree.append node)).

Definition XmlList__insertitem (index : Z) (value : ListItem) : L unit :=
  node <- _create_new_node value ;;
  r <- rootnode ;;
  ldoc (mutate r (ElementTree.insert index node)).

Definition XmlList__delitem (index : Z) : L unit :=
  (* Remove the value in the xml and update the cached _elems *)
  r <- rootnode ;;
  self <- self_ ;;
  match index_pos index (length (l_elems self)) ≫= (fun k => l_elems self !! k) with
  | Some elem => ldoc (remove r elem)
  | None => raise IndexError
  end.

Definition XmlList__setitem (index : Z) (value : ListItem) : L unit :=
  node <- _create_new_node value ;;
  (* Remove the old value in the xml *)
  XmlList__delitem index ;;
  (* Insert it in place *)
  r <- rootnode ;;
  ldoc (mutate r (ElementTree.insert index node)).

(** [self + other_list]: the result is a new plain list. *)
Definition XmlList___add__ (other_list : list ListItem) : L (list ListItem) :=
  for_each other_list XmlList__additem ;;
  _update_elems ;;
  self <- self_ ;;
  ret (entries self ++ other_list).

(** [self += other_list] *)
Definition XmlList___iadd__ (other_list : list ListItem) : L unit :=
  for_each other_list XmlList__additem ;;
  _update_elems ;;
  list_extend other_list.

Definition XmlList___setitem__ (i : PyIndex) (item : ListItem) : L unit :=
  match i with
  | ISlice _ _ => raise TypeError      (* zip(i, item): a slice is not iterable *)
  | IInt i =>
      XmlList__setitem i item ;;
      _update_elems ;;
      list___setitem__ i item
  end.

Definition XmlList_insert (i : Z) (item : ListItem) : L unit :=
  XmlList__insertitem i item ;;
  _update_elems ;;
  list_insert i item.

Definition XmlList_append (item : ListItem) : L unit :=
  XmlList__additem item ;;
  _update_elems ;;
  list_append item.

Definition XmlList_extend (iterable : list ListItem) : L unit :=
  for_each iterable XmlList__additem ;;
  _update_elems ;;
  list_extend iterable.

End XmlList.

(** [Nestable.rootnode(self, self.instance)] for a list projection *)
Definition List_rootnode : L Ref :=
  self <- self_ ;; ldoc (Nestable_rootnode (l_rootkeys self)).

Definition TagXmlList__update_elems : L unit :=
  modify (fun s => (with_l_elems [] s.1, s.2)) ;;
  r <- List_rootnode ;;
  self <- self_ ;;
  l <- ldoc (get_sub_nodes r (l_tag self)) ;;
  modify (fun s => (with_l_elems l s.1, s.2)).

Definition AttributeList__create_new_node (value : ListItem) : L Element :=
  match value with
  | LDict d =>
      self <- self_ ;;
      ret (with_attrib d (Element_ (l_tag self)))
  | _ => raise TypeError
  end.

Definition AttributeList__parse_element (element : Ref) : L unit :=
  e <- ldoc (deref element) ;;
  list_append (LDict (attrib e)).

Section EntityList.

Variable lims : Lims.

Definition EntityList__create_new_node (value : ListItem) : L Element :=
  match value with
  | LEntity a =>
      self <- self_ ;;
      uri <- world (Entity_uri a) ;;
      match uri with
      | Some u => ret (ElementTree.set "uri" u (Element_ (l_tag self)))
      | None => raise Stuck       (* an attribute that is None is not modelled *)
      end
  | _ => raise TypeError
  end.

Definition EntityList__parse_element (element : Ref) : L unit :=
  self <- self_ ;;
  u <- ldoc (attrib_get element "uri") ;;
  a <- world (Entity_call lims (l_klass self) (Some u) None false) ;;
  list_append (LEntity a).

(** The methods of an [EntityList] *)
Definition EntityList_clear : L unit :=
  XmlList_clear List_rootnode TagXmlList__update_elems.
Definition EntityList_append : ListItem -> L unit :=
  XmlList_append List_rootnode TagXmlList__update_elems EntityList__create_new_node.
Definition EntityList_extend : list ListItem -> L unit :=
  XmlList_extend List_rootnode TagXmlList__update_elems EntityList__create_new_node.
Definition EntityList_insert : Z -> ListItem -> L unit :=
  XmlList_insert List_rootnode TagXmlList__update_elems EntityList__create_new_node.
Definition EntityList___setitem__ : PyIndex -> ListItem -> L unit :=
  XmlList___setitem__ List_rootnode TagXmlList__update_elems EntityList__create_new_node.
Definition EntityList___add__ : list ListItem -> L (list ListItem) :=
  XmlList___add__ List_rootnode TagXmlList__update_elems EntityList__create_new_node.
Definition EntityList___iadd__ : list ListItem -> L unit :=
  XmlList___iadd__ List_rootnode TagXmlList__update_elems EntityList__create_new_node.

(** [EntityList(instance, tag, klass, nesting)] *)
Definition EntityList___init__ (instance : addr) (tag : string) (klass : Class)
    (nesting : option (list string)) : W (result unit * XmlList) :=
  fun w =>
    let '(r, (self, w')) :=
      XmlList___init__ TagXmlList__update_elems EntityList__parse_element
        (mkXmlList [] [] instance tag (default [] nesting) klass, w) in
    (Ok (r, self), w').

End EntityList.

(** The methods of an [AttributeList] *)
Definition AttributeList_clear : L unit :=
  XmlList_clear List_rootnode TagXmlList__update_elems.
Definition AttributeList_append : ListItem -> L unit :=
  XmlList_append List_rootnode TagXmlList__update_elems AttributeList__create_new_node.
Definition AttributeList_extend : list ListItem -> L unit :=
  XmlList_extend List_rootnode TagXmlList__update_elems AttributeList__create_new_node.
Definition AttributeList_insert : Z -> ListItem -> L unit :=
  XmlList_insert List_rootnode TagXmlList__update_elems AttributeList__create_new_node.
Definition AttributeList___setitem__ : PyIndex -> ListItem -> L unit :=
  XmlList___setitem__ List_rootnode TagXmlList__update_elems AttributeList__create_new_node.
Definition AttributeList___iadd__ : list ListItem -> L unit :=
  XmlList___iadd__ List_rootnode TagXmlList__update_elems AttributeList__create_new_node.

(** [AttributeList(instance, tag, nesting)] *)
Definition AttributeList___init__ (instance : addr) (tag : string)
    (nesting : option (list string)) : W (result unit * XmlList) :=
  fun w =>
    let '(r, (self, w')) :=
      XmlList___init__ TagXmlList__update_elems AttributeList__parse_element
        (mkXmlList [] [] instance tag (default [] nesting) Entity, w) in
    (Ok (r, self), w').

Definition AttributeList___add__ : list ListItem -> L (list ListItem) :=
  XmlList___add__ List_rootnode TagXmlList__update_elems AttributeList__create_new_node.

(** * Vocabulary of the properties *)

(** An entity whose instance attributes are [x]. *)
Definition has_attrs (w : World) (self : addr) (x : Attrs) : Prop :=
  exists o, heap w !! self = Some o /\ o_attrs o = Some x.

(** Every cached address designates an object that [__init__] has set up.
    The empty world satisfies this, and constructions keep it. *)
Definition cache_wf (w : World) : Prop :=
  forall u a, cache w !! u = Some a -> exists x, has_attrs w a x.

(** The decimal digits, and the strings made of them. *)
Definition is_digit (c : ascii) : bool :=
  let n := nat_of_ascii c in (48 <=? n)%nat && (n <=? 57)%nat.

Fixpoint all_digits (s : string) : bool :=
  match s with
  | EmptyString => true
  | String c r => is_digit c && all_digits r
  end.

(** What [StringDescriptor.__set__] does to the document. *)
Definition set_text_doc (tag : option string) (x : PyText) (root : Element) : Element :=
  match tag_truthy tag with
  | None => with_text (Some x) root
  | Some t =>
      match head (positions (has_tag t) (children root) 0) with
      | Some i => with_children (alter (with_text (Some x)) i (children root)) root
      | None => with_children (children root ++ [with_text (Some x) (Element_ t)]) root
      end
  end.

(** The world after [instance.root] became [r]. *)
Definition world_with_root (w : World) (instance : addr) (r : Element) : World :=
  match heap w !! instance with
  | Some o =>
      with_heap (<[instance := mkObject (o_class o)
                     (Some (mkAttrs (from_option _uri None (o_attrs o)) (Some r)))]> (heap w)) w
  | None => w
  end.

(** The element a nesting path leads to, when every intermediate element
    exists: each key selects the first child with that tag. *)
Fixpoint resolve_path (keys : list string) (e : Element) : option Ref :=
  match keys with
  | [] => Some []
  | k :: ks =>
      match head (positions (has_tag k) (children e) 0) with
      | None => None
      | Some i =>
          match children e !! i with
          | Some c => (fun p => i :: p) <$> resolve_path ks c
          | None => None
          end
      end
  end.

(** The document with every missing intermediate element of the path
    created and appended, in path order. *)
Fixpoint ensure_path (keys : list string) (e : Element) : Element :=
  match keys with
  | [] => e
  | k :: ks =>
      match head (positions (has_tag k) (children e) 0) with
      | Some i => with_children (alter (ensure_path ks) i (children e)) e
      | None => with_children (children e ++ [ensure_path ks (Element_ k)]) e
      end
  end.

(** The position of the element the path leads to in [ensure_path keys e]. *)
Fixpoint nested_ref (keys : list string) (e : Element) : Ref :=
  match keys with
  | [] => []
  | k :: ks =>
      match head (positions (has_tag k) (children e) 0) with
      | Some i => i :: nested_ref ks (default (Element_ k) (children e !! i))
      | None => length (children e) :: nested_ref ks (Element_ k)
      end
  end.

(** The world [w0] with one more object: an instance of [cls] without
    URI whose document is [r]. *)
Definition with_unbound (w0 : World) (cls : Class) (r : Element) : World :=
  with_heap (heap w0 ++ [mkObject cls (Some (mkAttrs None (Some r)))]) w0.

(** A computation that hands nothing to [logger.error]. *)
Definition keeps_log {A} (m : W A) : Prop :=
  forall w, error_log (m w).2 = error_log w.

(** [[io[0]['limsid'] for io in maps]] as a function of [maps] *)
Fixpoint limsids (maps : list (option (gmap string IOValue) * option (gmap string IOValue)))
    : result (list IOValue) :=
  match maps with
  | [] => Ok []
  | io :: rest =>
      match io.1 with
      | None => Raise TypeError
      | Some d =>
          match d !! "limsid" with
          | None => Raise KeyError
          | Some v =>
              match limsids rest with
              | Ok l => Ok (v :: l)
              | Raise e => Raise e
              end
          end
      end
  end.

(** The field elements that back a dictionary in the document: the
    children with the field tag of the nested root node, or of its UDT
    wrapper. *)
Definition backing_fields (d : UdfDictionary) (root : Element) : list Element :=
  match resolve_path (rootkeys (fields d)) root ≫= (fun p => node_at p root) with
  | None => []
  | Some n =>
      let container :=
        if udt_truthy (_udt (fields d)) then
          head (filter (fun c => has_tag udf_type_tag c = true) (children n))
        else Some n in
      match container with
      | Some c => filter (fun f => has_tag udf_field_tag f = true) (children c)
      | None => []
      end
  end.

(** The names of the backing field elements. *)
Definition backing_names (d : UdfDictionary) (root : Element) : list (option string) :=
  (fun f => attrib f !! "name") <$> backing_fields d root.

(** A dictionary declared without UDT support mirrors its document: the
    nested root node exists, the cached elements are its field elements as a
    scan finds them now, and the keys of the mapping are the names of these
    elements, which are pairwise distinct. *)
Definition udf_in_sync (d : UdfDictionary) (root : Element) : Prop :=
  _udt (fields d) = UdtFlag false /\
  exists p n names,
    resolve_path (rootkeys (fields d)) root = Some p /\
    node_at p root = Some n /\
    _elems d = (fun i => p ++ [i]) <$> positions (has_tag udf_field_tag) (children n) 0 /\
    (fun f => attrib f !! "name")
      <$> filter (fun f => has_tag udf_field_tag f = true) (children n) = Some <$> names /\
    NoDup names /\
    dom (items d) = list_to_set names.

(** The set-item operations of a script, in order. *)
Definition set_items_script (py_float py_strpdate : string -> option string)
    (ops : list (string * PyValue)) : U unit :=
  for_each ops (fun '(key, value) =>
    UdfDictionary___setitem__ py_float py_strpdate key value).

(** ** Attribute lists *)

(** The element [AttributeList._create_new_node] makes for a dict. *)
Definition attribute_node (tag : string) (d : gmap string string) : Element :=
  with_attrib d (Element_ tag).

(** The nested root node of the list exists in the document of its
    (fetched) instance: [r] is the document, [p] the position of the node
    and [n] the node. *)
Definition list_rooted (l : XmlList) (w : World) (r : Element) (p : Ref) (n : Element)
    : Prop :=
  (exists x, has_attrs w (l_instance l) x /\ root x = Some r) /\
  resolve_path (l_rootkeys l) r = Some p /\
  node_at p r = Some n.

(** An attribute list mirrors its document: the cached elements are the
    tagged children of the nested root node as a scan finds them now, and the
    entries are the attributes of these children, in document order. *)
Definition attribute_list_in_sync (l : XmlList) (w : World) : Prop :=
  exists r p n,
    list_rooted l w r p n /\
    l_elems l = (fun i => p ++ [i]) <$> positions (has_tag (l_tag l)) (children n) 0 /\
    entries l = (fun e => LDict (attrib e))
                  <$> filter (fun e => has_tag (l_tag l) e = true) (children n).

(** Every child of the nested root node of the list has the tag of the
    list. *)
Definition only_tagged_children (l : XmlList) (w : World) : Prop :=
  forall r p n, list_rooted l w r p n ->
    Forall (fun e => has_tag (l_tag l) e = true) (children n).

(** ** Scalar and entity descriptors *)

(** What [StringDescriptor.__get__] reads in the document. *)
Definition get_text_doc (tag : option string) (root : Element) : option PyText :=
  match tag_truthy tag with
  | None => text root
  | Some t =>
      match head (positions (has_tag t) (children root) 0) with
      | Some i => children root !! i ≫= text
      | None => None
      end
  end.

(** What [EntityDescriptor.__set__] does to the document: the first [tag]
    child, made if absent, gets [f] applied. *)
Definition alter_child_doc (tag : string) (f : Element -> Element) (root : Element)
    : Element :=
  match head (positions (has_tag tag) (children root) 0) with
  | Some i => with_children (alter f i (children root)) root
  | None => with_children (children root ++ [f (Element_ tag)]) root
  end.

(** ** UDF dictionaries: what the fields of the document hold *)

(** The value [_parse_element] reads from a field element, when it reads
    one. *)
Definition field_value (py_float py_strpdate : string -> option string) (f : Element)
    : option PyValue :=
  match attrib f !! "type" with
  | Some ty =>
      match parse_value py_float py_strpdate (PyStr.lower ty) (text f) with
      | Ok v => Some v
      | Raise _ => None
      end
  | None => None
  end.

(** The mapping after [_parse_element] has entered the field [f]. *)
Definition enter_field (py_float py_strpdate : string -> option string)
    (m : gmap string PyValue) (f : Element) : gmap string PyValue :=
  match attrib f !! "name", field_value py_float py_strpdate f with
  | Some name, Some v => <[name := v]> m
  | _, _ => m
  end.

(** Every field element of the dictionary can be read: it has a name and a
    type, and its text suits its type. *)
Definition udf_parseable (py_float py_strpdate : string -> option string)
    (d : UdfDictionary) (root : Element) : Prop :=
  Forall (fun f => is_Some (attrib f !! "name") /\
                   is_Some (field_value py_float py_strpdate f))
    (backing_fields d root).

(** The field element [_setitem] makes for a new key. *)
Definition new_field (vtype key : string) (v : PyValue) : Element :=
  with_text (Some (encode_text v))
    (with_attrib (list_to_map [("type", vtype); ("name", key)]) (Element_ udf_field_tag)).

(** A value [_setitem] can give to a new key and that reads back from its
    text: a [str], a [bool] or an [int]. *)
Definition simple_value (value : PyValue) : Prop :=
  match value with
  | VInt _ | VBool _ | VStr _ => True
  | _ => False
  end.

(** What such a value reads back as: itself, but [None] for the empty
    string. *)
Definition stored_value (value : PyValue) : PyValue :=
  if decide (value = VStr EmptyString) then VNone else value.

(** The field element [_setitem] makes for an item of a [dict]. *)
Definition field_of (item : string * PyValue) : Element :=
  match infer_type item.2 with
  | Ok (vtype, v) => new_field vtype item.1 v
  | Raise _ => Element_ udf_field_tag
  end.

(** [[io[1]['limsid'] for io in maps if io[1] is not None]] as a function
    of [maps] *)
Fixpoint output_limsids
    (maps : list (option (gmap string IOValue) * option (gmap string IOValue)))
    : result (list IOValue) :=
  match maps with
  | [] => Ok []
  | io :: rest =>
      match io.2 with
      | None => output_limsids rest
      | Some d =>
          match d !! "limsid" with
          | None => Raise KeyError
          | Some v =>
              match output_limsids rest with
              | Ok l => Ok (v :: l)
              | Raise e => Raise e
              end
          end
      end
  end.

(** ** Entity lists *)

(** The world [w'] has what [w] has: the same requests, the objects of [w]
    with their attributes, and the entries of its cache. *)
Definition world_extends (w w' : World) : Prop :=
  requests w' = requests w /\
  (forall a x, has_attrs w a x -> has_attrs w' a x) /\
  (forall u a, cache w !! u = Some a -> cache w' !! u = Some a).

(** The entry [item] of an entity list is the entity the element [e]
    refers to: the instance cached under the [uri] attribute of [e]. *)
Definition refers_to (w : World) (item : ListItem) (e : Element) : Prop :=
  exists a u x,
    item = LEntity a /\ attrib e !! "uri" = Some u /\ u <> EmptyString /\
    cache w !! u = Some a /\ has_attrs w a x.

(** An entity list mirrors its document: the cached elements are the
    tagged children of the nested root node as a scan finds them now, and the
    entries are the entities these children refer to, in document order. *)
Definition entity_list_in_sync (l : XmlList) (w : World) : Prop :=
  exists r p n,
    list_rooted l w r p n /\
    l_elems l = (fun i => p ++ [i]) <$> positions (has_tag (l_tag l)) (children n) 0 /\
    Forall2 (refers_to w) (entries l)
      (filter (fun e => has_tag (l_tag l) e = true) (children n)).

(** ** [Sample.create] *)

(** The [location] element [Sample.create] adds to the document it posts. *)
Definition location_element (container_uri position : string) : Element :=
  mkElement "location" ∅ None
    [ mkElement "container" (list_to_map [("uri", container_uri)]) None [];
      mkElement "value" ∅ (Some (TStr position)) [] ].

(** * Concrete inputs

    A [Lims] whose server answers as the mocks of the tests do, and the
    documents of [tests/test_descriptors.py]. *)

(** The document of the end-to-end scenario, with [txt] in [count]. *)
Definition test_entry_count (txt : string) : Element :=
  mkElement "test-entry" ∅ None [mkElement "count" ∅ (Some (TStr txt)) []].

(** [lims.get_uri]: the segments joined to the base URI; a segment that
    is [None] cannot be joined. *)
Definition mock_base : string := "http://testgenologics.com:4040/api/v2".

Definition mock_get_uri (segments : list (option string)) : result string :=
  fold_left (fun acc seg =>
      match acc, seg with
      | Ok s, Some x => Ok (s +:+ "/" +:+ x)
      | Ok _, None => Raise TypeError
      | Raise e, _ => Raise e
      end) segments (Ok mock_base).

(** The response to a POST: a new artifact with its URI. *)
Definition posted_artifact : Element :=
  mkElement "{http://pyclarity_lims.com/ri/artifact}artifact"
    {[ "uri" := "http://testgenologics.com:4040/api/v2/artifacts/a1" ]} None [].

(** Every GET answers the document of the scenario, every POST the new
    artifact; batches are returned as they are. *)
Definition mock_lims : Lims :=
  mkLims mock_get_uri
    (fun _ _ => Ok (test_entry_count "32"))
    (fun _ _ _ => Ok posted_artifact)
    (fun _ => EmptyString)
    (fun instances w => (Ok instances, w)).

(** No object, an empty cache, no request sent, nothing logged. *)
Definition empty_world : World := mkWorld [] ∅ [] [].

(** The URI of the artifact [a1]. *)
Definition artifact_a1_uri : string :=
  "http://testgenologics.com:4040/api/v2/artifacts/a1".

(** The world after [Artifact(lims, id='a1')]. *)
Definition world_a1 : World :=
  (Entity_call mock_lims Artifact None (Some "a1") false empty_world).2.

(** The world after the artifact [a1] has been fetched: its document
    is the one of the scenario, [count] holding "32". *)
Definition world_fetched : World := (Entity_get mock_lims 0 false world_a1).2.

(** The process [p1] and the tag of a process document. *)
Definition process_p1_uri : string :=
  "http://testgenologics.com:4040/api/v2/processes/p1".

Definition process_tag : string := "{http://pyclarity_lims.com/ri/process}process".

(** A world with one fetched process whose document is [root]. *)
Definition world_process (root : Element) : World :=
  mkWorld [mkObject Process (Some (mkAttrs (Some process_p1_uri) (Some root)))]
    {[ process_p1_uri := 0 ]} [] [].

(** A process without any [input-output-map]. *)
Definition process_without_maps : Element := mkElement process_tag ∅ None [].

(** A process with an [input] that has no limsid, then an entry without
    [input]. *)
Definition process_without_limsid : Element :=
  mkElement process_tag ∅ None
    [ mkElement "input-output-map" ∅ None
        [mkElement "input" {[ "uri" := artifact_a1_uri ]} None []];
      mkElement "input-output-map" ∅ None [] ].

(** A process whose only entry has no [input]. *)
Definition process_without_input : Element :=
  mkElement process_tag ∅ None [mkElement "input-output-map" ∅ None []].

(** What [input_output_maps] holds for an entry without input nor output. *)
Definition entry_without_input
    : option (gmap string IOValue) * option (gmap string IOValue) := (None, None).

(** A runtime in which [float()] and [strptime()] accept no text: enough
    for documents whose numeric fields hold integers and that have no date
    field. *)
Definition no_float : string -> option string := fun _ => None.
Definition no_date : string -> option string := fun _ => None.

(** A [udf:field] element. *)
Definition udf_field (type name value : string) : Element :=
  mkElement udf_field_tag (list_to_map [("type", type); ("name", name)])
    (Some (TStr value)) [].

(** The document of [TestUdfDictionary]. *)
Definition udf_document : Element :=
  mkElement "test-entry" ∅ None
    [ udf_field "String" "test" "stuff";
      udf_field "Numeric" "how much" "42";
      udf_field "Boolean" "really?" "true" ].

(** The dictionary [UdfDictionary(instance)] over the document of the
    tests, with the document. *)
Definition udf_dictionary : UdfDictionary * Element :=
  (UdfDictionary_call no_float no_date None (UdtFlag false) udf_document).2.

(** [d['test'] = 'other'; d['how much'] = 43; d['count'] = 3; d['test'] = 'again'] *)
Definition udf_script : list (string * PyValue) :=
  [ ("test", VStr "other"); ("how much", VInt 43); ("count", VInt 3);
    ("test", VStr "again") ].

(** [class StepActions(Entity)], whose [next_actions] is
    [AttributeListDescriptor(tag='next-action', nesting=['next-actions'])]. *)
Definition StepActions : Class := mkClass "StepActions" None None None None None [].

Definition actions_uri : string :=
  "http://testgenologics.com:4040/api/v2/steps/24-1/actions".

(** The attributes of a [next-action] element. *)
Definition next_action (artifact action : string) : gmap string string :=
  list_to_map [("artifact-uri", artifact); ("action", action)].

(** The [next-actions] element of a step with one artifact. *)
Definition next_actions_node : Element :=
  mkElement "next-actions" ∅ None
    [attribute_node "next-action" (next_action artifact_a1_uri "nextstep")].

(** The actions of a step: its configuration, then its next actions. *)
Definition actions_document : Element :=
  mkElement "{http://pyclarity_lims.com/ri/step}actions" {[ "uri" := actions_uri ]} None
    [ mkElement "configuration" ∅ (Some (TStr "Step 1")) []; next_actions_node ].

(** A world with the fetched actions of the step. *)
Definition world_actions : World :=
  mkWorld [mkObject StepActions (Some (mkAttrs (Some actions_uri) (Some actions_document)))]
    {[ actions_uri := 0 ]} [] [].

(** [actions.next_actions] as [AttributeListDescriptor.__get__] builds it. *)
Definition next_actions : XmlList :=
  mkXmlList [LDict (next_action artifact_a1_uri "nextstep")] [[1; 0]] 0 "next-action"
    ["next-actions"] Entity.

(** [class Note(Entity)] and [class Sample(Entity)] with their scalar
    descriptors; [Sample.notes] is
    [EntityListDescriptor(tag='note', klass=Note)]. *)
Definition Note : Class :=
  mkClass "Note" None None None None None [("content", StringDescriptor None)].

Definition Sample : Class :=
  mkClass "Sample" None (Some "samples") (Some "smp") None (Some "samplecreation")
    [ ("name", StringDescriptor (Some "name"));
      ("date_received", StringDescriptor (Some "date-received"));
      ("date_completed", StringDescriptor (Some "date-completed")) ].

Definition sample_s1_uri : string := "http://testgenologics.com:4040/api/v2/samples/s1".

Definition note_uri (n : string) : string := sample_s1_uri +:+ "/notes/" +:+ n.

(** A sample with its name and one note. *)
Definition sample_document : Element :=
  mkElement "{http://pyclarity_lims.com/ri/sample}sample" {[ "uri" := sample_s1_uri ]} None
    [ mkElement "name" ∅ (Some (TStr "s1")) [];
      mkElement "note" {[ "uri" := note_uri "n1" ]} None [] ].

(** A world with the fetched sample. *)
Definition world_sample : World :=
  mkWorld [mkObject Sample (Some (mkAttrs (Some sample_s1_uri) (Some sample_document)))]
    {[ sample_s1_uri := 0 ]} [] [].

(** A world with one fetched artifact whose document is [root]. *)
Definition world_entry (root : Element) : World :=
  mkWorld [mkObject Artifact (Some (mkAttrs (Some artifact_a1_uri) (Some root)))]
    {[ artifact_a1_uri := 0 ]} [] [].

(** The document of [TestStringDictionaryDescriptor]. *)
Definition dictionary_document : Element :=
  mkElement "test-entry" ∅ None
    [ mkElement "test-subentry" ∅ None
        [ mkElement "test-firstkey" ∅ None [];
          mkElement "test-secondkey" ∅ (Some (TStr "second value")) [] ] ].

(** An artifact document with two reagent labels and an external id. *)
Definition labelled_document : Element :=
  mkElement "test-entry" ∅ None
    [ mkElement "reagent-label" {[ "name" := "label name" ]} None [];
      mkElement "{http://pyclarity_lims.com/ri}externalid"
        (list_to_map [("id", "1");
                      ("uri", "http://testgenologics.com:4040/api/v2/external/1")])
        None [];
      mkElement "reagent-label" {[ "name" := "other label" ]} None [] ].

(** A world with the fetched artifact [a1] and the process [p1], not yet
    fetched. *)
Definition world_artifact_process : World :=
  mkWorld [ mkObject Artifact
              (Some (mkAttrs (Some artifact_a1_uri) (Some (test_entry_count "32"))));
            mkObject Process (Some (mkAttrs (Some process_p1_uri) None)) ]
    (<[ process_p1_uri := 1 ]> {[ artifact_a1_uri := 0 ]}) [] [].

(** The document of the tests with its fields in a UDT. *)
Definition udt_document : Element :=
  mkElement "test-entry" ∅ None
    [ mkElement udf_type_tag {[ "name" := "test-udt" ]} None
        [ udf_field "String" "test" "stuff" ] ].

(** [UdfDictionary(instance, udt=True)] over that document, with the
    document. *)
Definition udt_dictionary : UdfDictionary * Element :=
  (UdfDictionary_call no_float no_date None (UdtFlag true) udt_document).2.

(** The actions of a step with two artifacts' worth of next actions, and
    [actions.next_actions] over them. *)
Definition two_actions_node : Element :=
  mkElement "next-actions" ∅ None
    [ attribute_node "next-action" (next_action artifact_a1_uri "nextstep");
      attribute_node "next-action" (next_action artifact_a1_uri "complete") ].

Definition two_actions_document : Element :=
  mkElement "{http://pyclarity_lims.com/ri/step}actions" {[ "uri" := actions_uri ]} None
    [ mkElement "configuration" ∅ (Some (TStr "Step 1")) []; two_actions_node ].

Definition world_two_actions : World :=
  mkWorld [mkObject StepActions (Some (mkAttrs (Some actions_uri) (Some two_actions_document)))]
    {[ actions_uri := 0 ]} [] [].

Definition two_next_actions : XmlList :=
  mkXmlList [ LDict (next_action artifact_a1_uri "nextstep");
              LDict (next_action artifact_a1_uri "complete") ]
    [[1; 0]; [1; 1]] 0 "next-action" ["next-actions"] Entity.

(** The notes of the sample as [EntityListDescriptor.__get__] builds them,
    and the world it leaves: the note [n1] is object 1. *)
Definition sample_notes : XmlList :=
  match (EntityList___init__ mock_lims 0 "note" Note None world_sample).1 with
  | Ok (_, l) => l
  | Raise _ => mkXmlList [] [] 0 "note" [] Note
  end.

Definition world_notes : World :=
  (EntityList___init__ mock_lims 0 "note" Note None world_sample).2.

(** A process with one entry that has an output, between two that have
    none. *)
Definition process_with_output : Element :=
  mkElement process_tag ∅ None
    [ mkElement "input-output-map" ∅ None [];
      mkElement "input-output-map" ∅ None
        [ mkElement "input" (list_to_map [("uri", artifact_a1_uri); ("limsid", "a1")]) None [];
          mkElement "output"
            (list_to_map [("uri", "http://testgenologics.com:4040/api/v2/artifacts/a2");
                          ("limsid", "a2"); ("output-type", "Analyte")]) None [] ];
      mkElement "input-output-map" ∅ None [] ].

(** What [process.input_output_maps] holds for that process, and the world
    reading it leaves. *)
Definition process_maps
    : list (option (gmap string IOValue) * option (gmap string IOValue)) :=
  match (InputOutputMapList___get__ mock_lims [] 0 (world_process process_with_output)).1 with
  | Ok maps => maps
  | Raise _ => []
  end.

Definition world_process_maps : World :=
  (InputOutputMapList___get__ mock_lims [] 0 (world_process process_with_output)).2.

(** The world after [Note(lims, uri=n2)] in that world: the note [n2] is
    object 2. *)
Definition world_two_notes : World :=
  (Entity_call mock_lims Note (Some (note_uri "n2")) None false world_notes).2.

(** A world with the container [c1], known by its URI. *)
Definition container_c1_uri : string :=
  "http://testgenologics.com:4040/api/v2/containers/c1".

Definition world_container : World :=
  mkWorld [mkObject Container (Some (mkAttrs (Some container_c1_uri) None))]
    {[ container_c1_uri := 0 ]} [] [].

(** * Properties *)

(** ** Dictionary projections: deleting an item *)

(** C4.  [del d[key]] on any dictionary projection.  For a key that is
    present the entry leaves the mapping, then the call raises
    [AttributeError] (the missing method [_del_item]) and the document keeps
    the backing element; for a key that is absent the call raises
    [KeyError] and changes nothing. *)
Theorem XmlDictionary_delitem_outcome :
  forall (V X : Type) (rootnode : @P V X Ref) (key : string)
         (d : XmlDictionary V X) (root : Element),
    XmlDictionary___delitem__ rootnode key (d, root) =
      match items d !! key with
      | Some _ =>
          (Raise AttributeError,
           (mkXmlDictionary (delete key (items d)) (_elems d) (fields d), root))
      | None => (Raise KeyError, (d, root))
      end.
Proof.
  intros V X rootnode key d root.
  unfold XmlDictionary___delitem__, bind, dict___delitem__. simpl.
  destruct (items d !! key) as [v|] eqn:Hk; reflexivity.
Qed.

(** ** List projections: [clear] *)

(** C7.  [clear()] on an entity list or an attribute list, in any state:
    the call raises [TypeError] at [dict.clear(self)] and leaves the list,
    its cached elements and the document as they were. *)
Theorem list_clear_raises :
  forall (s : XmlList * World),
    EntityList_clear s = (Raise TypeError, s) /\
    AttributeList_clear s = (Raise TypeError, s).
Proof.
  intros s. split; reflexivity.
Qed.

(** ** The type name of a UDF dictionary *)

(** C5 as stated fails: a dictionary declared without UDT support reads
    its type name as [False], which is not [None]. *)
Lemma get_udt_without_udt_is_not_None :
  UdfDictionary_get_udt (mkXmlDictionary ∅ [] (mkUdfFields [] (UdtFlag false))) <> VNone.
Proof. discriminate. Qed.

(** C5, amended.  For a dictionary declared without UDT support
    ([_udt] is [False]), reading the type name returns [False], and
    assigning a type name raises [AttributeError] and leaves the dictionary
    and the document unchanged. *)
Theorem udt_unsupported :
  forall (entries : gmap string PyValue) (elems : list Ref) (keys : list string)
         (name : string) (root : Element),
    let d := mkXmlDictionary entries elems (mkUdfFields keys (UdtFlag false)) in
    UdfDictionary_get_udt d = VBool false /\
    UdfDictionary_set_udt (VStr name) (d, root) = (Raise AttributeError, (d, root)).
Proof.
  intros entries elems keys name root d. split; reflexivity.
Qed.

(** ** [Entity.get] *)

Section GetProperties.

Variable lims : Lims.

Lemma attrs_of_has_attrs w self x :
  has_attrs w self x -> attrs_of self w = (Ok x, w).
Proof.
  intros (o & Ho & Hx). unfold attrs_of, bind, object_at.
  rewrite Ho, Hx. reflexivity.
Qed.

Lemma Entity_uri_has_attrs w self x :
  has_attrs w self x -> Entity_uri self w = (Ok (_uri x), w).
Proof.
  intros (o & Ho & Hx). unfold Entity_uri, bind, object_at.
  rewrite Ho, Hx. reflexivity.
Qed.

(** With the root loaded and no [force], [get] returns at once. *)
Lemma Entity_get_fetched w self x r :
  has_attrs w self x -> root x = Some r ->
  Entity_get lims self false w = (Ok tt, w).
Proof.
  intros H Hr. unfold Entity_get, bind.
  rewrite (attrs_of_has_attrs _ _ _ H), Hr. reflexivity.
Qed.

(** The first [get] of an unfetched entity: one request, and the root is
    the response. *)
Lemma Entity_get_unfetched w self o x :
  heap w !! self = Some o -> o_attrs o = Some x -> root x = None ->
  Entity_get lims self false w =
    match lims_get lims (requests w) (_uri x) with
    | Ok r =>
        (Ok tt,
         with_heap (<[self := mkObject (o_class o) (Some (mkAttrs (_uri x) (Some r)))]>
                      (heap w))
           (with_requests (requests w ++ [GET (_uri x)]) w))
    | Raise e => (Raise e, with_requests (requests w ++ [GET (_uri x)]) w)
    end.
Proof.
  intros Ho Hx Hr. unfold Entity_get, bind.
  rewrite (attrs_of_has_attrs w self x) by (exists o; auto).
  rewrite Hr. simpl.
  rewrite (Entity_uri_has_attrs w self x) by (exists o; auto).
  unfold transport_get, bind, get_state, modify, lift_result. simpl.
  destruct (lims_get lims (requests w) (_uri x)) as [r|e]; [|reflexivity].
  unfold set_root, bind, object_at, modify. simpl.
  rewrite Ho, Hx. reflexivity.
Qed.

(** C2.  With the document root loaded, [get()] without [force] makes no
    request and leaves the world (the root included) as it is; and two
    consecutive [get()] on an unfetched entity make exactly one request and
    end as the first one alone does. *)
Theorem get_is_idempotent :
  forall (w : World) (self : addr) (x : Attrs),
    has_attrs w self x ->
    (forall r, root x = Some r -> Entity_get lims self false w = (Ok tt, w)) /\
    (root x = None ->
     let once := Entity_get lims self false w in
     let twice := (Entity_get lims self false ;; Entity_get lims self false) w in
     twice = once /\
     requests twice.2 = requests w ++ [GET (_uri x)]).
Proof.
  intros w self x H. split.
  - intros r Hr. eapply Entity_get_fetched; eauto.
  - intros Hr. cbv zeta.
    destruct H as (o & Ho & Hx).
    pose proof (Entity_get_unfetched w self o x Ho Hx Hr) as E1.
    assert (E : (Entity_get lims self false ;; Entity_get lims self false) w
                = Entity_get lims self false w).
    { unfold bind at 1. rewrite E1.
      destruct (lims_get lims (requests w) (_uri x)) as [r|e]; [|reflexivity].
      eapply Entity_get_fetched with (x := mkAttrs (_uri x) (Some r)) (r := r);
        [|reflexivity].
      exists (mkObject (o_class o) (Some (mkAttrs (_uri x) (Some r)))).
      split; [|reflexivity]. simpl.
      apply list_lookup_insert_eq. eapply lookup_lt_Some; eauto. }
    rewrite E, E1. split; [reflexivity|].
    destruct (lims_get lims (requests w) (_uri x)); reflexivity.
Qed.

End GetProperties.

(** ** The identity cache *)

Section IdentityProperties.

Variable lims : Lims.

Lemma has_attrs_lt w a x : has_attrs w a x -> a < length (heap w).
Proof. intros (o & Ho & _). eapply lookup_lt_Some; eauto. Qed.

Lemma truthy_Some u : u <> EmptyString -> truthy (Some u) = true.
Proof. destruct u; [congruence | reflexivity]. Qed.

(** A construction by a URI that the cache holds returns the cached
    object and changes nothing. *)
Lemma Entity_call_cached w cls u a x :
  u <> EmptyString -> cache w !! u = Some a -> has_attrs w a x ->
  Entity_call lims cls (Some u) None false w = (Ok a, w).
Proof.
  intros Hu Hc (o & Ho & Hx).
  unfold Entity_call, Entity___new__, bind.
  rewrite (truthy_Some u Hu). simpl. rewrite Hc.
  unfold ret at 1. unfold object_at at 1. rewrite Ho.
  destruct (isinstance o cls); [|reflexivity].
  unfold Entity___init__, bind. rewrite (truthy_Some u Hu). simpl.
  unfold object_at. rewrite Ho, Hx. reflexivity.
Qed.

(** The same, for a construction by an id that resolves to the URI. *)
Lemma Entity_call_cached_by_id w cls id u a x :
  truthy id = true -> get_uri lims [c_URI cls; id] = Ok u ->
  cache w !! u = Some a -> has_attrs w a x ->
  Entity_call lims cls None id false w = (Ok a, w).
Proof.
  intros Hid Hres Hc (o & Ho & Hx).
  unfold Entity_call, Entity___new__, bind. simpl.
  rewrite Hid. unfold lift_result. rewrite Hres. simpl. rewrite Hc.
  unfold ret at 1. unfold object_at at 1. rewrite Ho.
  destruct (isinstance o cls); [|reflexivity].
  unfold Entity___init__, bind. rewrite Hid. simpl.
  unfold object_at. rewrite Ho, Hx. reflexivity.
Qed.

(** A construction by a URI that the cache does not hold makes a new
    object and caches it. *)
Lemma Entity_call_fresh w cls u :
  u <> EmptyString -> cache w !! u = None ->
  Entity_call lims cls (Some u) None false w =
    (Ok (length (heap w)),
     with_heap (heap w ++ [mkObject cls (Some (mkAttrs (Some u) None))])
       (with_cache (<[u := length (heap w)]> (cache w)) w)).
Proof.
  intros Hu Hc.
  unfold Entity_call, Entity___new__, bind.
  rewrite (truthy_Some u Hu). simpl. rewrite Hc.
  unfold object_new, object_at. simpl.
  rewrite lookup_app_r by lia. rewrite Nat.sub_diag. simpl.
  unfold isinstance. simpl. rewrite bool_decide_eq_true_2 by reflexivity. simpl.
  unfold Entity___init__, bind. rewrite (truthy_Some u Hu). simpl.
  unfold object_at. simpl.
  rewrite lookup_app_r by lia. rewrite Nat.sub_diag. simpl.
  unfold set_attrs, bind, object_at, modify. simpl.
  rewrite lookup_app_r by lia. rewrite Nat.sub_diag. simpl.
  unfold with_heap, with_cache. simpl. repeat f_equal.
  rewrite insert_app_r_alt by lia. rewrite Nat.sub_diag. reflexivity.
Qed.

Lemma has_attrs_app w o a x :
  has_attrs w a x -> has_attrs (with_heap (heap w ++ [o]) w) a x.
Proof.
  intros (o' & Ho & Hx). exists o'. split; [|exact Hx]. simpl.
  apply lookup_app_l_Some. exact Ho.
Qed.

(** [self.root = r] on an object that has its attributes. *)
Lemma set_root_has_attrs w a o x r :
  heap w !! a = Some o -> o_attrs o = Some x ->
  set_root a r w =
    (Ok tt, with_heap (<[a := mkObject (o_class o) (Some (mkAttrs (_uri x) r))]> (heap w)) w).
Proof.
  intros Ho Hx. unfold set_root, bind, object_at, modify. rewrite Ho, Hx. reflexivity.
Qed.

(** C1.  Against a cache in good order, constructing an entity by a
    (non-empty) URI succeeds; constructing it again by the same URI, or by an
    id that resolves to that URI, returns the very same object and changes
    nothing; and a mutation made through the first handle (here: a new
    document root) is what the second handle reads. *)
Theorem same_uri_same_instance :
  forall (w : World) (cls : Class) (u : string),
    cache_wf w -> u <> EmptyString ->
    exists a w1,
      Entity_call lims cls (Some u) None false w = (Ok a, w1) /\
      cache_wf w1 /\
      Entity_call lims cls (Some u) None false w1 = (Ok a, w1) /\
      (forall id, truthy id = true -> get_uri lims [c_URI cls; id] = Ok u ->
         Entity_call lims cls None id false w1 = (Ok a, w1)) /\
      (forall r : Element,
         let w2 := (set_root a (Some r) w1).2 in
         exists b x,
           Entity_call lims cls (Some u) None false w2 = (Ok b, w2) /\
           b = a /\ has_attrs w2 b x /\ root x = Some r).
Proof.
  intros w cls u Hwf Hu.
  assert (Hgoal : forall a w1 x,
            Entity_call lims cls (Some u) None false w = (Ok a, w1) ->
            cache_wf w1 -> cache w1 !! u = Some a -> has_attrs w1 a x ->
            exists a w1,
              Entity_call lims cls (Some u) None false w = (Ok a, w1) /\
              cache_wf w1 /\
              Entity_call lims cls (Some u) None false w1 = (Ok a, w1) /\
              (forall id, truthy id = true -> get_uri lims [c_URI cls; id] = Ok u ->
                 Entity_call lims cls None id false w1 = (Ok a, w1)) /\
              (forall r : Element,
                 let w2 := (set_root a (Some r) w1).2 in
                 exists b x,
                   Entity_call lims cls (Some u) None false w2 = (Ok b, w2) /\
                   b = a /\ has_attrs w2 b x /\ root x = Some r)).
  { intros a w1 x Hcall Hwf1 Hc Hx.
    exists a, w1. split; [exact Hcall|]. split; [exact Hwf1|].
    split; [eapply Entity_call_cached; eauto|].
    split; [intros id Hid Hres; eapply Entity_call_cached_by_id; eauto|].
    intros r w2. subst w2.
    destruct Hx as (o & Ho & Hox).
    rewrite (set_root_has_attrs w1 a o x (Some r) Ho Hox). simpl.
    assert (Hx2 : has_attrs
              (with_heap (<[a := mkObject (o_class o) (Some (mkAttrs (_uri x) (Some r)))]>
                            (heap w1)) w1) a (mkAttrs (_uri x) (Some r))).
    { eexists. split; [simpl; apply list_lookup_insert_eq; eapply lookup_lt_Some; eauto
                      |reflexivity]. }
    exists a, (mkAttrs (_uri x) (Some r)).
    split; [|split; [reflexivity|split; [exact Hx2|reflexivity]]].
    eapply Entity_call_cached; eauto. }
  destruct (cache w !! u) as [a|] eqn:Hc.
  - destruct (Hwf u a Hc) as (x & Hx).
    eapply (Hgoal a w x); eauto.
    eapply Entity_call_cached; eauto.
  - eapply (Hgoal (length (heap w)) _ (mkAttrs (Some u) None)).
    + apply Entity_call_fresh; auto.
    + intros u' a'. simpl. intros Hl.
      destruct (decide (u = u')) as [->|Hne].
      * rewrite lookup_insert_eq in Hl. inversion Hl; subst a'.
        exists (mkAttrs (Some u') None). eexists.
        split; [simpl; rewrite lookup_app_r by lia; rewrite Nat.sub_diag; reflexivity
               |reflexivity].
      * rewrite lookup_insert_ne in Hl by exact Hne.
        destruct (Hwf u' a' Hl) as (x' & o' & Ho' & Hx').
        exists x', o'. split; [|exact Hx']. simpl.
        apply lookup_app_l_Some. exact Ho'.
    + simpl. apply lookup_insert_eq.
    + eexists.
      split; [simpl; rewrite lookup_app_r by lia; rewrite Nat.sub_diag; reflexivity
             |reflexivity].
Qed.

End IdentityProperties.

(** ** [int(str(n)) == n] *)

Section IntOfStr.

Lemma string_of_uint_all_digits (d : uint) :
  all_digits (NilEmpty.string_of_uint d) = true.
Proof. induction d; simpl; auto. Qed.

Lemma string_of_uint_nonempty (d : uint) :
  d <> Nil -> NilEmpty.string_of_uint d <> EmptyString.
Proof. destruct d; simpl; congruence. Qed.

Lemma digit_not_space c : is_digit c = true -> PyStr.is_space c = false.
Proof.
  unfold is_digit, PyStr.is_space. cbv zeta.
  rewrite andb_true_iff, !Nat.leb_le.
  intros [H1 H2].
  rewrite orb_false_iff, Nat.eqb_neq, andb_false_iff, !Nat.leb_gt. lia.
Qed.

Lemma digit_not_char c (k : ascii) :
  is_digit k = false -> is_digit c = true -> c <> k.
Proof. intros Hk Hc ->. congruence. Qed.

Lemma rstrip_all_digits s : all_digits s = true -> PyStr.rstrip s = s.
Proof.
  induction s as [|c r IH]; simpl; [reflexivity|].
  rewrite andb_true_iff. intros [Hc Hr].
  rewrite (IH Hr). destruct r; [|reflexivity].
  rewrite (digit_not_space c Hc). reflexivity.
Qed.

Lemma drop_underscores_all_digits s :
  all_digits s = true -> PyStr.drop_underscores true s = Some s.
Proof.
  induction s as [|c r IH]; simpl; [reflexivity|].
  rewrite andb_true_iff. intros [Hc Hr].
  destruct (decide (c = "_"%char)) as [->|_]; [discriminate Hc|].
  rewrite (IH Hr). reflexivity.
Qed.

Lemma drop_underscores_first s :
  all_digits s = true -> s <> EmptyString -> PyStr.drop_underscores false s = Some s.
Proof.
  destruct s as [|c r]; [congruence|]. simpl.
  rewrite andb_true_iff. intros [Hc Hr] _.
  destruct (decide (c = "_"%char)) as [->|_]; [discriminate Hc|].
  rewrite (drop_underscores_all_digits r Hr). reflexivity.
Qed.

Lemma lstrip_all_digits s : all_digits s = true -> PyStr.lstrip s = s.
Proof.
  destruct s as [|c r]; [reflexivity|]. simpl.
  rewrite andb_true_iff. intros [Hc _].
  rewrite (digit_not_space c Hc). reflexivity.
Qed.

Lemma strip_all_digits s : all_digits s = true -> PyStr.strip s = s.
Proof.
  intros H. unfold PyStr.strip.
  rewrite (lstrip_all_digits s H). apply rstrip_all_digits, H.
Qed.

Lemma strip_minus s :
  all_digits s = true -> PyStr.strip (String "-" s) = String "-" s.
Proof.
  intros H. unfold PyStr.strip.
  change (PyStr.lstrip (String "-" s)) with (String "-" s).
  cbn [PyStr.rstrip]. rewrite (rstrip_all_digits s H).
  destruct s; reflexivity.
Qed.

(** The digits of a literal without sign, white space or underscore. *)
Lemma int_body (neg : bool) (s : string) (u : uint) :
  all_digits s = true -> s <> EmptyString -> NilEmpty.uint_of_string s = Some u ->
  match s with
  | EmptyString => None
  | _ =>
      ds ← PyStr.drop_underscores false s;
      v ← NilEmpty.uint_of_string ds;
      Some (Z.of_int (if neg then Neg v else Pos v))
  end = Some (Z.of_int (if neg then Neg u else Pos u)).
Proof.
  intros Hd Hne Hu.
  destruct s as [|c r] eqn:E; [congruence|]. rewrite <- E in *.
  rewrite (drop_underscores_first s Hd Hne).
  cbn [mbind option_bind]. rewrite Hu. reflexivity.
Qed.

(** Parsing the digits of [u], under a sign. *)
Lemma int_digits (neg : bool) (u : uint) :
  u <> Nil ->
  PyStr.int (if neg then String "-" (NilEmpty.string_of_uint u)
             else NilEmpty.string_of_uint u)
  = Some (Z.of_int (if neg then Neg u else Pos u)).
Proof.
  intros Hu.
  pose proof (string_of_uint_all_digits u) as Hd.
  pose proof (string_of_uint_nonempty u Hu) as Hne.
  pose proof (NilEmpty.usu u) as Hp.
  unfold PyStr.int. cbv zeta.
  destruct neg.
  - rewrite (strip_minus _ Hd).
    destruct (decide ("-"%char = "-"%char)) as [_|]; [|congruence].
    exact (int_body true _ u Hd Hne Hp).
  - rewrite (strip_all_digits _ Hd).
    destruct (NilEmpty.string_of_uint u) as [|c r] eqn:E; [congruence|].
    assert (Hc : is_digit c = true).
    { simpl in Hd. apply andb_true_iff in Hd. tauto. }
    destruct (decide (c = "-"%char)) as [->|_]; [discriminate Hc|].
    destruct (decide (c = "+"%char)) as [->|_]; [discriminate Hc|].
    exact (int_body false _ u Hd Hne Hp).
Qed.

(** [int(str(n)) == n] for every integer [n]. *)
Lemma int_of_int (n : Z) : PyStr.int (PyStr.of_int n) = Some n.
Proof.
  unfold PyStr.of_int.
  rewrite <- (DecimalZ.of_to n) at 2.
  destruct n as [|p|p]; simpl Z.to_int.
  - reflexivity.
  - assert (Hp : Pos.to_uint p <> Nil) by apply DecimalPos.Unsigned.to_uint_nonnil.
    unfold NilZero.string_of_int, NilZero.string_of_uint.
    destruct (Pos.to_uint p) eqn:E; try congruence;
      rewrite <- E; rewrite <- E in Hp; exact (int_digits false _ Hp).
  - assert (Hp : Pos.to_uint p <> Nil) by apply DecimalPos.Unsigned.to_uint_nonnil.
    unfold NilZero.string_of_int, NilZero.string_of_uint.
    destruct (Pos.to_uint p) eqn:E; try congruence;
      rewrite <- E; rewrite <- E in Hp; exact (int_digits true _ Hp).
Qed.

End IntOfStr.

(** ** Documents: positions, references and the scalar descriptors *)

Section DocumentFacts.

Lemma positions_app {A} (P : A -> bool) (l1 l2 : list A) (k : nat) :
  positions P (l1 ++ l2) k = positions P l1 k ++ positions P l2 (k + length l1).
Proof.
  revert k. induction l1 as [|x l1 IH]; intros k; simpl.
  - rewrite Nat.add_0_r. reflexivity.
  - rewrite IH. replace (S k + length l1) with (k + S (length l1)) by lia.
    destruct (P x); reflexivity.
Qed.

Lemma positions_nil_iff {A} (P : A -> bool) (l : list A) (k : nat) :
  positions P l k = [] <-> Forall (fun x => P x = false) l.
Proof.
  revert k. induction l as [|x l IH]; intros k; simpl.
  - split; auto.
  - destruct (P x) eqn:E.
    + split; [discriminate|]. intros H. inversion H; congruence.
    + rewrite IH. split; [intros H; constructor; auto|intros H; inversion H; auto].
Qed.

(** The first position found designates an element that satisfies [P]. *)
Lemma positions_head {A} (P : A -> bool) (l : list A) (k j : nat) :
  head (positions P l k) = Some j ->
  exists i x, j = k + i /\ l !! i = Some x /\ P x = true /\
              Forall (fun y => P y = false) (take i l).
Proof.
  revert k. induction l as [|x l IH]; intros k; simpl; [discriminate|].
  destruct (P x) eqn:E.
  - simpl. intros [= <-]. exists 0, x. rewrite Nat.add_0_r. repeat split; auto.
  - intros H. destruct (IH _ H) as (i & y & -> & Hl & Hy & Hall).
    exists (S i), y. split; [lia|]. split; [exact Hl|]. split; [exact Hy|].
    simpl. constructor; auto.
Qed.

(** Positions depend on the elements only through [P]. *)
Lemma positions_ext {A} (P : A -> bool) (l l' : list A) (k : nat) :
  P <$> l = P <$> l' -> positions P l k = positions P l' k.
Proof.
  revert l' k. induction l as [|x l IH]; intros [|x' l'] k; simpl; try discriminate; auto.
  intros [= Hx Hl]. rewrite Hx, (IH l' (S k) Hl). reflexivity.
Qed.

Lemma positions_alter {A} (P : A -> bool) (f : A -> A) (l : list A) (i k : nat) :
  (forall x, P (f x) = P x) ->
  positions P (alter f i l) k = positions P l k.
Proof.
  intros Hf. apply positions_ext.
  revert i. induction l as [|x l IH]; intros [|i]; simpl; auto.
  - rewrite Hf. reflexivity.
  - f_equal. apply IH.
Qed.

Lemma has_tag_with_text name x e : has_tag name (with_text x e) = has_tag name e.
Proof. reflexivity. Qed.

(** [get_sub_node] from the root of the document. *)
Lemma get_sub_node_root name (root : Element) :
  get_sub_node [] name root =
    (Ok ((fun i => [i]) <$> head (positions (has_tag name) (children root) 0)), root).
Proof.
  unfold get_sub_node, get_sub_nodes, bind, deref. simpl.
  unfold ret. f_equal. f_equal.
  destruct (positions (has_tag name) (children root) 0); reflexivity.
Qed.

Lemma tag_truthy_Some tag t : tag_truthy tag = Some t -> tag = Some t.
Proof. destruct tag as [[|]|]; simpl; congruence. Qed.

Lemma StringDescriptor_set_doc_eq tag value root :
  StringDescriptor_set_doc tag value root =
    (Ok tt, set_text_doc tag (TStr (py_str value)) root).
Proof.
  unfold StringDescriptor_set_doc, TagDescriptor_get_node, set_text_doc.
  destruct (tag_truthy tag) as [t|] eqn:Ht.
  - unfold bind at 1. unfold bind at 1. unfold XmlElement_rootnode, ret at 1.
    rewrite get_sub_node_root.
    destruct (head (positions (has_tag t) (children root) 0)) as [i|] eqn:Hh; simpl.
    + destruct (positions_head _ _ _ _ Hh) as (k & x & -> & Hl & _ & _).
      unfold bind, ret, mutate. simpl. rewrite Hl. reflexivity.
    + rewrite (tag_truthy_Some _ _ Ht). simpl.
      unfold bind, ret, append_new, bind, deref, mutate, ret. simpl.
      rewrite lookup_app_r by lia. rewrite Nat.sub_diag. simpl.
      f_equal. unfold with_children, append. simpl. f_equal.
      rewrite alter_app_r_alt by lia. rewrite Nat.sub_diag. reflexivity.
  - reflexivity.
Qed.

(** Reading back what [StringDescriptor.__set__] wrote. *)
Lemma StringDescriptor_get_after_set tag x root :
  StringDescriptor_get_doc tag (set_text_doc tag x root) =
    (Ok (Some x), set_text_doc tag x root).
Proof.
  unfold StringDescriptor_get_doc, TagDescriptor_get_node, set_text_doc.
  destruct (tag_truthy tag) as [t|] eqn:Ht; [|reflexivity].
  unfold bind at 1. unfold bind at 1. unfold XmlElement_rootnode, ret at 1.
  rewrite get_sub_node_root.
  destruct (head (positions (has_tag t) (children root) 0)) as [i|] eqn:Hh.
  - destruct (positions_head _ _ _ _ Hh) as (k & e & -> & Hl & _ & _). simpl.
    rewrite positions_alter by (intros; apply has_tag_with_text).
    rewrite Hh. simpl. unfold bind, deref, ret. simpl.
    rewrite list_lookup_alter_eq, Hl. reflexivity.
  - simpl. rewrite positions_app.
    assert (Hnil : positions (has_tag t) (children root) 0 = []).
    { destruct (positions (has_tag t) (children root) 0); [reflexivity|discriminate]. }
    rewrite Hnil. simpl.
    unfold has_tag at 1. simpl. rewrite bool_decide_eq_true_2 by reflexivity. simpl.
    unfold bind, deref, ret. simpl.
    rewrite lookup_app_r by lia. rewrite Nat.sub_diag. reflexivity.
Qed.

End DocumentFacts.

(** ** Scalar descriptors on a fetched entity *)

Section ScalarProperties.

Variable lims : Lims.

Lemma world_with_root_same w instance x r :
  has_attrs w instance x -> root x = Some r -> world_with_root w instance r = w.
Proof.
  intros (o & Ho & Hx) Hr. unfold world_with_root. rewrite Ho, Hx. simpl.
  destruct w as [h c rq lg]. unfold with_heap. simpl in *. f_equal.
  apply list_insert_id. rewrite Ho. f_equal. destruct o as [cl at']. simpl in *.
  subst at'. destruct x as [u rt]. simpl in *. subst rt. reflexivity.
Qed.

Lemma world_with_root_has_attrs w instance x r :
  has_attrs w instance x ->
  has_attrs (world_with_root w instance r) instance (mkAttrs (_uri x) (Some r)).
Proof.
  intros (o & Ho & Hx). unfold world_with_root. rewrite Ho, Hx. simpl.
  eexists. split; [apply list_lookup_insert_eq; eapply lookup_lt_Some; eauto|reflexivity].
Qed.

(** A document computation on a fetched entity acts on its root. *)
Lemma on_root_fetched {A} (m : D A) w instance x r :
  has_attrs w instance x -> root x = Some r ->
  on_root instance m w = ((m r).1, world_with_root w instance (m r).2).
Proof.
  intros H Hr. unfold on_root, bind.
  rewrite (attrs_of_has_attrs w instance x H), Hr.
  destruct (m r) as [res r'] eqn:E. simpl.
  destruct H as (o & Ho & Hx).
  unfold set_root, bind, object_at, modify. rewrite Ho. simpl.
  unfold world_with_root. rewrite Ho. unfold lift_result. reflexivity.
Qed.

Lemma StringDescriptor_get_doc_pure tag r :
  exists t, StringDescriptor_get_doc tag r = (Ok t, r).
Proof.
  unfold StringDescriptor_get_doc, TagDescriptor_get_node.
  destruct (tag_truthy tag) as [t|]; [|eexists; reflexivity].
  unfold bind at 1. unfold bind at 1. unfold XmlElement_rootnode, ret at 1.
  rewrite get_sub_node_root.
  destruct (head (positions (has_tag t) (children r) 0)) as [i|] eqn:Hh; simpl;
    [|eexists; reflexivity].
  destruct (positions_head _ _ _ _ Hh) as (k & e & -> & Hl & _ & _).
  unfold bind, deref, ret. simpl. rewrite Hl. eexists; reflexivity.
Qed.

Lemma StringDescriptor_get_fetched tag w instance x r t :
  has_attrs w instance x -> root x = Some r ->
  StringDescriptor_get_doc tag r = (Ok t, r) ->
  StringDescriptor___get__ lims tag instance w = (Ok t, w).
Proof.
  intros H Hr Hd. unfold StringDescriptor___get__, bind.
  rewrite (Entity_get_fetched lims w instance x r H Hr).
  rewrite (on_root_fetched _ w instance x r H Hr), Hd. simpl.
  rewrite (world_with_root_same w instance x r H Hr). reflexivity.
Qed.

Lemma StringDescriptor_set_fetched tag value w instance x r :
  has_attrs w instance x -> root x = Some r ->
  StringDescriptor___set__ lims tag instance value w =
    (Ok tt, world_with_root w instance (set_text_doc tag (TStr (py_str value)) r)).
Proof.
  intros H Hr. unfold StringDescriptor___set__, bind.
  rewrite (Entity_get_fetched lims w instance x r H Hr).
  rewrite (on_root_fetched _ w instance x r H Hr), StringDescriptor_set_doc_eq.
  reflexivity.
Qed.

Lemma IntegerDescriptor_get_fetched tag w instance x r s n :
  has_attrs w instance x -> root x = Some r ->
  StringDescriptor_get_doc tag r = (Ok (Some (TStr s)), r) ->
  PyStr.int s = Some n ->
  IntegerDescriptor___get__ lims tag instance w = (Ok (Some n), w).
Proof.
  intros H Hr Hd Hn. unfold IntegerDescriptor___get__, bind.
  rewrite (StringDescriptor_get_fetched tag w instance x r _ H Hr Hd).
  simpl. rewrite Hn. reflexivity.
Qed.

(** C8.  On a fetched entity, writing the integer [n], or the string
    [str(n)], through an integer descriptor succeeds, and reading it back
    yields [n] with the backing text equal to [str(n)]; neither read fetches
    or changes anything.  In particular a document whose [count] holds "32"
    reads as 32, and writing 21 (as an int or as "21") makes the backing text
    "21". *)
Theorem integer_round_trip :
  forall (tag : option string) (w : World) (instance : addr) (x : Attrs) (r : Element),
    has_attrs w instance x -> root x = Some r ->
    (forall (n : Z) (value : PyValue),
       value = VInt n \/ value = VStr (PyStr.of_int n) ->
       exists w1,
         IntegerDescriptor___set__ lims tag instance value w = (Ok tt, w1) /\
         IntegerDescriptor___get__ lims tag instance w1 = (Ok (Some n), w1) /\
         StringDescriptor___get__ lims tag instance w1
           = (Ok (Some (TStr (PyStr.of_int n))), w1)) /\
    (r = test_entry_count "32" ->
       IntegerDescriptor___get__ lims (Some "count") instance w = (Ok (Some 32%Z), w) /\
       forall value, value = VInt 21 \/ value = VStr "21" ->
         IntegerDescriptor___set__ lims (Some "count") instance value w
           = (Ok tt, world_with_root w instance (test_entry_count "21"))).
Proof.
  intros tag w instance x r H Hr. split.
  - intros n value Hv.
    assert (Hs : py_str value = PyStr.of_int n) by (destruct Hv; subst; reflexivity).
    exists (world_with_root w instance (set_text_doc tag (TStr (PyStr.of_int n)) r)).
    unfold IntegerDescriptor___set__.
    rewrite (StringDescriptor_set_fetched tag value w instance x r H Hr), Hs.
    split; [reflexivity|].
    pose proof (world_with_root_has_attrs w instance x
                  (set_text_doc tag (TStr (PyStr.of_int n)) r) H) as H1.
    pose proof (StringDescriptor_get_after_set tag (TStr (PyStr.of_int n)) r) as Hg.
    split.
    + eapply IntegerDescriptor_get_fetched; eauto. apply int_of_int.
    + eapply StringDescriptor_get_fetched; eauto.
  - intros ->. split.
    + eapply IntegerDescriptor_get_fetched with (s := "32"); eauto; reflexivity.
    + intros value Hv.
      rewrite (StringDescriptor_set_fetched _ value w instance x _ H Hr).
      destruct Hv; subst; reflexivity.
Qed.

End ScalarProperties.

(** ** Nesting paths: what [Nestable.rootnode] does to the document *)

Section NestingProperties.

Lemma node_at_app p q e :
  node_at (p ++ q) e = node_at p e ≫= node_at q.
Proof.
  revert e. induction p as [|i p IH]; intros e; simpl; [reflexivity|].
  destruct (children e !! i); [apply IH|reflexivity].
Qed.

Lemma alter_at_app f p q e :
  alter_at f (p ++ q) e = alter_at (alter_at f q) p e.
Proof.
  revert e. induction p as [|i p IH]; intros e; simpl; [reflexivity|].
  f_equal. apply list_alter_ext; auto.
Qed.

Lemma alter_at_compose f g p e :
  alter_at g p (alter_at f p e) = alter_at (fun x => g (f x)) p e.
Proof.
  revert e. induction p as [|i p IH]; intros e; simpl; [reflexivity|].
  unfold with_children. simpl. f_equal.
  rewrite list_alter_alter_eq. apply list_alter_ext; auto.
  intros x _. apply IH.
Qed.

Lemma alter_at_ext_at f g p e n :
  node_at p e = Some n -> f n = g n -> alter_at f p e = alter_at g p e.
Proof.
  revert e. induction p as [|i p IH]; intros e; simpl.
  - intros [= ->]. auto.
  - destruct (children e !! i) as [c|] eqn:Hc; [|discriminate].
    intros Hn Hfg. f_equal. apply list_alter_ext; [|reflexivity].
    intros x Hx. rewrite Hc in Hx. inversion Hx; subst x. auto.
Qed.

Lemma alter_at_same f p e n :
  node_at p e = Some n -> f n = n -> alter_at f p e = e.
Proof.
  revert e. induction p as [|i p IH]; intros e; simpl.
  - intros [= ->]. auto.
  - destruct (children e !! i) as [c|] eqn:Hc; [|discriminate].
    intros Hn Hf. destruct e as [t a x cs]. unfold with_children. simpl in *. f_equal.
    transitivity (alter (fun y => y) i cs); [|apply list_alter_id; auto].
    apply list_alter_ext; [|reflexivity].
    intros y Hy. rewrite Hc in Hy. inversion Hy; subst y. auto.
Qed.

Lemma node_at_alter_at f p e :
  node_at p (alter_at f p e) = f <$> node_at p e.
Proof.
  revert e. induction p as [|i p IH]; intros e; simpl; [reflexivity|].
  rewrite list_lookup_alter_eq.
  destruct (children e !! i) as [c|]; simpl; [apply IH|reflexivity].
Qed.

Lemma tag_ensure_path keys e : tag (ensure_path keys e) = tag e.
Proof.
  destruct keys as [|k ks]; simpl; [reflexivity|].
  destruct (head (positions (has_tag k) (children e) 0)); reflexivity.
Qed.

Lemma has_tag_ensure_path name keys e :
  has_tag name (ensure_path keys e) = has_tag name e.
Proof. unfold has_tag. rewrite tag_ensure_path. reflexivity. Qed.

Lemma head_positions_None {A} (P : A -> bool) (l : list A) k :
  head (positions P l k) = None -> positions P l k = [].
Proof. destruct (positions P l k); [reflexivity|discriminate]. Qed.

Lemma get_sub_node_at cur name root n :
  node_at cur root = Some n ->
  get_sub_node cur name root =
    (Ok ((fun i => cur ++ [i]) <$> head (positions (has_tag name) (children n) 0)), root).
Proof.
  intros Hn. unfold get_sub_node, get_sub_nodes, bind, deref. rewrite Hn.
  unfold ret. f_equal. f_equal.
  destruct (positions (has_tag name) (children n) 0); reflexivity.
Qed.

(** The loop of [Nestable.rootnode], started at the element [n] that
    [cur] designates. *)
Lemma rootnode_loop_spec keys :
  forall cur root n,
    node_at cur root = Some n ->
    rootnode_loop keys cur root =
      (Ok (cur ++ nested_ref keys n), alter_at (ensure_path keys) cur root).
Proof.
  induction keys as [|k ks IH]; intros cur root n Hn; simpl.
  - unfold ret. rewrite app_nil_r. f_equal. symmetry.
    eapply alter_at_same; eauto.
  - unfold bind at 1. rewrite (get_sub_node_at cur k root n Hn).
    destruct (head (positions (has_tag k) (children n) 0)) as [i|] eqn:Hh; simpl.
    + destruct (positions_head _ _ _ _ Hh) as (j & c & -> & Hc & _ & _).
      simpl in *. unfold bind, ret.
      assert (Hn' : node_at (cur ++ [j]) root = Some c).
      { rewrite node_at_app, Hn. simpl. rewrite Hc. reflexivity. }
      rewrite (IH _ _ _ Hn'). rewrite Hc. simpl.
      rewrite <- app_assoc. simpl. f_equal.
      rewrite alter_at_app. eapply alter_at_ext_at; eauto.
      simpl. rewrite Hh. reflexivity.
    + unfold bind at 1. unfold append_new, bind at 1.
      unfold deref at 1. rewrite Hn.
      unfold bind at 1. unfold mutate at 1. rewrite Hn. unfold ret at 1.
      set (root1 := alter_at (ElementTree.append (Element_ k)) cur root).
      assert (Hn' : node_at (cur ++ [length (children n)]) root1 = Some (Element_ k)).
      { rewrite node_at_app. unfold root1. rewrite node_at_alter_at, Hn. simpl.
        rewrite lookup_app_r by lia. rewrite Nat.sub_diag. reflexivity. }
      rewrite (IH _ _ _ Hn').
      rewrite <- app_assoc. simpl. f_equal.
      rewrite alter_at_app. unfold root1. rewrite alter_at_compose.
      eapply alter_at_ext_at; eauto.
      simpl. rewrite Hh. unfold with_children, ElementTree.append. simpl. f_equal.
      rewrite alter_app_r_alt by lia. rewrite Nat.sub_diag. reflexivity.
Qed.

Lemma Nestable_rootnode_spec keys root :
  Nestable_rootnode keys root = (Ok (nested_ref keys root), ensure_path keys root).
Proof.
  unfold Nestable_rootnode.
  rewrite (rootnode_loop_spec keys [] root root) by reflexivity. reflexivity.
Qed.

(** After the access every element of the path exists. *)
Lemma resolve_ensure_path keys :
  forall e, resolve_path keys (ensure_path keys e) = Some (nested_ref keys e).
Proof.
  induction keys as [|k ks IH]; intros e; simpl; [reflexivity|].
  destruct (head (positions (has_tag k) (children e) 0)) as [i|] eqn:Hh; simpl.
  - destruct (positions_head _ _ _ _ Hh) as (j & c & -> & Hc & _ & _). simpl in *.
    rewrite positions_alter by (intros; apply has_tag_ensure_path).
    rewrite Hh. rewrite list_lookup_alter_eq, Hc. simpl. rewrite IH. reflexivity.
  - rewrite positions_app, (head_positions_None _ _ _ Hh). simpl.
    rewrite has_tag_ensure_path. unfold has_tag at 1. simpl.
    rewrite bool_decide_eq_true_2 by reflexivity. simpl.
    rewrite lookup_app_r by lia. rewrite Nat.sub_diag. simpl. rewrite IH. reflexivity.
Qed.

(** When every element of the path exists the access changes nothing. *)
Lemma ensure_path_present keys :
  forall e p, resolve_path keys e = Some p ->
              ensure_path keys e = e /\ nested_ref keys e = p.
Proof.
  induction keys as [|k ks IH]; intros e p; simpl.
  - intros [= <-]. auto.
  - destruct (head (positions (has_tag k) (children e) 0)) as [i|]; [|discriminate].
    destruct (children e !! i) as [c|] eqn:Hc; [|discriminate]. simpl.
    destruct (resolve_path ks c) as [q|] eqn:Hq; [|discriminate]. simpl.
    intros [= <-]. destruct (IH c q Hq) as [He Hr]. split.
    + destruct e as [t a x cs]. unfold with_children. simpl in *. f_equal.
      transitivity (alter (fun y => y) i cs); [|apply list_alter_id; auto].
      apply list_alter_ext; [|reflexivity].
      intros y Hy. rewrite Hc in Hy. inversion Hy; subst y. exact He.
    + rewrite Hr. reflexivity.
Qed.

(** Below a new element the whole rest of the path is new. *)
Lemma nested_ref_fresh ks :
  forall k, exists k',
    node_at (nested_ref ks (Element_ k)) (ensure_path ks (Element_ k)) = Some (Element_ k').
Proof.
  induction ks as [|k1 ks IH]; intros k; simpl.
  - exists k. reflexivity.
  - destruct (IH k1) as (k' & Hk'). exists k'. exact Hk'.
Qed.

(** When an element of the path is missing, the path ends at a new, empty
    element. *)
Lemma nested_ref_new keys :
  forall e, resolve_path keys e = None ->
    exists k', node_at (nested_ref keys e) (ensure_path keys e) = Some (Element_ k').
Proof.
  induction keys as [|k ks IH]; intros e; simpl; [discriminate|].
  destruct (head (positions (has_tag k) (children e) 0)) as [i|] eqn:Hh.
  - destruct (positions_head _ _ _ _ Hh) as (j & c & -> & Hc & _ & _). simpl in *.
    rewrite Hc. simpl. rewrite list_lookup_alter_eq, Hc. simpl.
    destruct (resolve_path ks c) eqn:Hr; [discriminate|]. intros _. apply IH, Hr.
  - intros _. simpl.
    rewrite lookup_app_r by lia. rewrite Nat.sub_diag. simpl.
    apply nested_ref_fresh.
Qed.

Lemma StringListDescriptor_get_doc_missing tag keys r :
  resolve_path keys r = None ->
  StringListDescriptor_get_doc tag keys r = (Ok [], ensure_path keys r).
Proof.
  intros Hm. unfold StringListDescriptor_get_doc, bind.
  rewrite Nestable_rootnode_spec.
  destruct (nested_ref_new keys r Hm) as (k' & Hk').
  unfold deref. rewrite Hk'. reflexivity.
Qed.

Section OnEntity.

Variable lims : Lims.

(** C10.  Every accessor declared with a nesting path reaches its
    element through [Nestable.rootnode], which returns the end of the path in
    the document with every missing intermediate created and appended, in
    path order.  So on a fetched entity whose document lacks an intermediate
    element of the path, a mere read through a [StringListDescriptor] returns
    the empty list and leaves a different document, in which the whole path
    exists. *)
Theorem nested_read_creates_intermediates :
  forall (tag : string) (rootkeys : list string) (w : World) (instance : addr)
         (x : Attrs) (r : Element),
    has_attrs w instance x -> root x = Some r ->
    Nestable_rootnode rootkeys r = (Ok (nested_ref rootkeys r), ensure_path rootkeys r) /\
    (resolve_path rootkeys r = None ->
       ensure_path rootkeys r <> r /\
       resolve_path rootkeys (ensure_path rootkeys r) = Some (nested_ref rootkeys r) /\
       StringListDescriptor___get__ lims tag rootkeys instance w
         = (Ok [], world_with_root w instance (ensure_path rootkeys r)) /\
       world_with_root w instance (ensure_path rootkeys r) <> w).
Proof.
  intros tag rootkeys w instance x r H Hr.
  split; [apply Nestable_rootnode_spec|].
  intros Hm.
  assert (Hne : ensure_path rootkeys r <> r).
  { intros E. pose proof (resolve_ensure_path rootkeys r) as Hs.
    rewrite E, Hm in Hs. discriminate. }
  split; [exact Hne|]. split; [apply resolve_ensure_path|]. split.
  - unfold StringListDescriptor___get__, bind.
    rewrite (Entity_get_fetched lims w instance x r H Hr).
    rewrite (on_root_fetched _ w instance x r H Hr).
    rewrite (StringListDescriptor_get_doc_missing tag rootkeys r Hm). reflexivity.
  - intros E.
    pose proof (world_with_root_has_attrs w instance x (ensure_path rootkeys r) H) as H1.
    rewrite E in H1.
    destruct H as (o & Ho & Hx). destruct H1 as (o1 & Ho1 & Hx1).
    rewrite Ho in Ho1. inversion Ho1; subst o1. rewrite Hx in Hx1.
    inversion Hx1 as [Hxx]. rewrite Hxx in Hr. simpl in Hr. congruence.
Qed.

End OnEntity.

End NestingProperties.

(** ** [Entity.create] *)

Section CreateProperties.

Variable lims : Lims.

Lemma with_unbound_has_attrs w0 cls r :
  has_attrs (with_unbound w0 cls r) (length (heap w0)) (mkAttrs None (Some r)).
Proof.
  eexists.
  split; [simpl; rewrite lookup_app_r by lia; rewrite Nat.sub_diag; reflexivity
         |reflexivity].
Qed.

Lemma with_unbound_set_root w0 cls r r' :
  world_with_root (with_unbound w0 cls r) (length (heap w0)) r' = with_unbound w0 cls r'.
Proof.
  unfold world_with_root, with_unbound. simpl.
  rewrite lookup_app_r by lia. rewrite Nat.sub_diag. simpl.
  unfold with_heap. simpl. f_equal.
  rewrite insert_app_r_alt by lia. rewrite Nat.sub_diag. reflexivity.
Qed.

(** Reading through a descriptor of a fetched instance changes nothing. *)
Lemma Descriptor_get_fetched d w instance x r :
  has_attrs w instance x -> root x = Some r ->
  exists res, Descriptor___get__ lims d instance w = (res, w).
Proof.
  intros H Hr.
  destruct (StringDescriptor_get_doc_pure
              match d with
              | StringDescriptor t | IntegerDescriptor t | BooleanDescriptor t => t
              end r) as (t & Ht).
  destruct d as [tag|tag|tag]; simpl; unfold bind.
  - rewrite (StringDescriptor_get_fetched lims tag w instance x r t H Hr Ht).
    eexists; reflexivity.
  - unfold IntegerDescriptor___get__, bind.
    rewrite (StringDescriptor_get_fetched lims tag w instance x r t H Hr Ht).
    destruct t as [t|]; simpl; [|eexists; reflexivity].
    destruct (PyStr.int (text_chars t)); eexists; reflexivity.
  - unfold BooleanDescriptor___get__, bind.
    rewrite (StringDescriptor_get_fetched lims tag w instance x r t H Hr Ht).
    destruct t as [[s|s]|]; eexists; reflexivity.
Qed.

(** Writing through a descriptor of a fetched instance changes its
    document only. *)
Lemma Descriptor_set_fetched d value w instance x r :
  has_attrs w instance x -> root x = Some r ->
  exists r', Descriptor___set__ lims d instance value w
             = (Ok tt, world_with_root w instance r').
Proof.
  intros H Hr. destruct d as [tag|tag|tag]; simpl;
    unfold IntegerDescriptor___set__, BooleanDescriptor___set__;
    erewrite StringDescriptor_set_fetched by eauto; eexists; reflexivity.
Qed.

Lemma hasattr_fetched cls attribute w instance x r :
  has_attrs w instance x -> root x = Some r ->
  exists res, hasattr lims cls instance attribute w = (res, w).
Proof.
  intros H Hr. unfold hasattr.
  destruct (lookup_descriptor attribute (c_descriptors cls)) as [d|];
    [|eexists; reflexivity].
  destruct (Descriptor_get_fetched d w instance x r H Hr) as (res & Hres).
  unfold try_except, bind. rewrite Hres.
  destruct res as [v|e]; [eexists; reflexivity|].
  destruct (decide (e = AttributeError)); eexists; reflexivity.
Qed.

(** The [for attribute in kwargs] loop of [_create] keeps the world in the
    shape [with_unbound w0 cls _]. *)
Lemma create_loop_shape w0 cls (kwargs : list (string * PyValue)) :
  forall r res w',
    for_each kwargs (fun '(attribute, value) =>
        b <- hasattr lims cls (length (heap w0)) attribute ;;
        if b then setattr lims cls (length (heap w0)) attribute value
        else raise TypeError) (with_unbound w0 cls r) = (res, w') ->
    exists r', w' = with_unbound w0 cls r'.
Proof.
  induction kwargs as [|[attribute value] kwargs IH]; intros r res w'; simpl.
  - intros [= _ <-]. eauto.
  - pose proof (with_unbound_has_attrs w0 cls r) as H.
    destruct (hasattr_fetched cls attribute _ _ _ r H eq_refl) as (hres & Hh).
    unfold bind at 1. unfold bind at 1. rewrite Hh.
    destruct hres as [[|]|e]; try (intros [= _ <-]; eauto; fail).
    unfold setattr.
    destruct (lookup_descriptor attribute (c_descriptors cls)) as [d|];
      [|intros [= _ <-]; eauto].
    destruct (Descriptor_set_fetched d value _ _ _ r H eq_refl) as (r' & Hs).
    rewrite Hs. rewrite with_unbound_set_root. apply IH.
Qed.

(** [_create]: the new object is the next address, and the world keeps the
    shape [with_unbound w _ _]. *)
Lemma Entity__create_shape cls kwargs w res w' :
  Entity__create lims cls kwargs w = (res, w') ->
  (exists r, w' = with_unbound w cls r /\ (forall a, res = Ok a -> a = length (heap w)))
  \/ (exists e at', res = Raise e /\
        w' = with_heap (heap w ++ [mkObject cls (Some at')]) w).
Proof.
  unfold Entity__create.
  assert (Hcall : Entity_call lims cls None None true w =
            (Ok (length (heap w)),
             with_heap (heap w ++ [mkObject cls (Some (mkAttrs None None))]) w)).
  { unfold Entity_call, Entity___new__, bind. simpl.
    unfold object_new, object_at. simpl.
    rewrite lookup_app_r by lia. rewrite Nat.sub_diag. simpl.
    unfold isinstance. simpl. rewrite bool_decide_eq_true_2 by reflexivity. simpl.
    unfold Entity___init__, bind. simpl.
    unfold object_at. simpl.
    rewrite lookup_app_r by lia. rewrite Nat.sub_diag. simpl.
    unfold set_attrs, bind, object_at, modify. simpl.
    rewrite lookup_app_r by lia. rewrite Nat.sub_diag. simpl.
    unfold with_heap. simpl. repeat f_equal.
    rewrite insert_app_r_alt by lia. rewrite Nat.sub_diag. reflexivity. }
  unfold bind at 1. rewrite Hcall.
  unfold bind at 1. unfold lift_result at 1.
  destruct (creation_qname _ _) as [qname|e].
  2:{ intros [= <- <-]. right. eauto. }
  unfold bind at 1. unfold lift_result at 1.
  destruct (nsmap qname) as [qtag|e].
  2:{ intros [= <- <-]. right. eauto. }
  unfold bind at 1.
  assert (Hset : set_root (length (heap w)) (Some (Element_ qtag))
                   (with_heap (heap w ++ [mkObject cls (Some (mkAttrs None None))]) w)
                 = (Ok tt, with_unbound w cls (Element_ qtag))).
  { unfold set_root, bind, object_at, modify. simpl.
    rewrite lookup_app_r by lia. rewrite Nat.sub_diag. simpl.
    unfold with_unbound, with_heap. simpl. repeat f_equal.
    rewrite insert_app_r_alt by lia. rewrite Nat.sub_diag. reflexivity. }
  rewrite Hset.
  unfold bind at 1.
  destruct (for_each kwargs _ (with_unbound w cls (Element_ qtag))) as [lres w1] eqn:Hloop.
  destruct (create_loop_shape w cls kwargs _ _ _ Hloop) as (r' & ->).
  destruct lres as [[]|e]; intros [= <- <-]; left; exists r'; split; auto.
  - intros a [= <-]. reflexivity.
  - intros a Ha. discriminate Ha.
Qed.

(** What a successful [create] leaves, precisely. *)
Lemma Entity_create_Ok cls kwargs w a w' :
  Entity_create lims cls kwargs w = (Ok a, w') ->
  exists r uri resp u,
    get_uri lims [c_URI cls] = Ok uri /\
    lims_post lims (requests w) uri (tostring lims (Some r)) = Ok resp /\
    attrib resp !! "uri" = Some u /\
    a = length (heap w) /\
    w' = mkWorld (heap w ++ [mkObject cls (Some (mkAttrs (Some u) (Some resp)))])
           (cache w) (requests w ++ [POST uri (tostring lims (Some r))]) (error_log w).
Proof.
  unfold Entity_create. unfold bind at 1.
  destruct (Entity__create lims cls kwargs w) as [res w1] eqn:Hc.
  destruct (Entity__create_shape cls kwargs w res w1 Hc) as
    [(r & -> & Ha)|(e & at' & -> & _)]; [|discriminate].
  destruct res as [a0|e]; [|discriminate].
  rewrite (Ha a0 eq_refl).
  pose proof (with_unbound_has_attrs w cls r) as H.
  unfold bind at 1. rewrite (attrs_of_has_attrs _ _ _ H). simpl.
  unfold bind at 1. unfold lift_result at 1.
  destruct (get_uri lims [c_URI cls]) as [uri|e] eqn:Hg; [|discriminate].
  unfold bind at 1. unfold transport_post, bind, get_state, modify, lift_result. simpl.
  destruct (lims_post lims (requests w) uri (tostring lims (Some r))) as [resp|e] eqn:Hp;
    [|discriminate].
  unfold set_root, bind, object_at, modify. simpl.
  rewrite lookup_app_r by lia. rewrite Nat.sub_diag. simpl.
  destruct (attrib resp !! "uri") as [u|] eqn:Hu; [|discriminate].
  unfold set_uri, bind, object_at, modify, ret. simpl.
  rewrite insert_app_r_alt by lia. rewrite Nat.sub_diag. simpl.
  rewrite lookup_app_r by lia. rewrite Nat.sub_diag. simpl.
  rewrite insert_app_r_alt by lia. rewrite Nat.sub_diag. simpl.
  intros [= <- <-].
  exists r, uri, resp, u. repeat split; auto.
Qed.

(** C6, amended.  After [create()] succeeds the new entity holds the URI
    found in the response of the create collaborator, its document root is
    that response, and the only request made is the POST.  [create()] leaves
    the identity cache as it was: the new entity is not in it, and a later
    construction by that URI returns another object. *)
Theorem create_binds_without_caching :
  forall (cls : Class) (kwargs : list (string * PyValue)) (w w' : World) (a : addr),
    cache_wf w ->
    Entity_create lims cls kwargs w = (Ok a, w') ->
    exists uri data resp u,
      lims_post lims (requests w) uri data = Ok resp /\
      attrib resp !! "uri" = Some u /\
      has_attrs w' a (mkAttrs (Some u) (Some resp)) /\
      requests w' = requests w ++ [POST uri data] /\
      cache w' = cache w /\
      (forall u' b, cache w' !! u' = Some b -> b <> a) /\
      (forall b w'', Entity_call lims cls (Some u) None false w' = (Ok b, w'') -> b <> a).
Proof.
  intros cls kwargs w w' a Hwf Hc.
  destruct (Entity_create_Ok cls kwargs w a w' Hc) as
    (r & uri & resp & u & Hg & Hp & Hu & -> & ->).
  exists uri, (tostring lims (Some r)), resp, u.
  split; [exact Hp|]. split; [exact Hu|].
  split.
  { eexists.
    split; [simpl; rewrite lookup_app_r by lia; rewrite Nat.sub_diag; reflexivity
           |reflexivity]. }
  split; [reflexivity|]. split; [reflexivity|].
  assert (Hcached : forall u' b, cache w !! u' = Some b -> b < length (heap w)).
  { intros u' b Hb. destruct (Hwf u' b Hb) as (x & Hx). eapply has_attrs_lt; eauto. }
  split.
  { simpl. intros u' b Hb. specialize (Hcached u' b Hb). lia. }
  intros b w'' Hcall.
  destruct (decide (u = EmptyString)) as [->|Hne].
  { unfold Entity_call, Entity___new__, bind in Hcall. simpl in Hcall. discriminate. }
  set (w1 := mkWorld _ _ _ _) in *.
  destruct (cache w !! u) as [b0|] eqn:Hb0.
  - destruct (Hwf u b0 Hb0) as (x & o & Ho & Hx).
    assert (H1 : has_attrs w1 b0 x).
    { exists o. split; [|exact Hx]. simpl. apply lookup_app_l_Some. exact Ho. }
    rewrite (Entity_call_cached lims w1 cls u b0 x Hne Hb0 H1) in Hcall.
    inversion Hcall; subst. specialize (Hcached u b Hb0). lia.
  - rewrite (Entity_call_fresh lims w1 cls u Hne Hb0) in Hcall.
    inversion Hcall; subst. simpl. rewrite length_app. simpl. lia.
Qed.

End CreateProperties.

(** ** Setting items of a UDF dictionary *)

Section UdfSetProperties.

Variable py_float : string -> option string.
Variable py_strpdate : string -> option string.

Lemma doc_eq {V X A} (m : D A) (d : XmlDictionary V X) (root : Element) :
  doc m (d, root) = ((m root).1, (d, (m root).2)).
Proof. unfold doc, zoom. simpl. destruct (m root); reflexivity. Qed.

Lemma tag_alter_at g q c :
  (forall x, tag (g x) = tag x) -> tag (alter_at g q c) = tag c.
Proof. intros Hg. destruct q; simpl; auto. Qed.

Lemma has_tag_alter_at name g q c :
  (forall x, tag (g x) = tag x) -> has_tag name (alter_at g q c) = has_tag name c.
Proof. intros Hg. unfold has_tag. rewrite tag_alter_at; auto. Qed.

(** Editing at or below the end of a path, tags kept, does not move the
    path. *)
Lemma resolve_path_alter_below g keys :
  (forall x, tag (g x) = tag x) ->
  forall e p q, resolve_path keys e = Some p ->
                resolve_path keys (alter_at g (p ++ q) e) = Some p.
Proof.
  intros Hg. induction keys as [|k ks IH]; intros e p q; simpl.
  - intros [= <-]. reflexivity.
  - destruct (head (positions (has_tag k) (children e) 0)) as [i|] eqn:Hh; [|discriminate].
    destruct (children e !! i) as [c|] eqn:Hc; [|discriminate].
    destruct (resolve_path ks c) as [p'|] eqn:Hp; [|discriminate].
    simpl. intros [= <-]. simpl.
    rewrite positions_alter by (intros; apply has_tag_alter_at, Hg).
    rewrite Hh, list_lookup_alter_eq, Hc. simpl.
    rewrite (IH c p' q Hp). reflexivity.
Qed.

Lemma node_at_alter_below g p q e :
  node_at p (alter_at g (p ++ q) e) = alter_at g q <$> node_at p e.
Proof. rewrite alter_at_app. apply node_at_alter_at. Qed.

Lemma positions_ge {A} (P : A -> bool) (l : list A) k i :
  i ∈ positions P l k -> k <= i.
Proof.
  revert k. induction l as [|x l IH]; intros k; simpl; [intros H; inversion H|].
  destruct (P x).
  - intros H. apply elem_of_cons in H as [->|H]; [lia|]. apply IH in H. lia.
  - intros H. apply IH in H. lia.
Qed.

(** The elements at the positions found are the elements that satisfy
    [P], in order. *)
Lemma positions_filter {A} (P : A -> bool) (l : list A) k :
  (fun i => l !! (i - k)) <$> positions P l k
  = Some <$> filter (fun x => P x = true) l.
Proof.
  revert k. induction l as [|x l IH]; intros k; simpl; [reflexivity|].
  assert (Hrest : (fun i => (x :: l) !! (i - k)) <$> positions P l (S k)
                  = Some <$> filter (fun x => P x = true) l).
  { rewrite <- (IH (S k)). apply list_fmap_ext.
    intros j i Hi. assert (S k <= i).
    { eapply positions_ge. eapply list_elem_of_lookup_2. exact Hi. }
    replace (i - k) with (S (i - S k)) by lia. reflexivity. }
  rewrite filter_cons. destruct (P x) eqn:E.
  - rewrite decide_True by reflexivity. simpl. rewrite Nat.sub_diag. simpl.
    f_equal. exact Hrest.
  - rewrite decide_False by congruence. exact Hrest.
Qed.

Lemma positions_elements {A} (P : A -> bool) (l : list A) :
  Forall2 (fun i x => l !! i = Some x) (positions P l 0)
    (filter (fun x => P x = true) l).
Proof.
  pose proof (positions_filter P l 0) as H.
  remember (positions P l 0) as idx eqn:Eis. clear Eis.
  remember (filter (fun x => P x = true) l) as fs eqn:Efs. clear Efs.
  revert fs H. induction idx as [|i idx IH]; intros [|f fs]; simpl; try discriminate.
  - constructor.
  - intros [= Hi Hrest]. constructor; [rewrite Nat.sub_0_r in Hi; exact Hi|auto].
Qed.

Lemma doc_deref {V X} (d : XmlDictionary V X) root r :
  doc (deref r) (d, root)
  = (match node_at r root with Some n => Ok n | None => Raise Stuck end, (d, root)).
Proof. rewrite doc_eq. unfold deref. destruct (node_at r root); reflexivity. Qed.

Lemma doc_attrib_get_gen {V X} (d : XmlDictionary V X) root r k :
  doc (attrib_get r k) (d, root)
  = (match node_at r root with
     | Some f => match attrib f !! k with Some v => Ok v | None => Raise KeyError end
     | None => Raise Stuck
     end, (d, root)).
Proof.
  rewrite doc_eq. unfold attrib_get, bind, deref.
  destruct (node_at r root) as [f|]; [|reflexivity].
  destruct (attrib f !! k); reflexivity.
Qed.

Lemma doc_attrib_get {V X} (d : XmlDictionary V X) root r f k :
  node_at r root = Some f ->
  doc (attrib_get r k) (d, root)
  = (match attrib f !! k with Some v => Ok v | None => Raise KeyError end, (d, root)).
Proof. intros H. rewrite doc_attrib_get_gen, H. reflexivity. Qed.

Lemma node_at_child p i root n :
  node_at p root = Some n -> node_at (p ++ [i]) root = children n !! i.
Proof.
  intros H. rewrite node_at_app, H. simpl. destruct (children n !! i); reflexivity.
Qed.

Lemma mutate_spec p f root n :
  node_at p root = Some n -> mutate p f root = (Ok tt, alter_at f p root).
Proof. intros H. unfold mutate. rewrite H. reflexivity. Qed.

Lemma append_new_spec p c root n :
  node_at p root = Some n ->
  append_new p c root = (Ok (p ++ [length (children n)]), alter_at (ElementTree.append c) p root).
Proof.
  intros H. unfold append_new, bind, deref. rewrite H.
  rewrite (mutate_spec p _ root n H). reflexivity.
Qed.

Lemma fmap_Some_nil {A} (ns : list A) : [] = Some <$> ns -> ns = [].
Proof. destruct ns; [reflexivity|discriminate]. Qed.

(** The [for node in self._elems] loop of [_setitem], over field elements
    of the node [n] at [p] whose names are [ns]. *)
Lemma setitem_loop_spec key value (d : UdfDictionary) root p n :
  node_at p root = Some n ->
  forall idx fs ns,
    Forall2 (fun i f => children n !! i = Some f) idx fs ->
    (fun f => attrib f !! "name") <$> fs = Some <$> ns ->
    (key ∉ ns ->
       UdfDictionary__setitem_loop key value ((fun i => p ++ [i]) <$> idx) (d, root)
       = (Ok false, (d, root))) /\
    (key ∈ ns ->
       exists i f,
         children n !! i = Some f /\
         UdfDictionary__setitem_loop key value ((fun i => p ++ [i]) <$> idx) (d, root)
         = match attrib f !! "type" with
           | None => (Raise KeyError, (d, root))
           | Some ty =>
               match check_value (PyStr.lower ty) value with
               | Raise e => (Raise e, (d, root))
               | Ok v =>
                   (Ok true,
                    (d, alter_at (with_text (Some (encode_text v))) (p ++ [i]) root))
               end
           end).
Proof.
  intros Hn idx fs ns HF. revert ns.
  induction HF as [|i f idx fs Hi _ IH]; intros ns Hns.
  - apply fmap_Some_nil in Hns. subst ns. split; [reflexivity|].
    intros H. inversion H.
  - destruct ns as [|name ns]; [discriminate|]. simpl in Hns.
    injection Hns as Hname Hns.
    specialize (IH ns Hns). destruct IH as [IHno IHyes].
    assert (Hf : node_at (p ++ [i]) root = Some f).
    { rewrite (node_at_child p i root n Hn). exact Hi. }
    rewrite fmap_cons.
    assert (Hstep :
      UdfDictionary__setitem_loop key value
        ((p ++ [i]) :: ((fun i => p ++ [i]) <$> idx)) (d, root)
      = if decide (name <> key)
        then UdfDictionary__setitem_loop key value ((fun i => p ++ [i]) <$> idx) (d, root)
        else match attrib f !! "type" with
             | None => (Raise KeyError, (d, root))
             | Some ty =>
                 match check_value (PyStr.lower ty) value with
                 | Raise e => (Raise e, (d, root))
                 | Ok v =>
                     (Ok true,
                      (d, alter_at (with_text (Some (encode_text v))) (p ++ [i]) root))
                 end
             end).
    { cbn [UdfDictionary__setitem_loop]. unfold bind at 1.
      rewrite (doc_attrib_get d root _ f "name" Hf), Hname.
      destruct (decide (name <> key)); [reflexivity|].
      unfold bind at 1. rewrite (doc_attrib_get d root _ f "type" Hf).
      destruct (attrib f !! "type") as [ty|]; [|reflexivity].
      unfold bind at 1. unfold lift_result at 1.
      destruct (check_value (PyStr.lower ty) value) as [v|e]; [|reflexivity].
      unfold bind at 1. rewrite doc_eq. unfold mutate. rewrite Hf. reflexivity. }
    rewrite Hstep.
    destruct (decide (name <> key)) as [Hne|Heq].
    + split.
      * intros Hnot. apply IHno. intros Hin. apply Hnot. right. exact Hin.
      * intros Hin. apply elem_of_cons in Hin as [->|Hin]; [congruence|].
        apply IHyes, Hin.
    + assert (name = key) as -> by (destruct (decide (name = key)); [auto|contradiction]).
      split; [intros Hnot; exfalso; apply Hnot; left|].
      intros _. exists i, f. split; [exact Hi|reflexivity].
Qed.

Lemma fmap_filter_alter {A B} (P : A -> bool) (h : A -> B) (g : A -> A)
    (i : nat) (l : list A) :
  (forall x, P (g x) = P x) -> (forall x, h (g x) = h x) ->
  h <$> filter (fun x => P x = true) (alter g i l)
  = h <$> filter (fun x => P x = true) l.
Proof.
  intros HP Hh. revert i. induction l as [|x l IH]; intros [|i]; auto.
  - change (alter g 0 (x :: l)) with (g x :: l).
    rewrite !filter_cons, HP.
    destruct (decide (P x = true)); [rewrite !fmap_cons, Hh|]; reflexivity.
  - change (alter g (S i) (x :: l)) with (x :: alter g i l).
    rewrite !filter_cons.
    destruct (decide (P x = true)); [rewrite !fmap_cons; f_equal|]; apply IH.
Qed.

Lemma UdfDictionary_rootnode_present (d : UdfDictionary) root p :
  resolve_path (rootkeys (fields d)) root = Some p ->
  UdfDictionary_rootnode (d, root) = (Ok p, (d, root)).
Proof.
  intros H. unfold UdfDictionary_rootnode. rewrite doc_eq, Nestable_rootnode_spec.
  simpl. destruct (ensure_path_present _ _ _ H) as [-> ->]. reflexivity.
Qed.

(** A rescan of a dictionary declared without UDT support. *)
Lemma update_elems_spec (d : UdfDictionary) root p n :
  _udt (fields d) = UdtFlag false ->
  resolve_path (rootkeys (fields d)) root = Some p ->
  node_at p root = Some n ->
  UdfDictionary__update_elems (d, root)
  = (Ok tt,
     (mkXmlDictionary (items d)
        ((fun i => p ++ [i]) <$> positions (has_tag udf_field_tag) (children n) 0)
        (fields d), root)).
Proof.
  intros Hudt Hres Hn. unfold UdfDictionary__update_elems.
  unfold bind at 1. unfold set_elems at 1, modify at 1. simpl.
  unfold bind at 1. unfold self_udt at 1. simpl. rewrite Hudt. simpl.
  unfold bind at 1.
  rewrite (UdfDictionary_rootnode_present
             (mkXmlDictionary (items d) [] (fields d)) root p Hres).
  unfold bind at 1. rewrite doc_eq.
  unfold get_sub_nodes, bind, deref. rewrite Hn. reflexivity.
Qed.

(** [_parse_element] leaves the document and the cached elements alone,
    and enters at most the name of its element into the mapping. *)
Lemma parse_element_effect elem (d d' : UdfDictionary) root root' res :
  UdfDictionary__parse_element py_float py_strpdate elem (d, root) = (res, (d', root')) ->
  root' = root /\ _elems d' = _elems d /\ fields d' = fields d /\
  (items d' = items d \/
   exists e name v, node_at elem root = Some e /\ attrib e !! "name" = Some name /\
                    items d' = <[name := v]> (items d)).
Proof.
  unfold UdfDictionary__parse_element.
  unfold bind at 1. rewrite doc_attrib_get_gen.
  destruct (node_at elem root) as [e|] eqn:He.
  2:{ intros [= <- <- <-]. repeat split; auto. }
  destruct (attrib e !! "type") as [ty|].
  2:{ intros [= <- <- <-]. repeat split; auto. }
  unfold bind at 1. rewrite doc_deref, He.
  unfold bind at 1. unfold lift_result at 1.
  destruct (parse_value py_float py_strpdate (PyStr.lower ty) (text e)) as [v|err].
  2:{ intros [= <- <- <-]. repeat split; auto. }
  unfold bind at 1. rewrite (doc_attrib_get d root elem e "name" He).
  destruct (attrib e !! "name") as [name|] eqn:Hname.
  2:{ intros [= <- <- <-]. repeat split; auto. }
  unfold dict___setitem__, set_items, modify. simpl.
  intros [= <- <- <-]. simpl. repeat split; auto.
  right. exists e, name, v. auto.
Qed.

(** [_prepare_lookup] over elements whose names are keys already. *)
Lemma prepare_lookup_dom elems :
  forall (d d' : UdfDictionary) root root' res,
    for_each elems (UdfDictionary__parse_element py_float py_strpdate) (d, root)
      = (res, (d', root')) ->
    (forall elem e name, elem ∈ elems -> node_at elem root = Some e ->
        attrib e !! "name" = Some name -> name ∈ dom (items d)) ->
    root' = root /\ _elems d' = _elems d /\ fields d' = fields d /\
    dom (items d') = dom (items d).
Proof.
  induction elems as [|elem elems IH]; intros d d' root root' res; simpl.
  - intros [= <- <- <-]. auto.
  - unfold bind at 1.
    destruct (UdfDictionary__parse_element py_float py_strpdate elem (d, root))
      as [r1 [d1 root1]] eqn:E1.
    destruct (parse_element_effect _ _ _ _ _ _ E1) as (-> & Hel1 & Hf1 & Hit1).
    intros Hrest Hnames.
    assert (Hdom1 : dom (items d1) = dom (items d)).
    { destruct Hit1 as [->|(e & name & v & He & Hname & ->)]; [reflexivity|].
      rewrite dom_insert_L.
      apply subseteq_union_1_L, singleton_subseteq_l.
      eapply Hnames; eauto. left. }
    destruct r1 as [[]|err].
    + destruct (IH d1 d' root root' res Hrest) as (-> & Hel & Hf & Hdom).
      { intros el e name Hin He Hname. rewrite Hdom1. eapply Hnames; eauto. right. exact Hin. }
      repeat split; congruence.
    + injection Hrest as <- <- <-. auto.
Qed.

Lemma udf_field_name vtype key :
  (list_to_map [("type", vtype); ("name", key)] : gmap string string) !! "name" = Some key.
Proof.
  simpl. rewrite lookup_insert_ne by discriminate. apply lookup_insert_eq.
Qed.

(** Setting an item that returns normally keeps the dictionary and the
    document in step. *)
Theorem setitem_keeps_sync key value (d d' : UdfDictionary) root root' :
  udf_in_sync d root ->
  UdfDictionary___setitem__ py_float py_strpdate key value (d, root)
    = (Ok tt, (d', root')) ->
  udf_in_sync d' root'.
Proof.
  intros (Hudt & p & n & names & Hres & Hn & Hel & Hnames & Hnd & Hdom).
  unfold UdfDictionary___setitem__, XmlDictionary___setitem__.
  unfold bind at 1. unfold dict___setitem__, set_items, modify. simpl.
  set (d1 := mkXmlDictionary (<[key:=value]> (items d)) (_elems d) (fields d)).
  unfold UdfDictionary__setitem. unfold bind at 1. unfold self_elems at 1. simpl.
  rewrite Hel.
  destruct (setitem_loop_spec key value d1 root p n Hn _ _ names
              (positions_elements _ _) Hnames) as [Hno Hyes].
  destruct (decide (key ∈ names)) as [Hin|Hnin].
  - (* the key has its element: the text of that element changes *)
    destruct (Hyes Hin) as (i & f & Hi & Hloop). unfold bind at 1. rewrite Hloop.
    destruct (attrib f !! "type") as [ty|]; [|discriminate].
    destruct (check_value (PyStr.lower ty) value) as [v|e]; [|discriminate].
    intros [= <- <-].
    set (g := with_text (Some (encode_text v))).
    assert (Hg : forall x, tag (g x) = tag x) by reflexivity.
    split; [exact Hudt|].
    exists p, (alter_at g [i] n), names.
    split; [apply (resolve_path_alter_below g _ Hg root p [i] Hres)|].
    split; [rewrite node_at_alter_below, Hn; reflexivity|].
    split.
    { simpl. rewrite positions_alter by (intros; reflexivity). exact Hel. }
    split.
    { simpl. rewrite fmap_filter_alter by (intros; reflexivity). exact Hnames. }
    split; [exact Hnd|].
    simpl. rewrite dom_insert_L, Hdom.
    apply subseteq_union_1_L, singleton_subseteq_l.
    apply elem_of_list_to_set. exact Hin.
  - (* a new key: a new element is appended, then the dictionary rescans *)
    unfold bind at 1. rewrite (Hno Hnin).
    unfold bind at 1. unfold lift_result at 1.
    destruct (infer_type value) as [[vtype v]|e]; [|discriminate].
    unfold bind at 1. unfold self_udt at 1. simpl. rewrite Hudt. simpl.
    unfold bind at 1. unfold bind at 1.
    rewrite (UdfDictionary_rootnode_present d1 root p Hres).
    unfold ret at 1.
    set (new0 := with_attrib (list_to_map [("type", vtype); ("name", key)])
                   (Element_ udf_field_tag)).
    set (new1 := with_text (Some (encode_text v)) new0).
    set (g := fun e => with_children (children e ++ [new1]) e).
    assert (Hg : forall x, tag (g x) = tag x) by reflexivity.
    set (root2 := alter_at g p root).
    assert (Hsub : (elem <- doc (SubElement (Some p) udf_field_tag
                                   [("type", vtype); ("name", key)]) ;;
                    doc (mutate elem (with_text (Some (encode_text v))))) (d1, root)
                   = (Ok tt, (d1, root2))).
    { unfold bind at 1. rewrite doc_eq. unfold SubElement.
      rewrite (append_new_spec p _ root n Hn). simpl.
      rewrite doc_eq.
      assert (Hnew : node_at (p ++ [length (children n)])
                       (alter_at (ElementTree.append new0) p root) = Some new0).
      { rewrite (node_at_child p _ _ (ElementTree.append new0 n))
          by (rewrite node_at_alter_at, Hn; reflexivity).
        simpl. rewrite lookup_app_r by lia. rewrite Nat.sub_diag. reflexivity. }
      rewrite (mutate_spec _ _ _ new0 Hnew). simpl.
      f_equal. f_equal. unfold root2.
      rewrite alter_at_app, alter_at_compose.
      eapply alter_at_ext_at; eauto.
      unfold g, new1, ElementTree.append, with_children. simpl. f_equal.
      rewrite alter_app_r_alt by lia. rewrite Nat.sub_diag. reflexivity. }
    unfold bind at 1.
    match goal with
    | |- context [doc (SubElement ?a ?b ?c) ?s] =>
        destruct (doc (SubElement a b c) s) as [[elem|e] s1] eqn:Esub
    end.
    2:{ unfold bind in Hsub. rewrite Esub in Hsub. discriminate. }
    unfold bind at 1.
    unfold bind in Hsub. rewrite Esub in Hsub. rewrite Hsub.
    assert (Hres2 : resolve_path (rootkeys (fields d1)) root2 = Some p).
    { unfold root2. rewrite <- (app_nil_r p) at 1.
      apply (resolve_path_alter_below g _ Hg root p [] Hres). }
    assert (Hn2 : node_at p root2 = Some (g n)).
    { unfold root2. rewrite node_at_alter_at, Hn. reflexivity. }
    unfold bind at 1.
    rewrite (update_elems_spec d1 root2 p (g n) Hudt Hres2 Hn2).
    unfold UdfDictionary__prepare_lookup, XmlDictionary__prepare_lookup.
    unfold bind at 1. unfold self_elems at 1. simpl.
    set (d2 := mkXmlDictionary (<[key:=value]> (items d)) _ (fields d)).
    intros Hprep.
    assert (Hnames2 :
      (fun f => attrib f !! "name")
        <$> filter (fun f => has_tag udf_field_tag f = true) (children n ++ [new1])
      = Some <$> (names ++ [key])).
    { rewrite filter_app, !fmap_app, Hnames. f_equal. }
    destruct (prepare_lookup_dom _ d2 d' root2 root' (Ok tt) Hprep)
      as (-> & Hel' & Hf' & Hdom').
    { intros elem0 e0 name0 Hin0 He0 Hname0.
      apply list_elem_of_fmap in Hin0 as (j & -> & Hj).
      rewrite (node_at_child p j root2 (g n) Hn2) in He0.
      pose proof (positions_elements (has_tag udf_field_tag) (children (g n))) as HF.
      apply list_elem_of_lookup in Hj as (k & Hk).
      destruct (Forall2_lookup_l _ _ _ _ _ HF Hk) as (f0 & Hf0 & Hjf).
      rewrite Hjf in He0. inversion He0; subst f0.
      assert (Hin' : Some name0 ∈ (fun f => attrib f !! "name")
                       <$> filter (fun f => has_tag udf_field_tag f = true)
                             (children (g n))).
      { rewrite <- Hname0. apply list_elem_of_fmap. exists e0. split; [reflexivity|].
        eapply list_elem_of_lookup_2. exact Hf0. }
      simpl in Hin'. rewrite Hnames2 in Hin'.
      apply list_elem_of_fmap in Hin' as (nm & [= <-] & Hnm).
      simpl. rewrite dom_insert_L, Hdom.
      apply elem_of_app in Hnm as [Hnm|Hnm].
      - apply elem_of_union_r, elem_of_list_to_set, Hnm.
      - apply list_elem_of_singleton in Hnm as ->.
        apply elem_of_union_l, elem_of_singleton. reflexivity. }
    split; [rewrite Hf'; exact Hudt|].
    exists p, (g n), (names ++ [key]).
    split; [rewrite Hf'; exact Hres2|].
    split; [exact Hn2|].
    split; [rewrite Hel'; reflexivity|].
    split; [exact Hnames2|].
    split.
    { apply NoDup_app. split; [exact Hnd|]. split; [|apply NoDup_singleton].
      intros x Hx Hx'. apply list_elem_of_singleton in Hx' as ->. contradiction. }
    rewrite Hdom'. simpl. rewrite dom_insert_L, Hdom, list_to_set_app_L. simpl.
    rewrite union_empty_r_L. apply union_comm_L.
Qed.

(** In step, the mapping has one key per backing element, and the names
    of the backing elements are pairwise distinct. *)
Lemma udf_in_sync_counts (d : UdfDictionary) root :
  udf_in_sync d root ->
  size (items d) = length (backing_fields d root) /\ NoDup (backing_names d root).
Proof.
  intros (Hudt & p & n & names & Hres & Hn & Hel & Hnames & Hnd & Hdom).
  unfold backing_names, backing_fields. rewrite Hres. simpl. rewrite Hn, Hudt. simpl.
  split.
  - rewrite <- size_dom, Hdom, size_list_to_set by exact Hnd.
    rewrite <- (length_fmap Some names), <- Hnames, length_fmap. reflexivity.
  - rewrite Hnames. apply NoDup_fmap; [intros x y [= ->]; reflexivity|exact Hnd].
Qed.

Lemma resolve_path_node keys :
  forall e p, resolve_path keys e = Some p -> exists n, node_at p e = Some n.
Proof.
  induction keys as [|k ks IH]; intros e p; simpl.
  - intros [= <-]. eauto.
  - destruct (head (positions (has_tag k) (children e) 0)) as [i|]; [|discriminate].
    destruct (children e !! i) as [c|] eqn:Hc; [|discriminate].
    destruct (resolve_path ks c) as [q|] eqn:Hq; [|discriminate].
    simpl. intros [= <-]. simpl. rewrite Hc. eapply IH; eauto.
Qed.

(** [_parse_element] that returns normally enters the name of its element. *)
Lemma parse_element_Ok elem (d d' : UdfDictionary) root root' :
  UdfDictionary__parse_element py_float py_strpdate elem (d, root) = (Ok tt, (d', root')) ->
  exists e name v, node_at elem root = Some e /\ attrib e !! "name" = Some name /\
                   items d' = <[name := v]> (items d).
Proof.
  unfold UdfDictionary__parse_element.
  unfold bind at 1. rewrite doc_attrib_get_gen.
  destruct (node_at elem root) as [e|] eqn:He; [|discriminate].
  destruct (attrib e !! "type") as [ty|]; [|discriminate].
  unfold bind at 1. rewrite doc_deref, He.
  unfold bind at 1. unfold lift_result at 1.
  destruct (parse_value py_float py_strpdate (PyStr.lower ty) (text e)) as [v|err];
    [|discriminate].
  unfold bind at 1. rewrite (doc_attrib_get d root elem e "name" He).
  destruct (attrib e !! "name") as [name|] eqn:Hname; [|discriminate].
  unfold dict___setitem__, set_items, modify. simpl.
  intros [= <- <-]. exists e, name, v. auto.
Qed.

(** [_prepare_lookup] that returns normally enters the name of every
    cached element. *)
Lemma prepare_lookup_Ok elems :
  forall (d d' : UdfDictionary) root root',
    for_each elems (UdfDictionary__parse_element py_float py_strpdate) (d, root)
      = (Ok tt, (d', root')) ->
    root' = root /\ _elems d' = _elems d /\ fields d' = fields d /\
    exists ns,
      Forall2 (fun elem name =>
                 exists e, node_at elem root = Some e /\ attrib e !! "name" = Some name)
        elems ns /\
      dom (items d') = dom (items d) ∪ list_to_set ns.
Proof.
  induction elems as [|elem elems IH]; intros d d' root root'; simpl.
  - intros [= <- <-]. repeat split; auto. exists []. split; [constructor|].
    simpl. rewrite union_empty_r_L. reflexivity.
  - unfold bind at 1.
    destruct (UdfDictionary__parse_element py_float py_strpdate elem (d, root))
      as [r1 [d1 root1]] eqn:E1.
    destruct (parse_element_effect _ _ _ _ _ _ E1) as (-> & Hel1 & Hf1 & _).
    destruct r1 as [[]|err]; [|discriminate].
    destruct (parse_element_Ok _ _ _ _ _ E1) as (e & name & v & He & Hname & Hit).
    intros Hrest.
    destruct (IH d1 d' root root' Hrest) as (-> & Hel & Hf & ns & HF & Hdom).
    repeat split; try congruence.
    exists (name :: ns). split; [constructor; eauto|].
    rewrite Hdom, Hit, dom_insert_L. simpl.
    rewrite (union_comm_L {[name]} (dom (items d))), <- union_assoc_L. reflexivity.
Qed.

Lemma names_of_refs p root n :
  node_at p root = Some n ->
  forall idx fs ns,
    Forall2 (fun i f => children n !! i = Some f) idx fs ->
    Forall2 (fun elem name =>
               exists e, node_at elem root = Some e /\ attrib e !! "name" = Some name)
      ((fun i => p ++ [i]) <$> idx) ns ->
    (fun f => attrib f !! "name") <$> fs = Some <$> ns.
Proof.
  intros Hn idx fs ns HP. revert ns.
  induction HP as [|i f idx fs Hi _ IH]; intros ns HF.
  - inversion HF. reflexivity.
  - rewrite fmap_cons in HF.
    inversion HF as [|? nm ? ns' (e & He & Hnm) HF']; subst.
    rewrite (node_at_child p i root n Hn), Hi in He. inversion He; subst e.
    simpl. rewrite Hnm. f_equal. apply IH, HF'.
Qed.

(** Constructing a dictionary without UDT support over a document whose
    field elements have distinct names puts it in step with the document. *)
Theorem init_in_sync nesting (d : UdfDictionary) root root' :
  UdfDictionary_call py_float py_strpdate nesting (UdtFlag false) root
    = (Ok tt, (d, root')) ->
  NoDup (backing_names d root') ->
  udf_in_sync d root'.
Proof.
  unfold UdfDictionary_call, UdfDictionary___init__, XmlDictionary___init__.
  unfold bind at 1. unfold modify at 1. simpl.
  unfold bind at 1. unfold dict_clear at 1, set_items at 1, modify at 1. simpl.
  set (keys := default [] nesting).
  set (d0 := mkXmlDictionary ∅ [] (mkUdfFields keys (UdtFlag false))).
  assert (Hup : exists n,
            node_at (nested_ref keys root) (ensure_path keys root) = Some n /\
            UdfDictionary__update_elems (d0, root)
            = (Ok tt,
               (mkXmlDictionary ∅
                  ((fun i => nested_ref keys root ++ [i])
                     <$> positions (has_tag udf_field_tag) (children n) 0)
                  (mkUdfFields keys (UdtFlag false)), ensure_path keys root))).
  { destruct (resolve_path_node keys _ _ (resolve_ensure_path keys root)) as (n & Hn).
    exists n. split; [exact Hn|].
    unfold UdfDictionary__update_elems.
    unfold bind at 1. unfold set_elems at 1, modify at 1. simpl.
    unfold bind at 1. unfold self_udt at 1. simpl.
    unfold bind at 1. unfold UdfDictionary_rootnode at 1.
    rewrite doc_eq, Nestable_rootnode_spec. simpl.
    unfold bind at 1. rewrite doc_eq.
    unfold get_sub_nodes, bind, deref. rewrite Hn. reflexivity. }
  destruct Hup as (n & Hn & Hup).
  unfold bind at 1. rewrite Hup.
  unfold XmlDictionary__prepare_lookup. unfold bind at 1. unfold self_elems at 1. simpl.
  intros Hprep Hnd.
  destruct (prepare_lookup_Ok _ _ _ _ _ Hprep) as (-> & Hel & Hf & ns & HF & Hdom).
  simpl in *.
  pose proof (resolve_ensure_path keys root) as Hres.
  assert (Hnames : (fun f => attrib f !! "name")
                     <$> filter (fun f => has_tag udf_field_tag f = true) (children n)
                   = Some <$> ns).
  { eapply names_of_refs; [exact Hn|apply positions_elements|exact HF]. }
  assert (Hbn : backing_names d (ensure_path keys root) = Some <$> ns).
  { unfold backing_names, backing_fields. rewrite Hf. simpl.
    rewrite Hres. simpl. rewrite Hn. exact Hnames. }
  rewrite Hbn in Hnd. apply NoDup_fmap in Hnd; [|intros x y [= ->]; reflexivity].
  split; [rewrite Hf; reflexivity|].
  exists (nested_ref keys root), n, ns.
  rewrite Hf. simpl.
  split; [exact Hres|]. split; [exact Hn|]. split; [exact Hel|].
  split; [exact Hnames|]. split; [exact Hnd|].
  rewrite Hdom. simpl. rewrite dom_empty_L, union_empty_l_L. reflexivity.
Qed.

(** After any sequence of set-item operations that return normally, on a
    dictionary in step with its document, the number of backing field
    elements equals the number of keys and the names of the backing elements
    are pairwise distinct. *)
Theorem setitems_keep_counts (ops : list (string * PyValue)) :
  forall (d d' : UdfDictionary) root root',
    udf_in_sync d root ->
    set_items_script py_float py_strpdate ops (d, root) = (Ok tt, (d', root')) ->
    udf_in_sync d' root' /\
    size (items d') = length (backing_fields d' root') /\
    NoDup (backing_names d' root').
Proof.
  induction ops as [|[key value] ops IH]; intros d d' root root' Hsync; simpl.
  - intros [= <- <-]. split; [exact Hsync|]. apply udf_in_sync_counts, Hsync.
  - unfold set_items_script. simpl. unfold bind at 1.
    destruct (UdfDictionary___setitem__ py_float py_strpdate key value (d, root))
      as [[[]|e] [d1 root1]] eqn:E1; [|discriminate].
    intros Hrest. apply (IH d1 d' root1 root'); [|exact Hrest].
    eapply setitem_keeps_sync; eauto.
Qed.

End UdfSetProperties.

(** ** [Process.all_inputs] and the error log *)

Section LogFacts.

Lemma keeps_log_ret {A} (a : A) : keeps_log (ret a).
Proof. intros w. reflexivity. Qed.

Lemma keeps_log_raise {A} e : keeps_log (@raise World A e).
Proof. intros w. reflexivity. Qed.

Lemma keeps_log_lift_result {A} (r : result A) : keeps_log (lift_result r).
Proof. intros w. reflexivity. Qed.

Lemma keeps_log_get_state : keeps_log get_state.
Proof. intros w. reflexivity. Qed.

Lemma keeps_log_modify (f : World -> World) :
  (forall w, error_log (f w) = error_log w) -> keeps_log (modify f).
Proof. intros H w. apply H. Qed.

Lemma keeps_log_bind {A B} (m : W A) (k : A -> W B) :
  keeps_log m -> (forall a, keeps_log (k a)) -> keeps_log (bind m k).
Proof.
  intros Hm Hk w. unfold bind. specialize (Hm w).
  destruct (m w) as [[a|e] w1]; simpl in *; [rewrite Hk|]; exact Hm.
Qed.

Lemma keeps_log_try_except {A} (m h : W A) e :
  keeps_log m -> keeps_log h -> keeps_log (try_except m e h).
Proof.
  intros Hm Hh w. unfold try_except. specialize (Hm w).
  destruct (m w) as [[a|e'] w1]; simpl in *; [exact Hm|].
  destruct (decide (e' = e)); simpl; [rewrite Hh|]; exact Hm.
Qed.

Lemma keeps_log_map_m {A B} (f : A -> W B) (l : list A) :
  (forall a, keeps_log (f a)) -> keeps_log (map_m f l).
Proof.
  intros Hf. induction l as [|a l IH]; simpl; [apply keeps_log_ret|].
  apply keeps_log_bind; [apply Hf|]. intros b.
  apply keeps_log_bind; [apply IH|]. intros bs. apply keeps_log_ret.
Qed.

Lemma keeps_log_fold_m {A B} (f : B -> A -> W B) (l : list A) :
  (forall b a, keeps_log (f b a)) -> forall b, keeps_log (fold_m f l b).
Proof.
  intros Hf. induction l as [|a l IH]; intros b; simpl; [apply keeps_log_ret|].
  apply keeps_log_bind; [apply Hf|]. intros b'. apply IH.
Qed.

Lemma keeps_log_object_at a : keeps_log (object_at a).
Proof. intros w. unfold object_at. destruct (heap w !! a); reflexivity. Qed.

Lemma keeps_log_object_new cls : keeps_log (object_new cls).
Proof. intros w. reflexivity. Qed.

End LogFacts.

Create HintDb keeps_log.
#[global] Hint Resolve keeps_log_ret keeps_log_raise keeps_log_lift_result
  keeps_log_get_state keeps_log_object_at keeps_log_object_new : keeps_log.

(** Decompose a computation into its steps and discharge each. *)
Ltac keeps_log_steps :=
  repeat first
    [ progress intros
    | apply keeps_log_bind
    | apply keeps_log_try_except
    | apply keeps_log_map_m
    | apply keeps_log_fold_m
    | apply keeps_log_modify; intros; reflexivity
    | solve [auto with keeps_log]
    | match goal with
      | |- keeps_log (match ?x with _ => _ end) => destruct x
      | |- keeps_log (if ?x then _ else _) => destruct x
      | |- keeps_log (let '(_, _) := ?x in _) => destruct x
      end ].

Section AllInputsProperties.

Variable lims : Lims.

Lemma keeps_log_attrs_of a : keeps_log (attrs_of a).
Proof. unfold attrs_of. keeps_log_steps. Qed.

Lemma keeps_log_set_attrs a x : keeps_log (set_attrs a x).
Proof. unfold set_attrs. keeps_log_steps. Qed.

Lemma keeps_log_set_root a r : keeps_log (set_root a r).
Proof. unfold set_root. keeps_log_steps. Qed.

Lemma keeps_log_Entity_uri a : keeps_log (Entity_uri a).
Proof. unfold Entity_uri. keeps_log_steps. Qed.

Lemma keeps_log_transport_get u : keeps_log (transport_get lims u).
Proof. unfold transport_get. keeps_log_steps. Qed.

Hint Resolve keeps_log_attrs_of keeps_log_set_attrs keeps_log_set_root
  keeps_log_Entity_uri keeps_log_transport_get : keeps_log.

Lemma keeps_log_on_root {A} a (m : D A) : keeps_log (on_root a m).
Proof. unfold on_root. keeps_log_steps. Qed.

Lemma keeps_log_Entity_get a force : keeps_log (Entity_get lims a force).
Proof. unfold Entity_get. keeps_log_steps. Qed.

Lemma keeps_log_Entity_call cls uri id cn : keeps_log (Entity_call lims cls uri id cn).
Proof.
  unfold Entity_call, Entity___new__, Entity___init__. keeps_log_steps.
Qed.

Hint Resolve keeps_log_on_root keeps_log_Entity_get keeps_log_Entity_call : keeps_log.

Lemma keeps_log_get_dict a node : keeps_log (InputOutputMapList_get_dict lims a node).
Proof. unfold InputOutputMapList_get_dict. keeps_log_steps. Qed.

Hint Resolve keeps_log_get_dict : keeps_log.

Lemma keeps_log_input_output_maps keys a :
  keeps_log (InputOutputMapList___get__ lims keys a).
Proof. unfold InputOutputMapList___get__. keeps_log_steps. Qed.

Lemma keeps_log_Artifact_by_id v : keeps_log (Artifact_by_id lims v).
Proof. unfold Artifact_by_id. keeps_log_steps. Qed.

Lemma map_m_input_limsid {S} maps (s : S) :
  map_m input_limsid maps s = (limsids maps, s).
Proof.
  induction maps as [|io rest IH]; simpl; [reflexivity|].
  unfold bind at 1. unfold input_limsid at 1.
  destruct (io.1) as [d|]; [|reflexivity].
  destruct (d !! "limsid") as [v|]; [|reflexivity].
  unfold ret at 1. unfold bind. rewrite IH.
  destruct (limsids rest); reflexivity.
Qed.

(** An entry without input, after entries that have an input with a
    limsid, makes the comprehension raise [TypeError]. *)
Lemma limsids_no_input pre o post :
  Forall (fun io => exists d, io.1 = Some d /\ is_Some (d !! "limsid")) pre ->
  limsids (pre ++ (None, o) :: post) = Raise TypeError.
Proof.
  induction 1 as [|io pre (d & Hd & v & Hv) _ IH]; simpl; [reflexivity|].
  rewrite Hd, Hv, IH. reflexivity.
Qed.

(** When every entry has its input the comprehension cannot raise
    [TypeError]. *)
Lemma limsids_with_inputs maps :
  Forall (fun io => is_Some io.1) maps -> limsids maps <> Raise TypeError.
Proof.
  induction 1 as [|io maps (d & Hd) _ IH]; simpl; [discriminate|].
  rewrite Hd. destruct (d !! "limsid"); [|discriminate].
  destruct (limsids maps) as [l|e]; [discriminate|]. congruence.
Qed.

(** [get_dict] returns [None] for a missing element only. *)
Lemma get_dict_None instance w :
  InputOutputMapList_get_dict lims instance None w = (Ok None, w).
Proof. reflexivity. Qed.

Lemma get_dict_Some instance node w w' :
  InputOutputMapList_get_dict lims instance (Some node) w <> (Ok None, w').
Proof.
  unfold InputOutputMapList_get_dict. unfold bind at 1.
  destruct (fold_m _ _ _ w) as [[result|e] w1]; [|discriminate].
  unfold bind at 1.
  destruct (on_root instance (get_sub_node node "parent-process") w1) as [[[n|]|e] w2];
    try discriminate.
  unfold bind at 1.
  destruct (on_root instance (attrib_get n "uri") w2) as [[u|e] w3]; [|discriminate].
  unfold bind at 1.
  destruct (Entity_call lims Process (Some u) None false w3) as [[p|e] w4]; discriminate.
Qed.

(** C9, amended.  Let the input/output maps of a process be read without
    error.  If some entry has no input dictionary (its [input] element is
    missing) and every entry before it has an input with a limsid,
    [all_inputs()] logs an error and raises [TypeError].  If every entry has
    its input dictionary, nothing is logged; in particular, with no entry at
    all, [all_inputs()] returns the empty list. *)
Theorem all_inputs_error_path :
  forall (self : addr) (unique : bool) (w w1 : World)
         (maps : list (option (gmap string IOValue) * option (gmap string IOValue))),
    InputOutputMapList___get__ lims [] self w = (Ok maps, w1) ->
    error_log w1 = error_log w /\
    (forall pre o post,
        maps = pre ++ (None, o) :: post ->
        Forall (fun io => exists d, io.1 = Some d /\ is_Some (d !! "limsid")) pre ->
        Process_all_inputs lims self unique false w =
          (Raise TypeError, with_error_log (error_log w ++ ["Process "]) w1)) /\
    (Forall (fun io => is_Some io.1) maps ->
        error_log (Process_all_inputs lims self unique false w).2 = error_log w) /\
    (maps = [] -> Process_all_inputs lims self unique false w = (Ok [], w1)).
Proof.
  intros self unique w w1 maps Hget.
  assert (Hlog : error_log w1 = error_log w).
  { pose proof (keeps_log_input_output_maps [] self w) as H.
    rewrite Hget in H. exact H. }
  assert (Hids : forall h,
            try_except (maps <- InputOutputMapList___get__ lims [] self ;;
                        map_m input_limsid maps) TypeError h w
            = match limsids maps with
              | Raise TypeError => h w1
              | r => (r, w1)
              end).
  { intros h. unfold try_except, bind. rewrite Hget, map_m_input_limsid.
    destruct (limsids maps) as [l|e]; [reflexivity|]. destruct e; reflexivity. }
  split; [exact Hlog|]. split; [|split].
  - intros pre o post -> Hpre.
    unfold Process_all_inputs. unfold bind at 1. rewrite Hids.
    rewrite (limsids_no_input pre o post Hpre).
    unfold bind, logger_error, modify, raise. simpl. rewrite Hlog. reflexivity.
  - intros Hall.
    unfold Process_all_inputs. unfold bind at 1. rewrite Hids.
    pose proof (limsids_with_inputs maps Hall) as Hne.
    destruct (limsids maps) as [ids|e].
    + rewrite <- Hlog.
      assert (K : keeps_log (arts <- map_m (Artifact_by_id lims)
                                       (if unique then remove_dups ids else ids) ;; ret arts)).
      { apply keeps_log_bind; [apply keeps_log_map_m, keeps_log_Artifact_by_id|].
        intros; apply keeps_log_ret. }
      apply K.
    + destruct e; try (simpl; exact Hlog). congruence.
  - intros ->.
    unfold Process_all_inputs. unfold bind at 1. rewrite Hids. simpl.
    destruct unique; reflexivity.
Qed.

End AllInputsProperties.

(** ** Attribute lists: construction, [append], [extend], [+=] and [insert] *)

Section AttributeListProperties.

Lemma ldoc_fetched {A} (m : D A) l w x r :
  has_attrs w (l_instance l) x -> root x = Some r ->
  ldoc m (l, w) = ((m r).1, (l, world_with_root w (l_instance l) (m r).2)).
Proof.
  intros H Hr. unfold ldoc, bind, self_, world, zoom. simpl.
  rewrite (on_root_fetched m w _ x r H Hr). reflexivity.
Qed.

Lemma List_rootnode_rooted l w r p n :
  list_rooted l w r p n -> List_rootnode (l, w) = (Ok p, (l, w)).
Proof.
  intros ((x & H & Hr) & Hres & Hn). unfold List_rootnode, bind, self_. simpl.
  rewrite (ldoc_fetched _ l w x r H Hr), Nestable_rootnode_spec. simpl.
  destruct (ensure_path_present _ _ _ Hres) as [-> ->].
  rewrite (world_with_root_same w _ x r H Hr). reflexivity.
Qed.

Lemma list_rooted_edit l w r p n g :
  (forall e, tag (g e) = tag e) ->
  list_rooted l w r p n ->
  list_rooted l (world_with_root w (l_instance l) (alter_at g p r)) (alter_at g p r) p (g n).
Proof.
  intros Hg ((x & H & Hr) & Hres & Hn). split; [|split].
  - exists (mkAttrs (_uri x) (Some (alter_at g p r))). split; [|reflexivity].
    apply world_with_root_has_attrs, H.
  - rewrite <- (app_nil_r p) at 1. apply resolve_path_alter_below; auto.
  - rewrite node_at_alter_at, Hn. reflexivity.
Qed.

(** One [_additem] of a dict: the new element is appended to the nested
    root node. *)
Lemma AttributeList_additem_rooted l w r p n d :
  list_rooted l w r p n ->
  let g := ElementTree.append (attribute_node (l_tag l) d) in
  XmlList__additem List_rootnode AttributeList__create_new_node (LDict d) (l, w)
  = (Ok tt, (l, world_with_root w (l_instance l) (alter_at g p r))).
Proof.
  intros Hroot g. pose proof Hroot as ((x & H & Hr) & Hres & Hn).
  cbv [XmlList__additem AttributeList__create_new_node bind self_ ret fst].
  rewrite (List_rootnode_rooted l w r p n Hroot).
  rewrite (ldoc_fetched _ l w x r H Hr), (mutate_spec p _ r n Hn). reflexivity.
Qed.

(** The [_additem] loop of [extend] and [+=] over dicts. *)
Lemma AttributeList_additems_rooted ds :
  forall l w r p n,
    list_rooted l w r p n ->
    exists w' r',
      for_each (LDict <$> ds)
        (XmlList__additem List_rootnode AttributeList__create_new_node) (l, w)
      = (Ok tt, (l, w')) /\
      list_rooted l w' r' p
        (with_children (children n ++ (attribute_node (l_tag l) <$> ds)) n).
Proof.
  induction ds as [|d ds IH]; intros l w r p n Hroot; simpl.
  - exists w, r. split; [reflexivity|].
    rewrite app_nil_r. destruct n; exact Hroot.
  - unfold bind at 1. rewrite (AttributeList_additem_rooted l w r p n d Hroot).
    set (g := ElementTree.append (attribute_node (l_tag l) d)).
    assert (Hg : forall e, tag (g e) = tag e) by reflexivity.
    destruct (IH l _ _ p (g n) (list_rooted_edit l w r p n g Hg Hroot)) as (w' & r' & Hloop & Hr').
    exists w', r'. split; [exact Hloop|].
    unfold g, ElementTree.append, with_children in Hr'. simpl in Hr'.
    rewrite <- app_assoc in Hr'. exact Hr'.
Qed.

(** A rescan of a rooted list. *)
Lemma TagXmlList_update_elems_rooted l w r p n :
  list_rooted l w r p n ->
  TagXmlList__update_elems (l, w)
  = (Ok tt,
     (with_l_elems ((fun i => p ++ [i]) <$> positions (has_tag (l_tag l)) (children n) 0) l,
      w)).
Proof.
  intros Hroot. pose proof Hroot as ((x & H & Hr) & Hres & Hn).
  unfold TagXmlList__update_elems. unfold bind at 1. unfold modify at 1. simpl.
  assert (Hroot0 : list_rooted (with_l_elems [] l) w r p n) by exact Hroot.
  unfold bind at 1. rewrite (List_rootnode_rooted _ w r p n Hroot0).
  unfold bind at 1, self_ at 1. simpl.
  unfold bind at 1. rewrite (ldoc_fetched _ (with_l_elems [] l) w x r H Hr).
  unfold get_sub_nodes, bind, deref. rewrite Hn. simpl.
  rewrite (world_with_root_same w _ x r H Hr). reflexivity.
Qed.

Lemma filter_tagged_app tag (cs : list Element) (ds : list (gmap string string)) :
  filter (fun e => has_tag tag e = true) (cs ++ (attribute_node tag <$> ds))
  = filter (fun e => has_tag tag e = true) cs ++ (attribute_node tag <$> ds).
Proof.
  rewrite filter_app. f_equal.
  induction ds as [|d ds IH]; [reflexivity|].
  rewrite fmap_cons, filter_cons, decide_True.
  - f_equal. exact IH.
  - unfold has_tag. apply bool_decide_eq_true_2. reflexivity.
Qed.

(** [extend] and [+=] with dicts on an attribute list in step with its
    document succeed and keep it in step: the new entries follow the old ones,
    in the list and in the document. *)
Theorem AttributeList_extend_in_sync l w ds :
  attribute_list_in_sync l w ->
  exists l' w',
    AttributeList_extend (LDict <$> ds) (l, w) = (Ok tt, (l', w')) /\
    AttributeList___iadd__ (LDict <$> ds) (l, w) = (Ok tt, (l', w')) /\
    attribute_list_in_sync l' w' /\
    entries l' = entries l ++ (LDict <$> ds).
Proof.
  intros (r & p & n & Hroot & Hel & Hent).
  destruct (AttributeList_additems_rooted ds l w r p n Hroot) as (w' & r' & Hloop & Hroot').
  set (n' := with_children (children n ++ (attribute_node (l_tag l) <$> ds)) n) in *.
  assert (Hext : AttributeList_extend (LDict <$> ds) (l, w)
                 = (Ok tt, (with_entries (fun es => es ++ (LDict <$> ds))
                              (with_l_elems ((fun i => p ++ [i])
                                 <$> positions (has_tag (l_tag l)) (children n') 0) l), w'))).
  { unfold AttributeList_extend, XmlList_extend.
    unfold bind at 1. rewrite Hloop.
    unfold bind at 1. rewrite (TagXmlList_update_elems_rooted l w' r' p n' Hroot').
    reflexivity. }
  eexists _, w'. split; [exact Hext|]. split; [exact Hext|]. split.
  - exists r', p, n'. split; [exact Hroot'|]. split; [reflexivity|].
    simpl. rewrite Hent, filter_tagged_app, fmap_app. f_equal.
    rewrite <- list_fmap_compose. reflexivity.
  - reflexivity.
Qed.

(** The same for [append]. *)
Theorem AttributeList_append_in_sync l w d :
  attribute_list_in_sync l w ->
  exists l' w',
    AttributeList_append (LDict d) (l, w) = (Ok tt, (l', w')) /\
    attribute_list_in_sync l' w' /\
    entries l' = entries l ++ [LDict d].
Proof.
  intros (r & p & n & Hroot & Hel & Hent).
  set (g := ElementTree.append (attribute_node (l_tag l) d)).
  assert (Hg : forall e, tag (g e) = tag e) by reflexivity.
  pose proof (list_rooted_edit l w r p n g Hg Hroot) as Hroot'.
  eexists _, _. split; [|split].
  - unfold AttributeList_append, XmlList_append.
    unfold bind at 1. rewrite (AttributeList_additem_rooted l w r p n d Hroot).
    cbv zeta. fold g.
    unfold bind at 1. rewrite (TagXmlList_update_elems_rooted l _ _ p (g n) Hroot').
    unfold list_append, modify. simpl. reflexivity.
  - exists (alter_at g p r), p, (g n). split; [exact Hroot'|]. split; [reflexivity|].
    change (children (g n)) with (children n ++ (attribute_node (l_tag l) <$> [d])).
    change (l_tag (with_entries _ (with_l_elems _ l))) with (l_tag l).
    simpl entries. rewrite Hent.
    rewrite (filter_tagged_app (l_tag l) (children n) [d]), fmap_app. reflexivity.
  - reflexivity.
Qed.

(** [_parse_element] on an element of the document appends its attributes. *)
Lemma AttributeList_parse_element_rooted l w r p n i f :
  list_rooted l w r p n -> children n !! i = Some f ->
  AttributeList__parse_element (p ++ [i]) (l, w)
  = (Ok tt, (with_entries (fun es => es ++ [LDict (attrib f)]) l, w)).
Proof.
  intros ((x & H & Hr) & Hres & Hn) Hi.
  unfold AttributeList__parse_element. unfold bind at 1.
  rewrite (ldoc_fetched _ l w x r H Hr). unfold deref.
  rewrite (node_at_child p i r n Hn), Hi. simpl.
  rewrite (world_with_root_same w _ x r H Hr). reflexivity.
Qed.

(** The loop of [_prepare_list] over elements of the document. *)
Lemma AttributeList_prepare_list_rooted w r p n idx fs :
  Forall2 (fun i f => children n !! i = Some f) idx fs ->
  forall l,
    list_rooted l w r p n ->
    exists l',
      for_each ((fun i => p ++ [i]) <$> idx) AttributeList__parse_element (l, w)
      = (Ok tt, (l', w)) /\
      entries l' = entries l ++ ((fun e => LDict (attrib e)) <$> fs) /\
      l_elems l' = l_elems l /\ l_instance l' = l_instance l /\
      l_tag l' = l_tag l /\ l_rootkeys l' = l_rootkeys l.
Proof.
  induction 1 as [|i f idx fs Hi _ IH]; intros l Hroot.
  - exists l. rewrite app_nil_r. repeat split; reflexivity.
  - rewrite fmap_cons. simpl for_each. unfold bind at 1.
    rewrite (AttributeList_parse_element_rooted l w r p n i f Hroot Hi).
    destruct (IH (with_entries (fun es => es ++ [LDict (attrib f)]) l) Hroot)
      as (l' & Hloop & He & Hel & Hi' & Ht & Hk).
    exists l'. split; [exact Hloop|].
    rewrite He. simpl. rewrite <- app_assoc. repeat split; assumption.
Qed.

(** [AttributeList(instance, tag, nesting)] on a fetched instance whose
    document has the nested root node returns a list in step with the
    document, and leaves the world as it was. *)
Theorem AttributeList_init_in_sync instance tag nesting w x r p n :
  has_attrs w instance x -> root x = Some r ->
  resolve_path (default [] nesting) r = Some p -> node_at p r = Some n ->
  exists l,
    AttributeList___init__ instance tag nesting w = (Ok (Ok tt, l), w) /\
    attribute_list_in_sync l w /\
    l_instance l = instance /\ l_tag l = tag /\ l_rootkeys l = default [] nesting.
Proof.
  intros H Hr Hres Hn.
  set (l0 := mkXmlList [] [] instance tag (default [] nesting) Entity).
  assert (Hroot0 : list_rooted l0 w r p n).
  { split; [exists x; split; assumption|split; assumption]. }
  set (l1 := with_l_elems ((fun i => p ++ [i]) <$> positions (has_tag tag) (children n) 0) l0).
  assert (Hroot1 : list_rooted l1 w r p n) by exact Hroot0.
  destruct (AttributeList_prepare_list_rooted w r p n _ _
              (positions_elements (has_tag tag) (children n)) l1 Hroot1)
    as (l' & Hloop & He & Hel & Hi & Ht & Hk).
  exists l'. split; [|split; [|repeat split; assumption]].
  - unfold AttributeList___init__, XmlList___init__. cbv [bind modify].
    change (TagXmlList__update_elems _) with (TagXmlList__update_elems (l0, w)).
    rewrite (TagXmlList_update_elems_rooted l0 w r p n Hroot0). fold l1.
    cbv [XmlList__prepare_list bind self_].
    change (for_each _ _ _) with
      (for_each ((fun i => p ++ [i]) <$> positions (has_tag tag) (children n) 0)
         AttributeList__parse_element (l1, w)).
    rewrite Hloop. reflexivity.
  - exists r, p, n. split; [|split].
    + split; [exists x; rewrite Hi; split; assumption|]. rewrite Hk. split; assumption.
    + rewrite Hel, Ht. reflexivity.
    + rewrite He, Ht. reflexivity.
Qed.

Lemma filter_all {A} (P : A -> bool) (l : list A) :
  Forall (fun x => P x = true) l -> filter (fun x => P x = true) l = l.
Proof.
  induction 1 as [|x l Hx _ IH]; [reflexivity|].
  rewrite filter_cons, decide_True by exact Hx. f_equal. exact IH.
Qed.

(** One [_insertitem] of a dict: the new element is inserted among all the
    children of the nested root node. *)
Lemma AttributeList_insertitem_rooted l w r p n i d :
  list_rooted l w r p n ->
  XmlList__insertitem List_rootnode AttributeList__create_new_node i (LDict d) (l, w)
  = (Ok tt, (l, world_with_root w (l_instance l)
                  (alter_at (ElementTree.insert i (attribute_node (l_tag l) d)) p r))).
Proof.
  intros Hroot. pose proof Hroot as ((x & H & Hr) & Hres & Hn).
  cbv [XmlList__insertitem AttributeList__create_new_node bind self_ ret fst].
  rewrite (List_rootnode_rooted l w r p n Hroot).
  rewrite (ldoc_fetched _ l w x r H Hr), (mutate_spec p _ r n Hn). reflexivity.
Qed.

(** [insert] of a dict into an attribute list in step with its document
    succeeds; when the nested root node holds nothing but the elements of the
    list, the list stays in step with the document. *)
Theorem AttributeList_insert_in_sync l w i d :
  attribute_list_in_sync l w ->
  only_tagged_children l w ->
  exists l' w',
    AttributeList_insert i (LDict d) (l, w) = (Ok tt, (l', w')) /\
    attribute_list_in_sync l' w' /\
    let k := insert_pos i (length (entries l)) in
    entries l' = take k (entries l) ++ LDict d :: drop k (entries l).
Proof.
  intros (r & p & n & Hroot & Hel & Hent) Hall.
  pose proof (Hall r p n Hroot) as Htagged.
  rewrite (filter_all _ _ Htagged) in Hent.
  set (g := ElementTree.insert i (attribute_node (l_tag l) d)).
  assert (Hg : forall e, tag (g e) = tag e) by reflexivity.
  pose proof (list_rooted_edit l w r p n g Hg Hroot) as Hroot'.
  eexists _, _. split; [|split].
  - unfold AttributeList_insert, XmlList_insert.
    unfold bind at 1. rewrite (AttributeList_insertitem_rooted l w r p n i d Hroot).
    fold g.
    unfold bind at 1. rewrite (TagXmlList_update_elems_rooted l _ _ p (g n) Hroot').
    unfold list_insert, modify. simpl. reflexivity.
  - exists (alter_at g p r), p, (g n). split; [exact Hroot'|]. split; [reflexivity|].
    change (l_tag (with_entries _ (with_l_elems _ l))) with (l_tag l).
    simpl entries. rewrite Hent, length_fmap.
    change (children (g n)) with
      (let k := insert_pos i (length (children n)) in
       take k (children n) ++ attribute_node (l_tag l) d :: drop k (children n)).
    cbv zeta. rewrite filter_all.
    + rewrite fmap_app, fmap_cons, fmap_take, fmap_drop. reflexivity.
    + apply Forall_app. split; [apply Forall_take, Htagged|].
      constructor; [|apply Forall_drop, Htagged].
      unfold has_tag. apply bool_decide_eq_true_2. reflexivity.
  - reflexivity.
Qed.

End AttributeListProperties.

(** ** [nsmap] *)

Section NsmapProperties.

Lemma split_no_sep sep s :
  PyStr.contains_char sep s = false -> PyStr.split sep s = [s].
Proof.
  induction s as [|c r IH]; simpl; [reflexivity|].
  destruct (decide (sep = c)) as [->|Hne]; [discriminate|].
  intros H. rewrite decide_False by congruence. rewrite (IH H). reflexivity.
Qed.

Lemma split_with_sep sep p t :
  PyStr.contains_char sep p = false ->
  PyStr.split sep (p +:+ String sep t) = p :: PyStr.split sep t.
Proof.
  induction p as [|c r IH]; simpl.
  - intros _. rewrite decide_True by reflexivity. reflexivity.
  - destruct (decide (sep = c)) as [->|Hne]; [discriminate|].
    intros H. rewrite decide_False by congruence.
    change (String.append r (String sep t)) with (r +:+ String sep t).
    rewrite (IH H). reflexivity.
Qed.

Lemma split_nonempty sep s : PyStr.split sep s <> [].
Proof.
  destruct s as [|c r]; simpl; [discriminate|].
  destruct (decide (c = sep)); [discriminate|].
  destruct (PyStr.split sep r); discriminate.
Qed.

(** [split] cuts at the first separator. *)
Lemma split_inv sep s p ps :
  PyStr.split sep s = p :: ps ->
  PyStr.contains_char sep p = false /\
  (ps = [] /\ s = p \/
   exists t, s = p +:+ String sep t /\ PyStr.split sep t = ps).
Proof.
  revert p ps. induction s as [|c r IH]; simpl; intros p ps.
  - intros [= <- <-]. split; [reflexivity|]. left. split; reflexivity.
  - destruct (decide (c = sep)) as [->|Hne].
    + intros [= <- <-]. split; [reflexivity|]. right. exists r. split; reflexivity.
    + destruct (PyStr.split sep r) as [|q qs] eqn:E; [destruct (split_nonempty _ _ E)|].
      intros [= <- <-]. destruct (IH q qs eq_refl) as [Hq Hcases]. split.
      * simpl. rewrite decide_False by congruence. exact Hq.
      * destruct Hcases as [[-> ->]|(t & -> & Ht)].
        -- left. split; reflexivity.
        -- right. exists t. split; [reflexivity|exact Ht].
Qed.

(** [nsmap] converts exactly the tags made of a prefix of [_NSMAP], one
    colon and a name without colon; a tag with no colon or with more than one
    is refused with [ValueError], an unknown prefix with [KeyError]. *)
Theorem nsmap_outcome (tag : string) :
  (PyStr.contains_char ":" tag = false -> nsmap tag = Raise ValueError) /\
  (forall prefix name,
     tag = prefix +:+ ":" +:+ name ->
     PyStr.contains_char ":" prefix = false ->
     (PyStr.contains_char ":" name = true -> nsmap tag = Raise ValueError) /\
     (PyStr.contains_char ":" name = false ->
      nsmap tag = match assoc prefix _NSMAP with
                  | Some uri => Ok ("{" +:+ uri +:+ "}" +:+ name)
                  | None => Raise KeyError
                  end)) /\
  (forall r, nsmap tag = Ok r ->
     exists prefix name uri,
       tag = prefix +:+ ":" +:+ name /\ assoc prefix _NSMAP = Some uri /\
       r = "{" +:+ uri +:+ "}" +:+ name).
Proof.
  split; [|split].
  - intros H. unfold nsmap. rewrite (split_no_sep _ _ H). reflexivity.
  - intros prefix name -> Hp. unfold nsmap.
    change (prefix +:+ ":" +:+ name) with (prefix +:+ String ":" name).
    rewrite (split_with_sep _ _ _ Hp). split; intros Hn.
    + destruct (PyStr.split ":" name) as [|q qs] eqn:E; [destruct (split_nonempty _ _ E)|].
      destruct (split_inv _ _ _ _ E) as [Hq [[-> ->]|(t & -> & Ht)]].
      * rewrite Hq in Hn. discriminate.
      * destruct (PyStr.split ":" t) as [|q' qs'] eqn:E'; [destruct (split_nonempty _ _ E')|].
        subst qs. reflexivity.
    + rewrite (split_no_sep _ _ Hn). reflexivity.
  - intros r. unfold nsmap.
    destruct (PyStr.split ":" tag) as [|p [|n [|]]] eqn:E; try discriminate.
    destruct (assoc p _NSMAP) as [uri|] eqn:Ha; [|discriminate].
    intros [= <-]. exists p, n, uri.
    destruct (split_inv _ _ _ _ E) as [_ [[? _]|(t & -> & Ht)]]; [discriminate|].
    destruct (split_inv _ _ _ _ Ht) as [_ [[_ ->]|(t' & _ & Ht')]].
    + repeat split; reflexivity || assumption.
    + destruct (split_nonempty _ _ Ht').
Qed.

End NsmapProperties.

(** ** [Nestable.rootnode]: a second access changes nothing *)

Section RootnodeProperties.

(** [Nestable.rootnode] never raises; once it has run, every element of the
    path exists, and running it again returns the same element and leaves the
    document as it is. *)
Theorem Nestable_rootnode_idempotent (rootkeys : list string) (root : Element) :
  exists p root',
    Nestable_rootnode rootkeys root = (Ok p, root') /\
    resolve_path rootkeys root' = Some p /\
    Nestable_rootnode rootkeys root' = (Ok p, root').
Proof.
  exists (nested_ref rootkeys root), (ensure_path rootkeys root).
  split; [apply Nestable_rootnode_spec|].
  pose proof (resolve_ensure_path rootkeys root) as Hres.
  split; [exact Hres|].
  rewrite Nestable_rootnode_spec.
  destruct (ensure_path_present _ _ _ Hres) as [-> ->]. reflexivity.
Qed.

End RootnodeProperties.

(** ** Scalar descriptors: overwriting, independence, absent elements *)

Section ScalarDocFacts.

Lemma lower_char_idem c : PyStr.lower_char (PyStr.lower_char c) = PyStr.lower_char c.
Proof.
  unfold PyStr.lower_char. destruct (PyStr.is_upper c) eqn:E; [|rewrite E; reflexivity].
  unfold PyStr.is_upper in *. apply andb_true_iff in E as [E1 E2].
  apply Nat.leb_le in E1, E2.
  rewrite nat_ascii_embedding by lia.
  destruct (65 <=? nat_of_ascii c + 32)%nat eqn:F1; simpl; [|reflexivity].
  destruct (nat_of_ascii c + 32 <=? 90)%nat eqn:F2; [|reflexivity].
  apply Nat.leb_le in F2. lia.
Qed.

Lemma lower_idem s : PyStr.lower (PyStr.lower s) = PyStr.lower s.
Proof.
  induction s as [|c r IH]; simpl; [reflexivity|].
  rewrite lower_char_idem, IH. reflexivity.
Qed.

Lemma positions_lt {A} (P : A -> bool) (l : list A) k i :
  i ∈ positions P l k -> i < k + length l.
Proof.
  revert k. induction l as [|x l IH]; intros k; simpl; [intros H; inversion H|].
  destruct (P x).
  - intros H. apply elem_of_cons in H as [->|H]; [lia|]. apply IH in H. lia.
  - intros H. apply IH in H. lia.
Qed.

(** Writing twice through a string descriptor leaves what the second
    write alone leaves: no second element is made. *)
Lemma set_text_doc_overwrite tag x y root :
  set_text_doc tag y (set_text_doc tag x root) = set_text_doc tag y root.
Proof.
  unfold set_text_doc. destruct (tag_truthy tag) as [t|]; [|reflexivity].
  destruct (head (positions (has_tag t) (children root) 0)) as [i|] eqn:Hh.
  - cbn [children with_children].
    rewrite positions_alter by (intros; apply has_tag_with_text).
    rewrite Hh. unfold with_children. cbn [ElementTree.tag attrib text children]. f_equal.
    rewrite list_alter_alter_eq. apply list_alter_ext; [|reflexivity].
    intros e _. reflexivity.
  - cbn [children with_children].
    rewrite positions_app, (head_positions_None _ _ _ Hh).
    cbn [positions app]. unfold has_tag at 1. cbn [ElementTree.tag with_text Element_].
    rewrite bool_decide_eq_true_2 by reflexivity. cbn [head].
    unfold with_children. cbn [ElementTree.tag attrib text children]. f_equal.
    rewrite alter_app_r_alt by lia. rewrite Nat.add_0_l, Nat.sub_diag. reflexivity.
Qed.

Lemma StringDescriptor_get_doc_eq tag root :
  StringDescriptor_get_doc tag root = (Ok (get_text_doc tag root), root).
Proof.
  unfold StringDescriptor_get_doc, TagDescriptor_get_node, get_text_doc.
  destruct (tag_truthy tag) as [t|]; [|reflexivity].
  unfold bind at 1. unfold bind at 1. unfold XmlElement_rootnode, ret at 1.
  rewrite get_sub_node_root.
  destruct (head (positions (has_tag t) (children root) 0)) as [i|] eqn:Hh;
    [|reflexivity].
  destruct (positions_head _ _ _ _ Hh) as (k & e & -> & Hl & _ & _).
  cbn [fmap option_fmap option_map]. unfold bind, deref, ret. cbn [node_at].
  rewrite Nat.add_0_l, Hl. reflexivity.
Qed.

(** The descriptors of two different tags do not interfere: a write through
    one leaves what the other reads. *)
Lemma get_text_doc_frame tag tag' x root :
  tag_truthy tag <> tag_truthy tag' ->
  get_text_doc tag' (set_text_doc tag x root) = get_text_doc tag' root.
Proof.
  intros Hne. unfold get_text_doc, set_text_doc.
  destruct (tag_truthy tag') as [t'|] eqn:Ht'.
  - destruct (tag_truthy tag) as [t|] eqn:Ht; [|reflexivity].
    assert (Htt : t <> t') by congruence.
    destruct (head (positions (has_tag t) (children root) 0)) as [i|] eqn:Hh.
    + cbn [children with_children].
      rewrite positions_alter by (intros; apply has_tag_with_text).
      destruct (head (positions (has_tag t') (children root) 0)) as [j|] eqn:Hj;
        [|reflexivity].
      destruct (positions_head _ _ _ _ Hh) as (k & e & -> & He & Hte & _).
      destruct (positions_head _ _ _ _ Hj) as (k' & e' & -> & He' & Hte' & _).
      rewrite !Nat.add_0_l in *.
      assert (k <> k').
      { intros ->. rewrite He in He'. inversion He'; subst e'.
        unfold has_tag in Hte, Hte'.
        apply bool_decide_eq_true_1 in Hte, Hte'. congruence. }
      rewrite list_lookup_alter_ne by assumption. reflexivity.
    + cbn [children with_children]. rewrite positions_app. cbn [positions].
      unfold has_tag at 2. cbn [ElementTree.tag with_text Element_].
      rewrite bool_decide_eq_false_2 by exact Htt.
      rewrite app_nil_r.
      destruct (head (positions (has_tag t') (children root) 0)) as [j|] eqn:Hj;
        [|reflexivity].
      destruct (positions_head _ _ _ _ Hj) as (k' & e' & -> & He' & _ & _).
      rewrite !Nat.add_0_l in *.
      rewrite (lookup_app_l_Some _ _ _ _ He'). rewrite He'. reflexivity.
  - destruct (tag_truthy tag) as [t|] eqn:Ht; [|congruence].
    destruct (head (positions (has_tag t) (children root) 0)); reflexivity.
Qed.

Lemma get_text_doc_set tag x root : get_text_doc tag (set_text_doc tag x root) = Some x.
Proof.
  pose proof (StringDescriptor_get_after_set tag x root) as H.
  rewrite StringDescriptor_get_doc_eq in H. congruence.
Qed.

End ScalarDocFacts.

Section ScalarLaws.

Variable lims : Lims.

Lemma StringDescriptor_get_on_fetched tag w instance x r :
  has_attrs w instance x -> root x = Some r ->
  StringDescriptor___get__ lims tag instance w = (Ok (get_text_doc tag r), w).
Proof.
  intros H Hr. apply (StringDescriptor_get_fetched lims tag w instance x r _ H Hr).
  apply StringDescriptor_get_doc_eq.
Qed.

Lemma world_with_root_twice w instance r r' :
  world_with_root (world_with_root w instance r) instance r' = world_with_root w instance r'.
Proof.
  unfold world_with_root. destruct (heap w !! instance) as [o|] eqn:Ho; [|rewrite Ho; reflexivity].
  cbn [heap with_heap]. rewrite list_lookup_insert_eq by (eapply lookup_lt_Some; eauto).
  unfold with_heap. cbn [heap cache requests error_log o_class o_attrs from_option _uri].
  rewrite list_insert_insert_eq. reflexivity.
Qed.

(** The laws of a string descriptor on a fetched entity: a write succeeds
    without any request; reading back yields [str(value)]; a second write
    leaves what it would have left alone; and the descriptor of another tag
    reads what it read before. *)
Theorem string_descriptor_laws tag tag' value value' w instance x r :
  has_attrs w instance x -> root x = Some r ->
  tag_truthy tag <> tag_truthy tag' ->
  exists w1,
    StringDescriptor___set__ lims tag instance value w = (Ok tt, w1) /\
    requests w1 = requests w /\ cache w1 = cache w /\
    StringDescriptor___get__ lims tag instance w1 = (Ok (Some (TStr (py_str value))), w1) /\
    StringDescriptor___get__ lims tag' instance w1
      = ((StringDescriptor___get__ lims tag' instance w).1, w1) /\
    StringDescriptor___set__ lims tag instance value' w1
      = StringDescriptor___set__ lims tag instance value' w.
Proof.
  intros H Hr Hne.
  set (r1 := set_text_doc tag (TStr (py_str value)) r).
  pose proof (world_with_root_has_attrs w instance x r1 H) as H1.
  exists (world_with_root w instance r1).
  split; [apply (StringDescriptor_set_fetched lims tag value w instance x r H Hr)|].
  split; [unfold world_with_root; destruct (heap w !! instance); reflexivity|].
  split; [unfold world_with_root; destruct (heap w !! instance); reflexivity|].
  split; [|split].
  - rewrite (StringDescriptor_get_on_fetched tag _ instance _ r1 H1 eq_refl).
    unfold r1. rewrite get_text_doc_set. reflexivity.
  - rewrite (StringDescriptor_get_on_fetched tag' _ instance _ r1 H1 eq_refl).
    rewrite (StringDescriptor_get_on_fetched tag' w instance x r H Hr).
    unfold r1. rewrite get_text_doc_frame by exact Hne. reflexivity.
  - rewrite (StringDescriptor_set_fetched lims tag value' _ instance _ r1 H1 eq_refl).
    rewrite (StringDescriptor_set_fetched lims tag value' w instance x r H Hr).
    unfold r1. rewrite set_text_doc_overwrite, world_with_root_twice. reflexivity.
Qed.

(** A boolean written through a boolean descriptor reads back as itself,
    stored as "true" or "false"; any other value reads back as whether its
    [str()] is "true" up to case. *)
Theorem boolean_round_trip tag value w instance x r :
  has_attrs w instance x -> root x = Some r ->
  exists w1,
    BooleanDescriptor___set__ lims tag instance value w = (Ok tt, w1) /\
    BooleanDescriptor___get__ lims tag instance w1
      = (Ok (Some (bool_decide (PyStr.lower (py_str value) = "true"))), w1) /\
    (forall b, value = VBool b ->
       BooleanDescriptor___get__ lims tag instance w1 = (Ok (Some b), w1) /\
       StringDescriptor___get__ lims tag instance w1
         = (Ok (Some (TStr (if b then "true" else "false"))), w1)).
Proof.
  intros H Hr.
  set (r1 := set_text_doc tag (TStr (PyStr.lower (py_str value))) r).
  pose proof (world_with_root_has_attrs w instance x r1 H) as H1.
  assert (Hget : StringDescriptor___get__ lims tag instance (world_with_root w instance r1)
                 = (Ok (Some (TStr (PyStr.lower (py_str value)))),
                    world_with_root w instance r1)).
  { rewrite (StringDescriptor_get_on_fetched tag _ instance _ r1 H1 eq_refl).
    unfold r1. rewrite get_text_doc_set. reflexivity. }
  assert (Hbool : BooleanDescriptor___get__ lims tag instance (world_with_root w instance r1)
                  = (Ok (Some (bool_decide (PyStr.lower (py_str value) = "true"))),
                     world_with_root w instance r1)).
  { unfold BooleanDescriptor___get__, bind. rewrite Hget. unfold ret.
    rewrite lower_idem. reflexivity. }
  exists (world_with_root w instance r1). split; [|split].
  - unfold BooleanDescriptor___set__.
    exact (StringDescriptor_set_fetched lims tag (VStr (PyStr.lower (py_str value)))
             w instance x r H Hr).
  - exact Hbool.
  - intros b ->. rewrite Hbool, Hget. destruct b; split; reflexivity.
Qed.

(** Reading through a scalar descriptor on a fetched entity changes
    nothing and sends no request.  An element that is absent reads as [None]
    through the three descriptors; the integer descriptor raises [ValueError]
    exactly on a text that [int()] refuses. *)
Theorem scalar_getters_on_fetched tag w instance x r :
  has_attrs w instance x -> root x = Some r ->
  StringDescriptor___get__ lims tag instance w = (Ok (get_text_doc tag r), w) /\
  IntegerDescriptor___get__ lims tag instance w
    = (match get_text_doc tag r with
       | None => Ok None
       | Some t => match PyStr.int (text_chars t) with
                   | Some n => Ok (Some n)
                   | None => Raise ValueError
                   end
       end, w) /\
  BooleanDescriptor___get__ lims tag instance w
    = (Ok (match get_text_doc tag r with
           | None => None
           | Some (TStr s) => Some (bool_decide (PyStr.lower s = "true"))
           | Some (TBytes _) => Some false
           end), w) /\
  (forall t, tag = Some t -> t <> EmptyString ->
     Forall (fun c => ElementTree.tag c <> t) (children r) ->
     get_text_doc tag r = None).
Proof.
  intros H Hr.
  pose proof (StringDescriptor_get_on_fetched tag w instance x r H Hr) as Hs.
  split; [exact Hs|]. split; [|split].
  - unfold IntegerDescriptor___get__, bind. rewrite Hs.
    destruct (get_text_doc tag r) as [t|]; [|reflexivity].
    destruct (PyStr.int (text_chars t)); reflexivity.
  - unfold BooleanDescriptor___get__, bind. rewrite Hs.
    destruct (get_text_doc tag r) as [[s|s]|]; reflexivity.
  - intros t -> Ht Hall. unfold get_text_doc.
    destruct t as [|c t]; [congruence|]. cbn [tag_truthy].
    assert (Hnil : positions (has_tag (String c t)) (children r) 0 = []).
    { apply positions_nil_iff. eapply Forall_impl; [exact Hall|].
      intros e He. unfold has_tag. apply bool_decide_eq_false_2. exact He. }
    rewrite Hnil. reflexivity.
Qed.

End ScalarLaws.

(** ** Attribute descriptors *)

Section AttributeDescriptorProperties.

Variable lims : Lims.

Lemma on_root_pure {A} (m : D A) w instance x r a :
  has_attrs w instance x -> root x = Some r -> m r = (a, r) ->
  on_root instance m w = (a, w).
Proof.
  intros H Hr Hm. rewrite (on_root_fetched m w instance x r H Hr), Hm. simpl.
  rewrite (world_with_root_same w instance x r H Hr). reflexivity.
Qed.

Lemma StringAttributeDescriptor_get_on_fetched tag w instance x r :
  has_attrs w instance x -> root x = Some r ->
  StringAttributeDescriptor___get__ lims tag instance w
  = (match attrib r !! tag with Some v => Ok v | None => Raise KeyError end, w).
Proof.
  intros H Hr. unfold StringAttributeDescriptor___get__, bind.
  rewrite (Entity_get_fetched lims w instance x r H Hr).
  apply (on_root_pure _ w instance x r _ H Hr).
  unfold StringAttributeDescriptor_get_doc, XmlElement_rootnode, attrib_get, bind, ret, deref.
  cbn [node_at]. destruct (attrib r !! tag); reflexivity.
Qed.

Lemma StringAttributeDescriptor_set_on_fetched tag value w instance x r :
  has_attrs w instance x -> root x = Some r ->
  StringAttributeDescriptor___set__ lims tag instance value w
  = (Ok tt, world_with_root w instance (ElementTree.set tag value r)).
Proof.
  intros H Hr. unfold StringAttributeDescriptor___set__, bind.
  rewrite (Entity_get_fetched lims w instance x r H Hr).
  rewrite (on_root_fetched _ w instance x r H Hr). reflexivity.
Qed.

(** The laws of an attribute descriptor on a fetched entity: a write
    succeeds without any request; reading back yields the value written;
    another attribute and every element of the document read as before; a
    missing attribute raises [KeyError] and an integer attribute written as
    [str(n)] reads back as [n]. *)
Theorem attribute_descriptor_laws tag value w instance x r :
  has_attrs w instance x -> root x = Some r ->
  exists w1,
    StringAttributeDescriptor___set__ lims tag instance value w = (Ok tt, w1) /\
    requests w1 = requests w /\ cache w1 = cache w /\
    StringAttributeDescriptor___get__ lims tag instance w1 = (Ok value, w1) /\
    (forall tag', tag' <> tag ->
       StringAttributeDescriptor___get__ lims tag' instance w1
       = ((StringAttributeDescriptor___get__ lims tag' instance w).1, w1)) /\
    (forall tag',
       StringDescriptor___get__ lims (Some tag') instance w1
       = ((StringDescriptor___get__ lims (Some tag') instance w).1, w1)) /\
    (attrib r !! tag = None ->
       StringAttributeDescriptor___get__ lims tag instance w = (Raise KeyError, w)) /\
    (forall n, value = PyStr.of_int n ->
       IntegerAttributeDescriptor___get__ lims tag instance w1 = (Ok n, w1)).
Proof.
  intros H Hr.
  set (r1 := ElementTree.set tag value r).
  pose proof (world_with_root_has_attrs w instance x r1 H) as H1.
  exists (world_with_root w instance r1).
  split; [apply (StringAttributeDescriptor_set_on_fetched tag value w instance x r H Hr)|].
  split; [unfold world_with_root; destruct (heap w !! instance); reflexivity|].
  split; [unfold world_with_root; destruct (heap w !! instance); reflexivity|].
  split; [|split; [|split; [|split]]].
  - rewrite (StringAttributeDescriptor_get_on_fetched tag _ instance _ r1 H1 eq_refl).
    unfold r1, ElementTree.set. cbn [attrib with_attrib]. rewrite lookup_insert_eq. reflexivity.
  - intros tag' Hne.
    rewrite (StringAttributeDescriptor_get_on_fetched tag' _ instance _ r1 H1 eq_refl).
    rewrite (StringAttributeDescriptor_get_on_fetched tag' w instance x r H Hr).
    unfold r1, ElementTree.set. cbn [attrib with_attrib fst].
    rewrite lookup_insert_ne by congruence. reflexivity.
  - intros tag'.
    rewrite (StringDescriptor_get_on_fetched lims _ _ instance _ r1 H1 eq_refl).
    rewrite (StringDescriptor_get_on_fetched lims _ w instance x r H Hr).
    cbn [fst]. unfold get_text_doc. destruct (tag_truthy (Some tag')); reflexivity.
  - intros Hnone.
    rewrite (StringAttributeDescriptor_get_on_fetched tag w instance x r H Hr), Hnone.
    reflexivity.
  - intros n ->. unfold IntegerAttributeDescriptor___get__, bind.
    rewrite (Entity_get_fetched lims _ instance _ r1 H1 eq_refl).
    apply (on_root_pure _ _ instance _ r1 _ H1 eq_refl).
    unfold IntegerAttributeDescriptor_get_doc, XmlElement_rootnode, attrib_get, bind, ret, deref.
    cbn [node_at]. unfold r1, ElementTree.set. cbn [attrib with_attrib].
    rewrite lookup_insert_eq, int_of_int. reflexivity.
Qed.

End AttributeDescriptorProperties.

(** ** [EntityDescriptor] *)

Section EntityDescriptorProperties.

Variable lims : Lims.

Lemma has_attrs_world_with_root w instance r a x :
  has_attrs w a x ->
  has_attrs (world_with_root w instance r) a
    (if decide (a = instance) then mkAttrs (_uri x) (Some r) else x).
Proof.
  intros H. destruct (decide (a = instance)) as [->|Hne].
  - apply world_with_root_has_attrs, H.
  - destruct H as (o & Ho & Hx). unfold world_with_root.
    destruct (heap w !! instance) as [oi|] eqn:Hi; [|exists o; split; assumption].
    exists o. split; [|exact Hx]. cbn [heap with_heap].
    rewrite list_lookup_insert_ne by congruence. exact Ho.
Qed.

Lemma has_attrs_world_with_root_uri w instance r a x :
  has_attrs w a x ->
  exists x', has_attrs (world_with_root w instance r) a x' /\ _uri x' = _uri x.
Proof.
  intros H. eexists. split; [apply has_attrs_world_with_root, H|].
  destruct (decide (a = instance)); reflexivity.
Qed.

Lemma cache_world_with_root w instance r : cache (world_with_root w instance r) = cache w.
Proof. unfold world_with_root. destruct (heap w !! instance); reflexivity. Qed.

Lemma requests_world_with_root w instance r :
  requests (world_with_root w instance r) = requests w.
Proof. unfold world_with_root. destruct (heap w !! instance); reflexivity. Qed.

Lemma EntityDescriptor_set_on_fetched tag w instance x r value xv u :
  tag <> EmptyString ->
  has_attrs w instance x -> root x = Some r ->
  has_attrs w value xv -> _uri xv = Some u ->
  EntityDescriptor___set__ lims tag instance value w
  = (Ok tt, world_with_root w instance (alter_child_doc tag (ElementTree.set "uri" u) r)).
Proof.
  intros Ht H Hr Hv Hu. unfold EntityDescriptor___set__.
  unfold bind at 1. rewrite (Entity_get_fetched lims w instance x r H Hr).
  assert (Htt : tag_truthy (Some tag) = Some tag) by (destruct tag; [congruence|reflexivity]).
  assert (Hnode : TagDescriptor_get_node (Some tag) r
                  = (Ok ((fun i => [i]) <$> head (positions (has_tag tag) (children r) 0)), r)).
  { unfold TagDescriptor_get_node. rewrite Htt.
    unfold bind at 1, XmlElement_rootnode, ret at 1. apply get_sub_node_root. }
  unfold bind at 1. rewrite (on_root_pure _ w instance x r _ H Hr Hnode).
  unfold alter_child_doc.
  destruct (head (positions (has_tag tag) (children r) 0)) as [i|] eqn:Hh;
    cbn [fmap option_fmap option_map].
  - destruct (positions_head _ _ _ _ Hh) as (k & e & -> & He & _ & _).
    rewrite Nat.add_0_l in *.
    unfold bind at 1, ret at 1. unfold bind at 1.
    rewrite (Entity_uri_has_attrs w value xv Hv), Hu.
    rewrite (on_root_fetched _ w instance x r H Hr).
    unfold mutate. cbn [node_at]. rewrite He. reflexivity.
  - unfold bind at 1.
    rewrite (on_root_fetched _ w instance x r H Hr).
    unfold bind at 1, XmlElement_rootnode, ret at 1.
    unfold append_new, bind, deref, mutate, ret. cbn [node_at app fst snd].
    set (r1 := alter_at (append (Element_ tag)) [] r).
    destruct (has_attrs_world_with_root_uri w instance r1 value xv Hv) as (xv' & Hv' & Hu').
    rewrite (Entity_uri_has_attrs _ value xv' Hv'), Hu', Hu.
    pose proof (world_with_root_has_attrs w instance x r1 H) as H1.
    erewrite (on_root_fetched _ _ instance _ r1 H1 eq_refl).
    unfold r1. cbn [alter_at append children with_children node_at].
    rewrite lookup_app_r by lia. rewrite Nat.sub_diag. cbn [lookup list_lookup fst snd].
    rewrite world_with_root_twice. f_equal. f_equal.
    unfold with_children. cbn [ElementTree.tag attrib text children]. f_equal.
    rewrite alter_app_r_alt by lia. rewrite Nat.sub_diag. reflexivity.
Qed.

(** Reading back what [EntityDescriptor.__set__] wrote: for an entity in
    the cache under its URI, the descriptor yields that very instance, and
    neither the write nor the read sends a request. *)
Theorem EntityDescriptor_set_get tag klass w instance x r value xv u :
  tag <> EmptyString ->
  has_attrs w instance x -> root x = Some r ->
  has_attrs w value xv -> _uri xv = Some u -> u <> EmptyString ->
  cache w !! u = Some value ->
  exists w1,
    EntityDescriptor___set__ lims tag instance value w = (Ok tt, w1) /\
    requests w1 = requests w /\ cache w1 = cache w /\
    EntityDescriptor___get__ lims tag klass instance w1 = (Ok (Some value), w1).
Proof.
  intros Ht H Hr Hv Hu Hne Hc.
  set (r1 := alter_child_doc tag (ElementTree.set "uri" u) r).
  pose proof (world_with_root_has_attrs w instance x r1 H) as H1.
  exists (world_with_root w instance r1).
  split; [exact (EntityDescriptor_set_on_fetched tag w instance x r value xv u Ht H Hr Hv Hu)|].
  split; [apply requests_world_with_root|]. split; [apply cache_world_with_root|].
  unfold EntityDescriptor___get__.
  unfold bind at 1. rewrite (Entity_get_fetched lims _ instance _ r1 H1 eq_refl).
  assert (Hfind : exists i e,
            (r0 <- XmlElement_rootnode ;; find r0 tag) r1 = (Ok (Some [i]), r1) /\
            children r1 !! i = Some e /\ attrib e !! "uri" = Some u).
  { unfold bind at 1, XmlElement_rootnode, ret at 1.
    unfold find, findall, bind, deref, ret. cbn [node_at app].
    unfold r1, alter_child_doc.
    destruct (head (positions (has_tag tag) (children r) 0)) as [i|] eqn:Hh.
    - destruct (positions_head _ _ _ _ Hh) as (k & e & -> & He & _ & _).
      rewrite Nat.add_0_l in *. cbn [children with_children].
      rewrite positions_alter by reflexivity.
      destruct (positions (has_tag tag) (children r) 0) as [|j js]; [discriminate|].
      injection Hh as ->. exists k, (ElementTree.set "uri" u e).
      split; [reflexivity|]. rewrite list_lookup_alter_eq, He.
      split; [reflexivity|]. cbn. apply lookup_insert_eq.
    - cbn [children with_children]. rewrite positions_app, (head_positions_None _ _ _ Hh).
      cbn [positions app]. unfold has_tag at 1.
      cbn [ElementTree.tag ElementTree.set with_attrib Element_].
      rewrite bool_decide_eq_true_2 by reflexivity.
      exists (0 + length (children r)), (ElementTree.set "uri" u (Element_ tag)).
      split; [reflexivity|]. rewrite lookup_app_r by lia.
      rewrite Nat.add_0_l, Nat.sub_diag. split; [reflexivity|]. cbn. apply lookup_insert_eq. }
  destruct Hfind as (i & e & Hfind & He & Hue).
  unfold bind at 1. rewrite (on_root_pure _ _ instance _ r1 _ H1 eq_refl Hfind).
  unfold bind at 1.
  assert (Hget : attrib_get [i] "uri" r1 = (Ok u, r1)).
  { unfold attrib_get, bind, deref, ret. cbn [node_at]. rewrite He, Hue. reflexivity. }
  rewrite (on_root_pure _ _ instance _ r1 _ H1 eq_refl Hget).
  destruct (has_attrs_world_with_root_uri w instance r1 value xv Hv) as (xv' & Hv' & _).
  unfold bind at 1.
  rewrite (Entity_call_cached lims _ klass u value xv' Hne); [reflexivity| |exact Hv'].
  rewrite cache_world_with_root. exact Hc.
Qed.

End EntityDescriptorProperties.

(** ** [StringDictionaryDescriptor], [ExternalidListDescriptor], [ReagentLabelList] *)

Section ReadingDescriptorProperties.

Variable lims : Lims.

Lemma foldl_insert_lookup (cs : list Element) :
  forall (m0 : gmap string (option PyText)) k,
    foldl (fun result node2 => <[ElementTree.tag node2 := text node2]> result) m0 cs !! k
    = match last (filter (fun e => ElementTree.tag e = k) cs) with
      | Some e => Some (text e)
      | None => m0 !! k
      end.
Proof.
  induction cs as [|c cs IH]; intros m0 k; [reflexivity|].
  cbn [foldl]. rewrite IH, filter_cons.
  destruct (decide (ElementTree.tag c = k)) as [Hk|Hk].
  - destruct (filter (fun e => ElementTree.tag e = k) cs) as [|e es] eqn:E.
    + cbn [last]. rewrite Hk. apply lookup_insert_eq.
    + change (last (c :: e :: es)) with (last (e :: es)).
      destruct (last (e :: es)) eqn:El; [reflexivity|].
      apply last_None in El. discriminate.
  - destruct (last (filter (fun e => ElementTree.tag e = k) cs)); [reflexivity|].
    apply lookup_insert_ne. exact Hk.
Qed.

(** On a fetched entity whose document has the nested root node, a string
    dictionary is read without changing anything: it is empty when the root
    node has no [tag] child; otherwise each key is the tag of a child of the
    first [tag] element and maps to the text of the last child with that
    tag. *)
Theorem StringDictionaryDescriptor_last_wins tag rootkeys w instance x r p n :
  has_attrs w instance x -> root x = Some r ->
  resolve_path rootkeys r = Some p -> node_at p r = Some n ->
  exists d,
    StringDictionaryDescriptor___get__ lims tag rootkeys instance w = (Ok d, w) /\
    (head (positions (has_tag tag) (children n) 0) = None -> d = ∅) /\
    (forall i c,
       head (positions (has_tag tag) (children n) 0) = Some i ->
       children n !! i = Some c ->
       forall k, d !! k
                 = text <$> last (filter (fun e => ElementTree.tag e = k) (children c))).
Proof.
  intros H Hr Hres Hn.
  destruct (ensure_path_present _ _ _ Hres) as [He Hp].
  assert (Hdoc : exists d,
            StringDictionaryDescriptor_get_doc tag rootkeys r = (Ok d, r) /\
            (head (positions (has_tag tag) (children n) 0) = None -> d = ∅) /\
            (forall i c,
               head (positions (has_tag tag) (children n) 0) = Some i ->
               children n !! i = Some c ->
               forall k, d !! k
                 = text <$> last (filter (fun e => ElementTree.tag e = k) (children c)))).
  { unfold StringDictionaryDescriptor_get_doc. unfold bind at 1.
    rewrite Nestable_rootnode_spec, He, Hp.
    unfold bind at 1. unfold get_sub_node, get_sub_nodes, bind at 1, bind at 1, deref.
    rewrite Hn. unfold ret at 1 2.
    destruct (positions (has_tag tag) (children n) 0) as [|i idx] eqn:Hpos.
    - exists ∅. split; [reflexivity|]. split; [reflexivity|]. intros i c Hh. discriminate.
    - cbn [fmap list_fmap head].
      assert (Hh : head (positions (has_tag tag) (children n) 0) = Some i)
        by (rewrite Hpos; reflexivity).
      destruct (positions_head _ _ _ _ Hh) as (k & c & -> & Hc & _ & _).
      rewrite Nat.add_0_l in *.
      unfold bind, deref, ret. rewrite (node_at_child p k r n Hn), Hc.
      eexists. split; [reflexivity|]. split; [discriminate|].
      intros i' c' [= <-] Hc' key. rewrite Hc in Hc'. injection Hc' as <-.
      rewrite foldl_insert_lookup, lookup_empty.
      destruct (last (filter (fun e => ElementTree.tag e = key) (children c))); reflexivity. }
  destruct Hdoc as (d & Hdoc & Hempty & Hlast).
  exists d. split; [|split; assumption].
  unfold StringDictionaryDescriptor___get__, bind.
  rewrite (Entity_get_fetched lims w instance x r H Hr).
  apply (on_root_pure _ w instance x r _ H Hr Hdoc).
Qed.

Lemma reagent_labels_loop r idx fs :
  forall acc,
    Forall2 (fun i f => children r !! i = Some f) idx fs ->
    fold_m (fun value node =>
        fun s => match attrib_get node "name" s with
                 | (Ok name, s') => (Ok (value ++ [name]), s')
                 | (Raise _, s') => (Ok value, s')
                 end)
      ((fun i => [] ++ [i]) <$> idx) acc r
    = (Ok (acc ++ omap (fun e => attrib e !! "name") fs), r).
Proof.
  intros acc HF. revert acc.
  induction HF as [|i f idx fs Hi _ IH]; intros acc.
  - cbn [fmap list_fmap fold_m omap list_omap]. rewrite app_nil_r. reflexivity.
  - cbn [fmap list_fmap fold_m]. unfold bind at 1.
    unfold attrib_get at 1, bind at 1, deref. cbn [node_at app]. rewrite Hi.
    cbn [omap list_omap]. destruct (attrib f !! "name") as [name|].
    + unfold ret at 1. rewrite IH, <- app_assoc. reflexivity.
    + unfold raise at 1. rewrite IH. reflexivity.
Qed.

(** The two list-reading descriptors never raise on a fetched entity and
    change nothing: the external ids are the pairs of the [id] and [uri]
    attributes of the [ri:externalid] children, with [None] for a missing
    attribute, and the reagent labels are the names of the [reagent-label]
    children that have one, both in document order. *)
Theorem list_readers_on_fetched w instance x r :
  has_attrs w instance x -> root x = Some r ->
  ExternalidListDescriptor___get__ lims instance w
  = (Ok ((fun e => (attrib e !! "id", attrib e !! "uri"))
           <$> filter (fun e => has_tag "{http://pyclarity_lims.com/ri}externalid" e = true)
                 (children r)), w) /\
  ReagentLabelList___get__ lims instance w
  = (Ok (omap (fun e => attrib e !! "name")
           (filter (fun e => has_tag "reagent-label" e = true) (children r))), w).
Proof.
  intros H Hr. split.
  - unfold ExternalidListDescriptor___get__, bind.
    rewrite (Entity_get_fetched lims w instance x r H Hr).
    apply (on_root_pure _ w instance x r _ H Hr).
    unfold ExternalidListDescriptor_get_doc.
    unfold bind at 1, XmlElement_rootnode, ret at 1.
    unfold bind at 1. change (nsmap "ri:externalid")
      with (Ok "{http://pyclarity_lims.com/ri}externalid" : result string).
    unfold lift_result. unfold bind at 1.
    unfold findall, bind at 1, deref. cbn [node_at]. unfold ret at 1.
    set (P := has_tag "{http://pyclarity_lims.com/ri}externalid").
    pose proof (positions_elements P (children r)) as HF.
    remember (positions P (children r) 0) as idx eqn:Eidx. clear Eidx.
    remember (filter (fun e => P e = true) (children r)) as fs eqn:Efs. clear Efs.
    induction HF as [|i f idx fs Hi _ IH]; [reflexivity|].
    cbn [fmap list_fmap map_m app]. unfold bind at 1.
    unfold bind at 1, deref. cbn [node_at]. rewrite Hi. unfold ret at 1.
    unfold bind at 1. cbn [app] in IH. rewrite IH. reflexivity.
  - unfold ReagentLabelList___get__, bind.
    rewrite (Entity_get_fetched lims w instance x r H Hr).
    apply (on_root_pure _ w instance x r _ H Hr).
    unfold ReagentLabelList_get_doc.
    unfold bind at 1, XmlElement_rootnode, ret at 1.
    unfold bind at 1. unfold findall, bind at 1, deref. cbn [node_at]. unfold ret at 1.
    rewrite (reagent_labels_loop r _ _ [] (positions_elements _ (children r))).
    reflexivity.
Qed.

End ReadingDescriptorProperties.

(** ** Attribute lists: [__setitem__] and [+] *)

Section AttributeListSetitem.

Lemma positions_all {A} (P : A -> bool) (l : list A) k :
  Forall (fun x => P x = true) l -> positions P l k = seq k (length l).
Proof.
  intros H. revert k. induction H as [|x l Hx _ IH]; intros k; [reflexivity|].
  cbn [positions length seq]. rewrite Hx, IH. reflexivity.
Qed.

Lemma index_pos_lt i len k : index_pos i len = Some k -> k < len.
Proof.
  unfold index_pos.
  destruct ((0 <=? (if (i <? 0)%Z then (Z.of_nat len + i)%Z else i))%Z
            && ((if (i <? 0)%Z then (Z.of_nat len + i)%Z else i) <? Z.of_nat len)%Z) eqn:E;
    [|discriminate].
  apply andb_true_iff in E as [E1 E2]. apply Z.leb_le in E1. apply Z.ltb_lt in E2.
  intros [= <-]. lia.
Qed.

Lemma index_pos_nonneg i len k : (0 <= i)%Z -> index_pos i len = Some k -> k = Z.to_nat i.
Proof.
  intros Hi. unfold index_pos. destruct (i <? 0)%Z eqn:E; [apply Z.ltb_lt in E; lia|].
  destruct ((0 <=? i)%Z && (i <? Z.of_nat len)%Z); [|discriminate]. congruence.
Qed.

Lemma index_pos_neg i len k :
  (i < 0)%Z -> index_pos i len = Some k -> Z.of_nat k = (Z.of_nat len + i)%Z.
Proof.
  intros Hi. unfold index_pos. destruct (i <? 0)%Z eqn:E; [|apply Z.ltb_ge in E; lia].
  destruct ((0 <=? Z.of_nat len + i)%Z && (Z.of_nat len + i <? Z.of_nat len)%Z) eqn:F;
    [|discriminate].
  apply andb_true_iff in F as [F1 _]. apply Z.leb_le in F1. intros [= <-]. lia.
Qed.

Lemma child_index_child p k : child_index p (p ++ [k]) = Some k.
Proof.
  unfold child_index. rewrite drop_app_length, take_app_length.
  rewrite decide_True by reflexivity. reflexivity.
Qed.

Lemma remove_child_spec p k r n :
  node_at p r = Some n -> k < length (children n) ->
  remove p (p ++ [k]) r = (Ok tt, alter_at (remove_at k) p r).
Proof.
  intros Hn Hk. unfold remove, bind, deref. rewrite Hn, child_index_child.
  rewrite decide_True by exact Hk. apply (mutate_spec p _ r n Hn).
Qed.

(** One [_delitem]: the element of the entry is removed from the nested
    root node. *)
Lemma XmlList_delitem_rooted l w r p n i k :
  list_rooted l w r p n ->
  l_elems l = (fun j => p ++ [j]) <$> seq 0 (length (children n)) ->
  index_pos i (length (children n)) = Some k ->
  XmlList__delitem List_rootnode i (l, w)
  = (Ok tt, (l, world_with_root w (l_instance l) (alter_at (remove_at k) p r))).
Proof.
  intros Hroot Hel Hk. pose proof Hroot as ((x & H & Hr) & Hres & Hn).
  unfold XmlList__delitem. unfold bind at 1. rewrite (List_rootnode_rooted l w r p n Hroot).
  cbv [bind self_ fst]. rewrite Hel, length_fmap, length_seq, Hk.
  cbn [mbind option_bind]. rewrite list_lookup_fmap.
  rewrite lookup_seq_lt by (eapply index_pos_lt; eauto). cbn [fmap option_fmap option_map].
  rewrite (ldoc_fetched _ l w x r H Hr), Nat.add_0_l.
  rewrite (remove_child_spec p k r n Hn) by (eapply index_pos_lt; eauto). reflexivity.
Qed.

Lemma AttributeList_setitem_rooted l w r p n i k d :
  list_rooted l w r p n ->
  l_elems l = (fun j => p ++ [j]) <$> seq 0 (length (children n)) ->
  index_pos i (length (children n)) = Some k ->
  let g := fun e => ElementTree.insert i (attribute_node (l_tag l) d) (remove_at k e) in
  XmlList__setitem List_rootnode AttributeList__create_new_node i (LDict d) (l, w)
  = (Ok tt, (l, world_with_root w (l_instance l) (alter_at g p r))) /\
  list_rooted l (world_with_root w (l_instance l) (alter_at g p r)) (alter_at g p r) p (g n).
Proof.
  intros Hroot Hel Hk g.
  assert (Hg : forall e, ElementTree.tag (g e) = ElementTree.tag e) by reflexivity.
  split; [|exact (list_rooted_edit l w r p n g Hg Hroot)].
  unfold XmlList__setitem.
  unfold bind at 1. unfold AttributeList__create_new_node, bind at 1, self_ at 1, ret at 1.
  cbn [fst]. unfold bind at 1.
  rewrite (XmlList_delitem_rooted l w r p n i k Hroot Hel Hk).
  assert (Hd : forall e, ElementTree.tag (remove_at k e) = ElementTree.tag e) by reflexivity.
  pose proof (list_rooted_edit l w r p n _ Hd Hroot) as Hroot1.
  unfold bind at 1. rewrite (List_rootnode_rooted l _ _ p _ Hroot1).
  pose proof Hroot1 as ((x1 & H1 & Hr1) & _ & Hn1).
  rewrite (ldoc_fetched _ l _ x1 _ H1 Hr1), (mutate_spec p _ _ _ Hn1).
  cbn [fst snd]. rewrite world_with_root_twice, alter_at_compose. reflexivity.
Qed.

Lemma take_drop_insert_same {A} (l : list A) k x :
  k < length l ->
  take k (delete k l) ++ x :: drop k (delete k l) = <[k := x]> l.
Proof.
  intros Hk. rewrite delete_take_drop, insert_take_drop by exact Hk.
  rewrite take_app_length' by (rewrite length_take; lia).
  rewrite drop_app_length' by (rewrite length_take; lia). reflexivity.
Qed.

(** [l[i] = d] on an attribute list in step with its document, whose
    nested root node holds nothing but the elements of the list.  An index out
    of range raises [IndexError] and changes nothing.  Otherwise the entry at
    the index is replaced, and in the document the element of the entry is
    removed and the new element inserted at position [i] of the remaining
    children: for [i >= 0] this is the place of the old element and the list
    stays in step with the document; for a negative [i] other than the first
    entry it is one place before. *)
Theorem AttributeList_setitem_outcome l w i d :
  attribute_list_in_sync l w ->
  only_tagged_children l w ->
  match index_pos i (length (entries l)) with
  | None => AttributeList___setitem__ (IInt i) (LDict d) (l, w) = (Raise IndexError, (l, w))
  | Some k =>
      exists l' w' r' p n',
        AttributeList___setitem__ (IInt i) (LDict d) (l, w) = (Ok tt, (l', w')) /\
        entries l' = <[k := LDict d]> (entries l) /\
        list_rooted l' w' r' p n' /\
        (let j := insert_pos i (length (entries l) - 1) in
         (fun e => LDict (attrib e)) <$> children n'
         = take j (delete k (entries l)) ++ LDict d :: drop j (delete k (entries l))) /\
        ((0 <= i)%Z -> attribute_list_in_sync l' w') /\
        ((i < 0)%Z -> 0 < k -> insert_pos i (length (entries l) - 1) = k - 1)
  end.
Proof.
  intros (r & p & n & Hroot & Hel & Hent) Hall.
  pose proof (Hall r p n Hroot) as Htagged.
  rewrite (filter_all _ _ Htagged) in Hent.
  rewrite (positions_all _ _ 0 Htagged) in Hel.
  assert (Hlen : length (entries l) = length (children n)) by (rewrite Hent; apply length_fmap).
  pose proof Hroot as ((x & H & Hr) & Hres & Hn).
  destruct (index_pos i (length (entries l))) as [k|] eqn:Hk.
  - rewrite Hlen in Hk. pose proof (index_pos_lt _ _ _ Hk) as Hklt.
    destruct (AttributeList_setitem_rooted l w r p n i k d Hroot Hel Hk) as [Hset Hroot'].
    set (g := fun e => ElementTree.insert i (attribute_node (l_tag l) d) (remove_at k e)) in *.
    set (j := insert_pos i (length (children n) - 1)).
    assert (Hch : children (g n)
                  = take j (delete k (children n)) ++ attribute_node (l_tag l) d
                    :: drop j (delete k (children n))).
    { unfold g, ElementTree.insert, remove_at. cbn [children with_children].
      rewrite length_delete by (apply lookup_lt_is_Some; exact Hklt). reflexivity. }
    assert (Htagged' : Forall (fun e => has_tag (l_tag l) e = true) (children (g n))).
    { rewrite Hch. apply Forall_app. split; [apply Forall_take, Forall_delete, Htagged|].
      constructor; [|apply Forall_drop, Forall_delete, Htagged].
      unfold has_tag. apply bool_decide_eq_true_2. reflexivity. }
    eexists _, _, _, p, (g n). split; [|split; [|split; [|split; [|split]]]].
    + unfold AttributeList___setitem__, XmlList___setitem__.
      unfold bind at 1. rewrite Hset.
      unfold bind at 1. rewrite (TagXmlList_update_elems_rooted l _ _ p (g n) Hroot').
      unfold list___setitem__, bind, self_. cbn [fst entries with_l_elems].
      rewrite Hlen, Hk. reflexivity.
    + reflexivity.
    + exact Hroot'.
    + cbv zeta. rewrite Hlen. fold j. rewrite Hch, Hent.
      rewrite fmap_app, fmap_cons, fmap_take, fmap_drop, !list_fmap_delete. reflexivity.
    + intros Hi. exists (alter_at g p r), p, (g n). split; [exact Hroot'|].
      split; [reflexivity|].
      cbn [l_tag entries with_entries with_l_elems fst snd].
      rewrite (filter_all _ _ Htagged').
      assert (j = k) as Hj.
      { unfold j, insert_pos. destruct (i <? 0)%Z eqn:E; [apply Z.ltb_lt in E; lia|].
        rewrite (index_pos_nonneg _ _ _ Hi Hk) in *. lia. }
      rewrite Hch, Hj, take_drop_insert_same by exact Hklt.
      rewrite Hent, list_fmap_insert. reflexivity.
    + intros Hi Hk0. rewrite Hlen. unfold insert_pos.
      destruct (i <? 0)%Z eqn:E; [|apply Z.ltb_ge in E; lia].
      pose proof (index_pos_neg _ _ _ Hi Hk). lia.
  - unfold AttributeList___setitem__, XmlList___setitem__, XmlList__setitem.
    unfold bind at 1. unfold bind at 1.
    unfold AttributeList__create_new_node, bind at 1, self_ at 1, ret at 1. cbn [fst].
    unfold bind at 1. unfold XmlList__delitem.
    unfold bind at 1. rewrite (List_rootnode_rooted l w r p n Hroot).
    cbv [bind self_ fst]. rewrite Hel, length_fmap, length_seq, <- Hlen, Hk. reflexivity.
Qed.

(** [l[a:b] = items] raises [TypeError] ([zip] refuses a slice) before
    anything is changed. *)
Lemma AttributeList_setitem_slice start stop item s :
  AttributeList___setitem__ (ISlice start stop) item s = (Raise TypeError, s).
Proof. reflexivity. Qed.

(** [l + ds] on an attribute list in step with its document appends the
    elements of [ds] to the document and returns a new plain list, the entries
    followed by [ds]; the list [l] itself keeps its entries, so it is the
    returned list, not [l], that mirrors the document afterwards. *)
Theorem AttributeList_add_outcome l w ds :
  attribute_list_in_sync l w ->
  exists l' w',
    AttributeList___add__ (LDict <$> ds) (l, w)
    = (Ok (entries l ++ (LDict <$> ds)), (l', w')) /\
    entries l' = entries l /\
    attribute_list_in_sync (with_entries (fun _ => entries l ++ (LDict <$> ds)) l') w' /\
    (ds <> [] -> ~ attribute_list_in_sync l' w').
Proof.
  intros (r & p & n & Hroot & Hel & Hent).
  destruct (AttributeList_additems_rooted ds l w r p n Hroot) as (w' & r' & Hloop & Hroot').
  set (n' := with_children (children n ++ (attribute_node (l_tag l) <$> ds)) n) in *.
  set (l' := with_l_elems ((fun i => p ++ [i])
               <$> positions (has_tag (l_tag l)) (children n') 0) l).
  assert (Hfil : (fun e => LDict (attrib e))
                   <$> filter (fun e => has_tag (l_tag l) e = true) (children n')
                 = entries l ++ (LDict <$> ds)).
  { unfold n'. cbn [children with_children].
    rewrite filter_tagged_app, fmap_app, Hent. f_equal.
    rewrite <- list_fmap_compose. reflexivity. }
  exists l', w'. split; [|split; [|split]].
  - unfold AttributeList___add__, XmlList___add__.
    unfold bind at 1. rewrite Hloop.
    unfold bind at 1. rewrite (TagXmlList_update_elems_rooted l w' r' p n' Hroot').
    reflexivity.
  - reflexivity.
  - exists r', p, n'. split; [exact Hroot'|]. split; [reflexivity|].
    cbn [entries with_entries]. symmetry. exact Hfil.
  - intros Hds (r2 & p2 & n2 & Hroot2 & _ & Hent2).
    assert (n2 = n') as ->.
    { destruct Hroot' as ((x1 & (o1 & Ho1 & Hx1) & Hr1) & Hres1 & Hn1).
      destruct Hroot2 as ((x2 & (o2 & Ho2 & Hx2) & Hr2) & Hres2 & Hn2).
      cbn [l_instance l_rootkeys l' with_l_elems] in *.
      assert (o2 = o1) as -> by congruence.
      assert (x2 = x1) as -> by congruence.
      assert (r2 = r') as -> by congruence.
      assert (p2 = p) as -> by congruence.
      congruence. }
    change (l_tag l') with (l_tag l) in Hent2. rewrite Hfil in Hent2.
    cbn [entries l' with_l_elems] in Hent2.
    apply (f_equal length) in Hent2. rewrite length_app, length_fmap in Hent2.
    destruct ds; [congruence|]. cbn [length] in Hent2. lia.
Qed.

End AttributeListSetitem.

(** ** [clear] on a UDF dictionary *)

Section UdfClearProperties.

Lemma relocate_sibling p a b :
  relocate (p ++ [a]) (p ++ [b])
  = if decide (a = b) then None
    else Some (p ++ [if decide (a < b) then b - 1 else b]).
Proof.
  unfold relocate. rewrite length_app. cbn [length].
  rewrite take_ge by (rewrite length_app; cbn [length]; lia).
  destruct (decide (a = b)) as [->|Hne].
  - rewrite decide_True by reflexivity. reflexivity.
  - rewrite decide_False by (intros Heq; apply app_inj_tail in Heq as [_ ?]; congruence).
    replace (length p + 1 - 1) with (length p) by lia.
    rewrite !take_app_length, !drop_app_length.
    rewrite decide_True by reflexivity. reflexivity.
Qed.

Lemma current_ref_snoc removed e x :
  current_ref (removed ++ [e]) x = current_ref removed x ≫= relocate e.
Proof. unfold current_ref. rewrite foldl_snoc. reflexivity. Qed.

Lemma resolve_path_alter_at g keys e p :
  (forall x, ElementTree.tag (g x) = ElementTree.tag x) ->
  resolve_path keys e = Some p -> resolve_path keys (alter_at g p e) = Some p.
Proof.
  intros Hg H. rewrite <- (app_nil_r p) at 1. apply resolve_path_alter_below; assumption.
Qed.

(** The removal loop of [clear], over the field elements found by a scan of
    the children [kept ++ l] of the nested root node, of which [kept] has
    been passed already. *)
Lemma remove_each_spec (d : UdfDictionary) p (l : list Element) :
  forall removed kept k c root n,
    resolve_path (rootkeys (fields d)) root = Some p ->
    node_at p root = Some n ->
    children n = kept ++ l ->
    length kept + c = k ->
    (forall j, k <= j -> current_ref removed (p ++ [j]) = Some (p ++ [j - c])) ->
    remove_each UdfDictionary_rootnode removed
      ((fun i => p ++ [i]) <$> positions (has_tag udf_field_tag) l k) (d, root)
    = (Ok tt,
       (d, alter_at (with_children
                       (kept ++ filter (fun e => has_tag udf_field_tag e = false) l)) p root)).
Proof.
  induction l as [|x l IH]; intros removed kept k c root n Hres Hn Hch Hk Hcur.
  - cbn [positions fmap list_fmap remove_each filter list_filter]. unfold ret. f_equal. f_equal.
    symmetry. apply (alter_at_same _ p root n Hn). rewrite app_nil_r in *.
    rewrite <- Hch. destruct n; reflexivity.
  - cbn [positions]. destruct (has_tag udf_field_tag x) eqn:Hx.
    + cbn [fmap list_fmap remove_each]. unfold bind at 1.
      rewrite (UdfDictionary_rootnode_present d root p Hres).
      rewrite (Hcur k (Nat.le_refl k)).
      replace (k - c) with (length kept) by lia.
      unfold bind at 1. rewrite doc_eq.
      rewrite (remove_child_spec p (length kept) root n Hn)
        by (rewrite Hch, length_app; cbn [length]; lia).
      cbn [fst snd].
      set (root1 := alter_at (remove_at (length kept)) p root).
      assert (Hn1 : node_at p root1 = Some (remove_at (length kept) n))
        by (unfold root1; rewrite node_at_alter_at, Hn; reflexivity).
      rewrite (IH (removed ++ [p ++ [length kept]]) kept (S k) (S c) root1
                 (remove_at (length kept) n)).
      * f_equal. f_equal. unfold root1. rewrite alter_at_compose.
        rewrite filter_cons, decide_False by (rewrite Hx; discriminate). reflexivity.
      * unfold root1. apply resolve_path_alter_at; [reflexivity|exact Hres].
      * exact Hn1.
      * unfold remove_at. cbn [children with_children]. rewrite Hch.
        rewrite delete_take_drop, take_app_length.
        replace (kept ++ x :: l) with ((kept ++ [x]) ++ l) by (rewrite <- app_assoc; reflexivity).
        rewrite drop_app_length' by (rewrite length_app; cbn [length]; lia). reflexivity.
      * lia.
      * intros j Hj. rewrite current_ref_snoc, (Hcur j) by lia. cbn [mbind option_bind].
        rewrite relocate_sibling.
        rewrite decide_False by lia. rewrite decide_True by lia.
        f_equal. f_equal. f_equal. lia.
    + rewrite (IH removed (kept ++ [x]) (S k) c root n Hres Hn).
      * f_equal. f_equal. f_equal. f_equal.
        rewrite filter_cons, decide_True by exact Hx. rewrite <- app_assoc. reflexivity.
      * rewrite Hch, <- app_assoc. reflexivity.
      * rewrite length_app. cbn [length]. lia.
      * intros j Hj. apply Hcur. lia.
Qed.

Lemma filter_out_Forall {A} (P : A -> bool) (l : list A) :
  Forall (fun x => P x = false) (filter (fun x => P x = false) l).
Proof. apply Forall_forall. intros x Hx. apply list_elem_of_filter in Hx as [Hx _]. exact Hx. Qed.

Lemma filter_in_out {A} (P : A -> bool) (l : list A) :
  filter (fun x => P x = true) (filter (fun x => P x = false) l) = [].
Proof.
  induction l as [|x l IH]; [reflexivity|].
  rewrite (filter_cons (fun x => P x = false)).
  destruct (decide (P x = false)) as [Hx|Hx]; [|exact IH].
  rewrite filter_cons, decide_False by congruence. exact IH.
Qed.

(** [clear()] on a dictionary without UDT support whose cached elements
    are the field elements of the nested root node. *)
Lemma clear_scanned (d : UdfDictionary) root p n :
  _udt (fields d) = UdtFlag false ->
  resolve_path (rootkeys (fields d)) root = Some p ->
  node_at p root = Some n ->
  _elems d = (fun i => p ++ [i]) <$> positions (has_tag udf_field_tag) (children n) 0 ->
  UdfDictionary_clear (d, root)
  = (Ok tt,
     (mkXmlDictionary ∅ [] (fields d),
      alter_at (with_children
                  (filter (fun e => has_tag udf_field_tag e = false) (children n))) p root)).
Proof.
  intros Hudt Hres Hn Hel.
  set (cs := filter (fun e => has_tag udf_field_tag e = false) (children n)).
  set (root' := alter_at (with_children cs) p root).
  set (d1 := mkXmlDictionary ∅ (_elems d) (fields d) : UdfDictionary).
  assert (Hres' : resolve_path (rootkeys (fields d)) root' = Some p)
    by (apply resolve_path_alter_at; [reflexivity|exact Hres]).
  assert (Hn' : node_at p root' = Some (with_children cs n))
    by (unfold root'; rewrite node_at_alter_at, Hn; reflexivity).
  assert (Hpos : positions (has_tag udf_field_tag) cs 0 = [])
    by (apply positions_nil_iff, filter_out_Forall).
  unfold UdfDictionary_clear, XmlDictionary_clear.
  unfold bind at 1. unfold dict_clear, set_items, modify at 1.
  change (mkXmlDictionary ∅ (_elems (d, root).1) (fields (d, root).1), (d, root).2)
    with (d1, root).
  unfold bind at 1. unfold self_elems at 1. cbn [fst _elems d1]. rewrite Hel.
  unfold bind at 1.
  rewrite (remove_each_spec d1 p (children n) [] [] 0 0 root n Hres Hn eq_refl eq_refl)
    by (intros j _; rewrite Nat.sub_0_r; reflexivity).
  cbn [app]. fold cs. fold root'.
  rewrite (update_elems_spec d1 root' p (with_children cs n) Hudt Hres' Hn').
  cbn [children with_children]. rewrite Hpos. reflexivity.
Qed.

(** [clear()] on a UDF dictionary in step with its document succeeds: the
    mapping and the cached elements are emptied, every field element is taken
    out of the nested root node, whose other children stay as they are and in
    their order, and the dictionary is in step with the document again. *)
Theorem UdfDictionary_clear_outcome (d : UdfDictionary) root :
  udf_in_sync d root ->
  exists p n root',
    resolve_path (rootkeys (fields d)) root = Some p /\
    node_at p root = Some n /\
    UdfDictionary_clear (d, root) = (Ok tt, (mkXmlDictionary ∅ [] (fields d), root')) /\
    root' = alter_at (with_children
                        (filter (fun e => has_tag udf_field_tag e = false) (children n)))
              p root /\
    backing_fields (mkXmlDictionary ∅ [] (fields d)) root' = [] /\
    udf_in_sync (mkXmlDictionary ∅ [] (fields d)) root'.
Proof.
  intros (Hudt & p & n & names & Hres & Hn & Hel & Hnames & Hnd & Hdom).
  set (cs := filter (fun e => has_tag udf_field_tag e = false) (children n)).
  set (root' := alter_at (with_children cs) p root).
  set (d' := mkXmlDictionary ∅ [] (fields d) : UdfDictionary).
  assert (Hres' : resolve_path (rootkeys (fields d)) root' = Some p)
    by (apply resolve_path_alter_at; [reflexivity|exact Hres]).
  assert (Hn' : node_at p root' = Some (with_children cs n))
    by (unfold root'; rewrite node_at_alter_at, Hn; reflexivity).
  assert (Hpos : positions (has_tag udf_field_tag) cs 0 = [])
    by (apply positions_nil_iff, filter_out_Forall).
  exists p, n, root'. split; [exact Hres|]. split; [exact Hn|].
  split; [exact (clear_scanned d root p n Hudt Hres Hn Hel)|].
  split; [reflexivity|split].
  - unfold backing_fields. cbn [fields d']. rewrite Hres'. cbn [mbind option_bind].
    rewrite Hn', Hudt. cbn [udt_truthy children with_children]. apply filter_in_out.
  - split; [exact Hudt|]. exists p, (with_children cs n), [].
    split; [exact Hres'|]. split; [exact Hn'|].
    cbn [children with_children _elems items d']. rewrite Hpos.
    split; [reflexivity|]. split; [unfold cs; rewrite filter_in_out; reflexivity|].
    split; [constructor|]. rewrite dom_empty_L. reflexivity.
Qed.

End UdfClearProperties.

(** ** Setting an item of a UDF dictionary: the outcome *)

Section UdfSetOutcome.

Variable py_float : string -> option string.
Variable py_strpdate : string -> option string.

(** The loop of [_setitem] stops at the element named [key]. *)
Lemma setitem_loop_found key value (d : UdfDictionary) root p n :
  node_at p root = Some n ->
  forall idx fs ns,
    Forall2 (fun i f => children n !! i = Some f) idx fs ->
    (fun f => attrib f !! "name") <$> fs = Some <$> ns ->
    key ∈ ns ->
    exists i f,
      i ∈ idx /\ children n !! i = Some f /\ attrib f !! "name" = Some key /\
      UdfDictionary__setitem_loop key value ((fun i => p ++ [i]) <$> idx) (d, root)
      = match attrib f !! "type" with
        | None => (Raise KeyError, (d, root))
        | Some ty =>
            match check_value (PyStr.lower ty) value with
            | Raise e => (Raise e, (d, root))
            | Ok v =>
                (Ok true, (d, alter_at (with_text (Some (encode_text v))) (p ++ [i]) root))
            end
        end.
Proof.
  intros Hn idx fs ns HF. revert ns.
  induction HF as [|i f idx fs Hi _ IH]; intros ns Hns Hin.
  - apply fmap_Some_nil in Hns. subst ns. inversion Hin.
  - destruct ns as [|name ns]; [discriminate|]. cbn [fmap list_fmap] in Hns.
    injection Hns as Hname Hns.
    assert (Hf : node_at (p ++ [i]) root = Some f)
      by (rewrite (node_at_child p i root n Hn); exact Hi).
    cbn [fmap list_fmap UdfDictionary__setitem_loop]. unfold bind at 1.
    rewrite (doc_attrib_get d root (p ++ [i]) f "name" Hf), Hname.
    destruct (decide (name <> key)) as [Hne|Heq].
    + apply elem_of_cons in Hin as [->|Hin]; [congruence|].
      destruct (IH ns Hns Hin) as (j & g & Hj & Hg & Hgn & Hloop).
      exists j, g. split; [apply elem_of_cons; auto|]. split; [exact Hg|].
      split; [exact Hgn|exact Hloop].
    + assert (name = key) as -> by (destruct (decide (name = key)); [assumption|contradiction]).
      exists i, f. split; [apply elem_of_cons; auto|]. split; [exact Hi|].
      split; [exact Hname|].
      unfold bind at 1. rewrite (doc_attrib_get d root (p ++ [i]) f "type" Hf).
      destruct (attrib f !! "type") as [ty|]; [|reflexivity].
      unfold bind at 1. unfold lift_result at 1.
      destruct (check_value (PyStr.lower ty) value) as [v|e]; [|reflexivity].
      unfold bind at 1. rewrite doc_eq, (mutate_spec _ _ root f Hf). reflexivity.
Qed.

(** [d[key] = value] for a key the dictionary has.  The mapping takes the
    value first; then the type of the backing element decides: a value that
    suits it becomes the text of that element, and nothing else in the
    document changes; a value that does not raises, the document is left as
    it was, and the mapping keeps the value. *)
Theorem setitem_existing_key key value (d : UdfDictionary) root :
  udf_in_sync d root ->
  key ∈ dom (items d) ->
  exists p n i f,
    resolve_path (rootkeys (fields d)) root = Some p /\
    node_at p root = Some n /\
    children n !! i = Some f /\
    has_tag udf_field_tag f = true /\ attrib f !! "name" = Some key /\
    let d1 := mkXmlDictionary (<[key := value]> (items d)) (_elems d) (fields d) in
    UdfDictionary___setitem__ py_float py_strpdate key value (d, root)
    = match attrib f !! "type" with
      | None => (Raise KeyError, (d1, root))
      | Some ty =>
          match check_value (PyStr.lower ty) value with
          | Raise e => (Raise e, (d1, root))
          | Ok v =>
              (Ok tt, (d1, alter_at (with_text (Some (encode_text v))) (p ++ [i]) root))
          end
      end.
Proof.
  intros (Hudt & p & n & names & Hres & Hn & Hel & Hnames & Hnd & Hdom) Hkey.
  rewrite Hdom in Hkey. apply elem_of_list_to_set in Hkey.
  set (d1 := mkXmlDictionary (<[key:=value]> (items d)) (_elems d) (fields d)).
  pose proof (positions_elements (has_tag udf_field_tag) (children n)) as HF.
  destruct (setitem_loop_found key value d1 root p n Hn _ _ names HF Hnames Hkey)
    as (i & f & Hi & Hf & Hname & Hloop).
  exists p, n, i, f. split; [exact Hres|]. split; [exact Hn|]. split; [exact Hf|].
  split.
  { apply list_elem_of_lookup in Hi as (k & Hk).
    destruct (Forall2_lookup_l _ _ _ _ _ HF Hk) as (f0 & Hf0 & Hif).
    rewrite Hf in Hif. injection Hif as <-.
    apply list_elem_of_lookup_2 in Hf0. apply list_elem_of_filter in Hf0 as [Ht _]. exact Ht. }
  split; [exact Hname|]. cbv zeta. fold d1.
  unfold UdfDictionary___setitem__, XmlDictionary___setitem__.
  unfold bind at 1. unfold dict___setitem__, set_items, modify.
  change (mkXmlDictionary (<[key:=value]> (items (d, root).1)) (_elems (d, root).1)
            (fields (d, root).1), (d, root).2) with (d1, root).
  unfold UdfDictionary__setitem. unfold bind at 1. unfold self_elems at 1.
  cbn [fst _elems d1]. rewrite Hel. unfold bind at 1. rewrite Hloop.
  destruct (attrib f !! "type") as [ty|]; [|reflexivity].
  destruct (check_value (PyStr.lower ty) value) as [v|e]; reflexivity.
Qed.

(** [_prepare_lookup] over field elements that can all be read enters each
    of them, in order. *)
Lemma prepare_lookup_parsed p n idx fs :
  Forall2 (fun i f => children n !! i = Some f) idx fs ->
  Forall (fun f => is_Some (attrib f !! "name") /\
                   is_Some (field_value py_float py_strpdate f)) fs ->
  forall (d : UdfDictionary) root,
    node_at p root = Some n ->
    for_each ((fun i => p ++ [i]) <$> idx)
      (UdfDictionary__parse_element py_float py_strpdate) (d, root)
    = (Ok tt,
       (mkXmlDictionary (foldl (enter_field py_float py_strpdate) (items d) fs)
          (_elems d) (fields d), root)).
Proof.
  induction 1 as [|i f idx fs Hi _ IH]; intros Hall d root Hn.
  - destruct d; reflexivity.
  - apply Forall_cons in Hall as [[[name Hname] [v Hv]] Hall].
    assert (Hf : node_at (p ++ [i]) root = Some f)
      by (rewrite (node_at_child p i root n Hn); exact Hi).
    cbn [fmap list_fmap for_each foldl]. unfold bind at 1.
    unfold UdfDictionary__parse_element.
    unfold bind at 1. rewrite (doc_attrib_get d root (p ++ [i]) f "type" Hf).
    unfold field_value in Hv.
    destruct (attrib f !! "type") as [ty|] eqn:Hty; [|discriminate].
    unfold bind at 1. rewrite doc_deref, Hf.
    unfold bind at 1. unfold lift_result at 1.
    destruct (parse_value py_float py_strpdate (PyStr.lower ty) (text f)) as [v'|]
      eqn:Hp; [|discriminate].
    injection Hv as ->.
    unfold bind at 1. rewrite (doc_attrib_get d root (p ++ [i]) f "name" Hf), Hname.
    unfold dict___setitem__, set_items, modify. cbn [fst snd items _elems fields].
    assert (Hef : enter_field py_float py_strpdate (items d) f = <[name := v]> (items d)).
    { unfold enter_field, field_value. rewrite Hname, Hty, Hp. reflexivity. }
    rewrite (IH Hall _ root Hn), Hef. reflexivity.
Qed.

Lemma foldl_enter_field_dom (fs : list Element) :
  forall (m : gmap string PyValue) names,
    (fun f => attrib f !! "name") <$> fs = Some <$> names ->
    Forall (fun f => is_Some (field_value py_float py_strpdate f)) fs ->
    dom (foldl (enter_field py_float py_strpdate) m fs) = dom m ∪ list_to_set names.
Proof.
  induction fs as [|f fs IH]; intros m names Hn Hall.
  - apply fmap_Some_nil in Hn as ->. cbn. rewrite union_empty_r_L. reflexivity.
  - destruct names as [|name names]; [discriminate|].
    cbn [fmap list_fmap] in Hn. injection Hn as Hname Hn.
    apply Forall_cons in Hall as [[v Hv] Hall].
    cbn [foldl]. rewrite (IH _ names Hn Hall).
    unfold enter_field. rewrite Hname, Hv, dom_insert_L. cbn [list_to_set].
    rewrite (union_comm_L {[name]} (dom m)), union_assoc_L. reflexivity.
Qed.

(** The field that is named [key] and comes last decides what the key maps
    to. *)
Lemma foldl_enter_field_last (fs : list Element) f key v :
  forall (m : gmap string PyValue),
    attrib f !! "name" = Some key -> field_value py_float py_strpdate f = Some v ->
    foldl (enter_field py_float py_strpdate) m (fs ++ [f]) !! key = Some v.
Proof.
  intros m Hname Hv. rewrite foldl_snoc. unfold enter_field at 1.
  rewrite Hname, Hv. apply lookup_insert_eq.
Qed.

(** What a new key maps to after [d[key] = value]: an [int], a [bool] and
    a non-empty [str] read back as themselves; the empty string reads back as
    [None]. *)
Lemma new_value_round_trip value :
  match value with
  | VInt _ | VBool _ | VStr _ =>
      exists vtype v,
        infer_type value = Ok (vtype, v) /\
        parse_value py_float py_strpdate (PyStr.lower vtype) (Some (encode_text v))
        = Ok (if decide (value = VStr EmptyString) then VNone else value)
  | _ => True
  end.
Proof.
  destruct value as [|s| |b|n| | |]; try exact I.
  - exists (if PyStr.contains_char "010" s then "Text" else "String"), (VStr s).
    split; [reflexivity|].
    unfold parse_value. cbn [encode_text text_chars].
    destruct (decide (s = EmptyString)) as [->|Hs]; [reflexivity|].
    rewrite (decide_False (P := VStr s = VStr EmptyString)) by congruence.
    destruct (PyStr.contains_char "010" s); reflexivity.
  - exists "Boolean", (VStr (if b then "true" else "false")). split; [reflexivity|].
    destruct b; reflexivity.
  - exists "Numeric", (VStr (PyStr.of_int n)). split; [reflexivity|].
    unfold parse_value. cbn [encode_text text_chars].
    destruct (decide (PyStr.of_int n = EmptyString)) as [He|_].
    + pose proof (int_of_int n) as H. rewrite He in H. discriminate.
    + change (PyStr.lower "Numeric") with "numeric".
      rewrite decide_True by reflexivity. rewrite int_of_int. reflexivity.
Qed.

(** [d[key] = value] for a key the dictionary does not have, on a
    dictionary in step with a document whose fields can all be read, for a
    value of a type [_setitem] handles and whose text reads back.  The call
    succeeds: a field element of the inferred type, named [key], is appended
    to the nested root node; the dictionary rescans and reads every field
    again, so that it is in step with the document, has one key more, and
    maps [key] to the value its new element reads as: an [int], a [bool] and
    a non-empty [str] read back as themselves, the empty string as [None]. *)
Lemma setitem_new_key_step key value vtype v stored (d : UdfDictionary) root :
  udf_in_sync d root ->
  udf_parseable py_float py_strpdate d root ->
  key ∉ dom (items d) ->
  infer_type value = Ok (vtype, v) ->
  parse_value py_float py_strpdate (PyStr.lower vtype) (Some (encode_text v)) = Ok stored ->
  exists p n d' root',
    resolve_path (rootkeys (fields d)) root = Some p /\
    node_at p root = Some n /\
    UdfDictionary___setitem__ py_float py_strpdate key value (d, root)
      = (Ok tt, (d', root')) /\
    root' = alter_at (ElementTree.append (new_field vtype key v)) p root /\
    backing_fields d' root' = backing_fields d root ++ [new_field vtype key v] /\
    items d' = foldl (enter_field py_float py_strpdate) (<[key := value]> (items d))
                 (backing_fields d' root') /\
    items d' !! key = Some stored /\
    dom (items d') = dom (items d) ∪ {[key]} /\
    udf_in_sync d' root' /\ udf_parseable py_float py_strpdate d' root' /\
    fields d' = fields d /\
    match value with
    | VInt _ | VBool _ | VStr _ =>
        stored = if decide (value = VStr EmptyString) then VNone else value
    | _ => True
    end.
Proof.
  intros Hsync Hparse Hkey Hinfer Hstored.
  assert (Hround : match value with
                   | VInt _ | VBool _ | VStr _ =>
                       stored = if decide (value = VStr EmptyString) then VNone else value
                   | _ => True
                   end).
  { pose proof (new_value_round_trip value) as Hrt.
    destruct value; try exact I; destruct Hrt as (vt & v0 & Hi & Hp);
      rewrite Hinfer in Hi; injection Hi as <- <-; rewrite Hstored in Hp; congruence. }
  pose proof Hsync as (Hudt & p & n & names & Hres & Hn & Hel & Hnames & Hnd & Hdom).
  assert (Hnin : key ∉ names).
  { intros Hin. apply Hkey. rewrite Hdom. apply elem_of_list_to_set. exact Hin. }
  set (d1 := mkXmlDictionary (<[key:=value]> (items d)) (_elems d) (fields d) : UdfDictionary).
  set (new1 := new_field vtype key v).
  set (g := ElementTree.append new1).
  assert (Hg : forall x, ElementTree.tag (g x) = ElementTree.tag x) by reflexivity.
  set (root2 := alter_at g p root).
  assert (Hres2 : resolve_path (rootkeys (fields d)) root2 = Some p)
    by (apply resolve_path_alter_at; [exact Hg|exact Hres]).
  assert (Hn2 : node_at p root2 = Some (g n))
    by (unfold root2; rewrite node_at_alter_at, Hn; reflexivity).
  set (fs := filter (fun f => has_tag udf_field_tag f = true) (children n)).
  assert (Hbf : backing_fields d root = fs).
  { unfold backing_fields. rewrite Hres. cbn [mbind option_bind]. rewrite Hn, Hudt. reflexivity. }
  assert (Hfs2 : filter (fun f => has_tag udf_field_tag f = true) (children (g n))
                 = fs ++ [new1]).
  { unfold g, ElementTree.append. cbn [children with_children]. rewrite filter_app.
    f_equal. }
  assert (Hnew_name : attrib new1 !! "name" = Some key) by apply udf_field_name.
  assert (Hnew_val : field_value py_float py_strpdate new1 = Some stored).
  { unfold field_value, new1, new_field. cbn [attrib text with_text with_attrib Element_].
    assert (Hty : (list_to_map [("type", vtype); ("name", key)] : gmap string string)
                  !! "type" = Some vtype) by apply lookup_insert_eq.
    rewrite Hty, Hstored. reflexivity. }
  assert (Hall2 : Forall (fun f => is_Some (attrib f !! "name") /\
                                   is_Some (field_value py_float py_strpdate f))
                    (fs ++ [new1])).
  { apply Forall_app. split; [rewrite <- Hbf; exact Hparse|].
    constructor; [|constructor]. split; eauto. }
  set (d' := mkXmlDictionary
               (foldl (enter_field py_float py_strpdate) (<[key:=value]> (items d))
                  (fs ++ [new1]))
               ((fun i => p ++ [i])
                  <$> positions (has_tag udf_field_tag) (children (g n)) 0)
               (fields d) : UdfDictionary).
  assert (Hbf' : backing_fields d' root2 = fs ++ [new1]).
  { unfold backing_fields. cbn [fields d']. rewrite Hres2. cbn [mbind option_bind].
    rewrite Hn2, Hudt. exact Hfs2. }
  assert (Hnames2 : (fun f => attrib f !! "name") <$> (fs ++ [new1])
                    = Some <$> (names ++ [key])).
  { rewrite !fmap_app. unfold fs. rewrite Hnames. cbn [fmap list_fmap].
    rewrite Hnew_name. reflexivity. }
  assert (Hdom' : dom (items d') = dom (items d) ∪ {[key]}).
  { cbn [items d'].
    rewrite (foldl_enter_field_dom _ _ (names ++ [key]) Hnames2)
      by (eapply Forall_impl; [exact Hall2|]; intros f [_ Hf]; exact Hf).
    rewrite dom_insert_L, list_to_set_app_L, Hdom. cbn [list_to_set].
    rewrite union_empty_r_L. apply set_eq. intros y.
    rewrite !elem_of_union, !elem_of_singleton. tauto. }
  exists p, n, d', root2. split; [exact Hres|]. split; [exact Hn|].
  split; [|split; [reflexivity|split; [rewrite Hbf; exact Hbf'|split; [|split; [|split; [|split; [|split; [|split; [reflexivity|exact Hround]]]]]]]]].
  - destruct (setitem_loop_spec key value d1 root p n Hn _ _ names
                (positions_elements _ _) Hnames) as [Hno _].
    unfold UdfDictionary___setitem__, XmlDictionary___setitem__.
    unfold bind at 1. unfold dict___setitem__, set_items, modify.
    change (mkXmlDictionary (<[key:=value]> (items (d, root).1)) (_elems (d, root).1)
              (fields (d, root).1), (d, root).2) with (d1, root).
    unfold UdfDictionary__setitem. unfold bind at 1. unfold self_elems at 1.
    cbn [fst _elems d1]. rewrite Hel.
    unfold bind at 1. rewrite (Hno Hnin).
    unfold bind at 1. unfold lift_result at 1. rewrite Hinfer.
    unfold bind at 1. unfold self_udt at 1. cbn [fst fields d1]. rewrite Hudt.
    cbn [udt_truthy]. unfold bind at 1. unfold bind at 1.
    rewrite (UdfDictionary_rootnode_present d1 root p Hres). unfold ret at 1.
    unfold bind at 1. rewrite doc_eq. unfold SubElement.
    rewrite (append_new_spec p _ root n Hn). cbn [fst snd].
    unfold bind at 1. rewrite doc_eq.
    set (new0 := with_attrib (list_to_map [("type", vtype); ("name", key)])
                   (Element_ udf_field_tag)).
    assert (Hnew : node_at (p ++ [length (children n)])
                     (alter_at (ElementTree.append new0) p root) = Some new0).
    { rewrite (node_at_child p _ _ (ElementTree.append new0 n))
        by (rewrite node_at_alter_at, Hn; reflexivity).
      cbn [children ElementTree.append with_children].
      rewrite lookup_app_r by lia. rewrite Nat.sub_diag. reflexivity. }
    rewrite (mutate_spec _ _ _ new0 Hnew). cbn [fst snd].
    assert (Hroot2 : alter_at (with_text (Some (encode_text v))) (p ++ [length (children n)])
                       (alter_at (ElementTree.append new0) p root) = root2).
    { unfold root2. rewrite alter_at_app, alter_at_compose.
      eapply alter_at_ext_at; [exact Hn|].
      unfold g, new1, new_field, ElementTree.append, with_children.
      cbn [alter_at children ElementTree.tag attrib text]. f_equal.
      rewrite alter_app_r_alt by lia. rewrite Nat.sub_diag. reflexivity. }
    rewrite Hroot2.
    unfold bind at 1.
    rewrite (update_elems_spec d1 root2 p (g n) Hudt Hres2 Hn2).
    unfold UdfDictionary__prepare_lookup, XmlDictionary__prepare_lookup.
    unfold bind at 1. unfold self_elems at 1. cbn [fst _elems].
    rewrite (prepare_lookup_parsed p (g n) _ (fs ++ [new1])); [reflexivity| |exact Hall2|exact Hn2].
    rewrite <- Hfs2. apply positions_elements.
  - rewrite Hbf'. reflexivity.
  - cbn [items d']. apply (foldl_enter_field_last fs new1 key stored _ Hnew_name Hnew_val).
  - exact Hdom'.
  - split; [exact Hudt|]. exists p, (g n), (names ++ [key]).
    split; [exact Hres2|]. split; [exact Hn2|]. split; [reflexivity|].
    split; [rewrite Hfs2; exact Hnames2|].
    split.
    { apply NoDup_app. split; [exact Hnd|]. split; [|apply NoDup_singleton].
      intros x Hx Hx'. apply list_elem_of_singleton in Hx' as ->. contradiction. }
    rewrite Hdom', Hdom, list_to_set_app_L. cbn [list_to_set].
    rewrite union_empty_r_L. reflexivity.
  - unfold udf_parseable. rewrite Hbf'. exact Hall2.
Qed.

(** Naming the UDT of a dictionary declared with UDT support, on a document
    that has the nested root node.  The name is recorded in the dictionary
    first; it reaches the document when the node has a [udf:type] child, whose
    [name] attribute it becomes; without such a child the call fails with
    [AssertionError], the dictionary keeps the name and the document is
    unchanged.  A name that is not a [str] is refused before anything
    changes. *)
Theorem set_udt_outcome (d : UdfDictionary) root name p n :
  udt_truthy (_udt (fields d)) = true ->
  resolve_path (rootkeys (fields d)) root = Some p ->
  node_at p root = Some n ->
  let d1 := mkXmlDictionary (items d) (_elems d)
              (mkUdfFields (rootkeys (fields d)) (UdtName name)) in
  UdfDictionary_set_udt (VStr name) (d, root)
  = match head (positions (has_tag udf_type_tag) (children n) 0) with
    | Some i => (Ok tt, (d1, alter_at (ElementTree.set "name" name) (p ++ [i]) root))
    | None => (Raise AssertionError, (d1, root))
    end /\
  UdfDictionary_get_udt d1 = VStr name /\
  (forall v, (forall s, v <> VStr s) ->
     UdfDictionary_set_udt v (d, root) = (Raise AssertionError, (d, root))).
Proof.
  intros Hudt Hres Hn d1. split; [|split].
  - unfold UdfDictionary_set_udt. unfold bind at 1. unfold self_udt at 1.
    cbn [fst]. rewrite Hudt. cbn [negb].
    unfold bind at 1. unfold set_self_udt, modify.
    change (mkXmlDictionary (items (d, root).1) (_elems (d, root).1)
              (mkUdfFields (rootkeys (fields (d, root).1)) (UdtName name)), (d, root).2)
      with (d1, root).
    unfold bind at 1. rewrite (UdfDictionary_rootnode_present d1 root p Hres).
    unfold bind at 1. rewrite doc_eq.
    unfold ElementTree.find, findall, bind, deref, ret. rewrite Hn. cbn [fst snd].
    destruct (positions (has_tag udf_type_tag) (children n) 0) as [|i idx] eqn:Hpos;
      [reflexivity|].
    cbn [fmap list_fmap head].
    assert (Hh : head (positions (has_tag udf_type_tag) (children n) 0) = Some i)
      by (rewrite Hpos; reflexivity).
    destruct (positions_head _ _ _ _ Hh) as (k & e & -> & He & _ & _).
    rewrite Nat.add_0_l in *. rewrite doc_eq.
    rewrite (mutate_spec (p ++ [k]) _ root e)
      by (rewrite (node_at_child p k root n Hn); exact He).
    reflexivity.
  - reflexivity.
  - intros v Hv. destruct v; try reflexivity. destruct (Hv s eq_refl).
Qed.

End UdfSetOutcome.

(** ** Setting a new key, and assigning a whole dictionary *)

Section UdfAssignProperties.

Variable lims : Lims.
Variable py_float : string -> option string.
Variable py_strpdate : string -> option string.

Lemma simple_value_field key value :
  simple_value value ->
  exists vtype v,
    infer_type value = Ok (vtype, v) /\
    field_of (key, value) = new_field vtype key v /\
    parse_value py_float py_strpdate (PyStr.lower vtype) (Some (encode_text v))
    = Ok (stored_value value).
Proof.
  intros Hs. pose proof (new_value_round_trip py_float py_strpdate value) as Hrt.
  destruct value; try destruct Hs; destruct Hrt as (vt & v0 & Hi & Hp);
    exists vt, v0; (split; [exact Hi|]); (split; [|exact Hp]);
    unfold field_of; cbn [snd fst]; rewrite Hi; reflexivity.
Qed.

(** [d[key] = value] for a new key and a [str], [bool] or [int] value, on a
    dictionary in step with a document whose fields can all be read: the call
    succeeds, one field element is appended, the dictionary has one key more
    and stays in step, and [d[key]] reads the value back (the empty string as
    [None]). *)
Theorem setitem_new_key_round_trip key value (d : UdfDictionary) root :
  udf_in_sync d root ->
  udf_parseable py_float py_strpdate d root ->
  key ∉ dom (items d) ->
  simple_value value ->
  exists d' root',
    UdfDictionary___setitem__ py_float py_strpdate key value (d, root)
      = (Ok tt, (d', root')) /\
    backing_fields d' root' = backing_fields d root ++ [field_of (key, value)] /\
    items d' !! key = Some (stored_value value) /\
    size (items d') = S (size (items d)) /\
    udf_in_sync d' root' /\ udf_parseable py_float py_strpdate d' root'.
Proof.
  intros Hsync Hparse Hkey Hs.
  destruct (simple_value_field key value Hs) as (vtype & v & Hi & Hf & Hp).
  destruct (setitem_new_key_step py_float py_strpdate key value vtype v _ d root
              Hsync Hparse Hkey Hi Hp)
    as (p & n & d' & root' & _ & _ & Hset & _ & Hbf & _ & Hlook & Hdom & Hsync' & Hparse' & _ & _).
  exists d', root'. split; [exact Hset|]. split; [rewrite Hf; exact Hbf|].
  split; [exact Hlook|]. split; [|split; assumption].
  rewrite <- !size_dom, Hdom, size_union by (apply disjoint_singleton_r; exact Hkey).
  rewrite size_singleton. lia.
Qed.

(** With names that are pairwise distinct, every field decides what its
    own name maps to. *)
Lemma foldl_enter_field_lookup (fs : list Element) :
  forall (m : gmap string PyValue) names f name v,
    (fun f => attrib f !! "name") <$> fs = Some <$> names ->
    NoDup names ->
    f ∈ fs -> attrib f !! "name" = Some name ->
    field_value py_float py_strpdate f = Some v ->
    foldl (enter_field py_float py_strpdate) m fs !! name = Some v.
Proof.
  induction fs as [|g fs IH] using rev_ind; intros m names f name v Hn Hnd Hin Hname Hv.
  - inversion Hin.
  - rewrite fmap_app in Hn. cbn [fmap list_fmap] in Hn.
    apply elem_of_app in Hin as [Hin|Hin].
    2:{ apply list_elem_of_singleton in Hin as ->.
        apply foldl_enter_field_last; assumption. }
    {
      assert (Hsplit : exists names' gname,
                names = names' ++ [gname] /\
                (fun f => attrib f !! "name") <$> fs = Some <$> names' /\
                attrib g !! "name" = Some gname).
      { destruct names as [|x names0] using rev_ind.
        - destruct fs; discriminate.
        - rewrite fmap_app in Hn. cbn [fmap list_fmap] in Hn.
          apply app_inj_tail in Hn as [Hn1 Hn2]. exists names0, x. auto. }
      destruct Hsplit as (names' & gname & -> & Hn' & Hg).
      apply NoDup_app in Hnd as (Hnd' & Hdisj & _).
      assert (name ∈ names').
      { assert (Some name ∈ Some <$> names') as Hin'.
        { rewrite <- Hn', <- Hname. apply list_elem_of_fmap. exists f. auto. }
        apply list_elem_of_fmap in Hin' as (y & [= ->] & Hy). exact Hy. }
      assert (name <> gname).
      { intros ->. apply (Hdisj gname); [assumption|]. apply list_elem_of_singleton. reflexivity. }
      rewrite foldl_snoc. unfold enter_field at 1. rewrite Hg.
      destruct (field_value py_float py_strpdate g).
      * rewrite lookup_insert_ne by congruence. eapply IH; eauto.
      * eapply IH; eauto. }
Qed.

Lemma field_of_readable key value :
  simple_value value ->
  attrib (field_of (key, value)) !! "name" = Some key /\
  field_value py_float py_strpdate (field_of (key, value)) = Some (stored_value value).
Proof.
  intros Hs. destruct (simple_value_field key value Hs) as (vtype & v & Hi & Hf & Hp).
  rewrite Hf. split; [apply udf_field_name|].
  unfold field_value, new_field. cbn [attrib text with_text with_attrib Element_].
  assert (Hty : (list_to_map [("type", vtype); ("name", key)] : gmap string string)
                !! "type" = Some vtype) by apply lookup_insert_eq.
  rewrite Hty, Hp. reflexivity.
Qed.

(** The constructor on a document whose fields can all be read. *)
Lemma init_parsed nesting root p n :
  resolve_path (default [] nesting) root = Some p ->
  node_at p root = Some n ->
  Forall (fun f => is_Some (attrib f !! "name") /\
                   is_Some (field_value py_float py_strpdate f))
    (filter (fun f => has_tag udf_field_tag f = true) (children n)) ->
  UdfDictionary___init__ py_float py_strpdate nesting (UdtFlag false)
    (UdfDictionary_blank, root)
  = (Ok tt,
     (mkXmlDictionary
        (foldl (enter_field py_float py_strpdate) ∅
           (filter (fun f => has_tag udf_field_tag f = true) (children n)))
        ((fun i => p ++ [i]) <$> positions (has_tag udf_field_tag) (children n) 0)
        (mkUdfFields (default [] nesting) (UdtFlag false)), root)).
Proof.
  intros Hres Hn Hall.
  set (d0 := mkXmlDictionary ∅ [] (mkUdfFields (default [] nesting) (UdtFlag false))
             : UdfDictionary).
  unfold UdfDictionary___init__, XmlDictionary___init__.
  unfold bind at 1. unfold modify at 1.
  unfold bind at 1. unfold dict_clear, set_items, modify at 1.
  change (mkXmlDictionary ∅ _ _, _) with (d0, root).
  unfold bind at 1.
  rewrite (update_elems_spec d0 root p n eq_refl Hres Hn).
  unfold XmlDictionary__prepare_lookup. unfold bind at 1. unfold self_elems at 1.
  cbn [fst _elems].
  rewrite (prepare_lookup_parsed py_float py_strpdate p n _ _
             (positions_elements _ _) Hall _ root Hn).
  reflexivity.
Qed.

(** Setting the items of a [dict], all of them new keys with [str], [bool]
    or [int] values. *)
Lemma setitems_new_keys (dict_value : list (string * PyValue)) :
  forall (d : UdfDictionary) root p n,
    udf_in_sync d root ->
    udf_parseable py_float py_strpdate d root ->
    resolve_path (rootkeys (fields d)) root = Some p ->
    node_at p root = Some n ->
    NoDup dict_value.*1 ->
    (forall k, k ∈ dict_value.*1 -> k ∉ dom (items d)) ->
    Forall (fun item => simple_value item.2) dict_value ->
    exists d',
      for_each dict_value (fun '(k, v) =>
        UdfDictionary___setitem__ py_float py_strpdate k v) (d, root)
      = (Ok tt,
         (d', alter_at (fun e => with_children (children e ++ (field_of <$> dict_value)) e)
                p root)) /\
      fields d' = fields d.
Proof.
  induction dict_value as [|[key value] rest IH];
    intros d root p n Hsync Hparse Hres Hn Hnd Hnew Hsimple.
  - exists d. split; [|reflexivity]. cbn [for_each fmap list_fmap]. unfold ret.
    f_equal. f_equal. symmetry. apply (alter_at_same _ p root n Hn).
    rewrite app_nil_r. destruct n; reflexivity.
  - cbn [fmap list_fmap fst] in Hnd, Hnew. apply NoDup_cons in Hnd as [Hnotin Hnd].
    apply Forall_cons in Hsimple as [Hs Hsimple]. cbn [snd] in Hs.
    destruct (simple_value_field key value Hs) as (vtype & v & Hi & Hf & Hp).
    destruct (setitem_new_key_step py_float py_strpdate key value vtype v _ d root
                Hsync Hparse (Hnew key (list_elem_of_here _ _)) Hi Hp)
      as (p' & n' & d1 & root1 & Hres' & Hn' & Hset & Hroot1 & _ & _ & _ & Hdom
          & Hsync1 & Hparse1 & Hf1 & _).
    assert (p' = p) as -> by congruence. assert (n' = n) as -> by congruence.
    destruct (IH d1 root1 p (ElementTree.append (new_field vtype key v) n)) as (d' & Hloop & Hf').
    + exact Hsync1.
    + exact Hparse1.
    + rewrite Hf1, Hroot1. apply resolve_path_alter_at; [reflexivity|exact Hres].
    + rewrite Hroot1, node_at_alter_at, Hn. reflexivity.
    + exact Hnd.
    + intros k Hk. rewrite Hdom. intros Hin. apply elem_of_union in Hin as [Hin|Hin].
      * apply (Hnew k); [apply elem_of_cons; auto|exact Hin].
      * apply elem_of_singleton in Hin as ->. contradiction.
    + exact Hsimple.
    + exists d'. split; [|congruence].
      cbn [for_each]. unfold bind at 1. rewrite Hset, Hloop, Hroot1.
      f_equal. f_equal. rewrite alter_at_compose.
      eapply alter_at_ext_at; [exact Hn|].
      cbn [fmap list_fmap]. rewrite Hf. unfold ElementTree.append, with_children.
      cbn [children ElementTree.tag attrib text]. rewrite <- app_assoc. reflexivity.
Qed.

Lemma on_udf_fetched {A} (m : U A) (d : UdfDictionary) w instance x r :
  has_attrs w instance x -> root x = Some r ->
  on_udf instance m d w
  = (Ok ((m (d, r)).1, (m (d, r)).2.1), world_with_root w instance (m (d, r)).2.2).
Proof.
  intros H Hr. unfold on_udf, bind.
  rewrite (attrs_of_has_attrs w instance x H), Hr.
  destruct (m (d, r)) as [res [d' r']]. cbn [fst snd].
  destruct H as (o & Ho & Hx).
  unfold set_root, bind, object_at, modify. rewrite Ho. cbn [fst snd].
  unfold world_with_root. rewrite Ho. reflexivity.
Qed.

(** [entity.udf = dict_value] on a fetched entity whose document has the
    nested root node and fields that can all be read, for a [dict] of [str],
    [bool] and [int] values.  The assignment succeeds without any request: it
    takes every former field element out of the root node, keeps the other
    children in their order, and appends one field element per item, in the
    order of the [dict].  Reading [entity.udf] afterwards changes nothing and
    yields a dictionary whose keys are those of the [dict], each mapped to its
    value (the empty string to [None]). *)
Theorem udf_assignment_replaces_fields nesting dict_value w instance x r p n :
  has_attrs w instance x -> root x = Some r ->
  resolve_path (default [] nesting) r = Some p ->
  node_at p r = Some n ->
  Forall (fun f => is_Some (attrib f !! "name") /\
                   is_Some (field_value py_float py_strpdate f))
    (filter (fun f => has_tag udf_field_tag f = true) (children n)) ->
  NoDup dict_value.*1 ->
  Forall (fun item => simple_value item.2) dict_value ->
  let r' := alter_at (with_children
                        (filter (fun e => has_tag udf_field_tag e = false) (children n)
                         ++ (field_of <$> dict_value))) p r in
  let w' := world_with_root w instance r' in
  UdfDictionaryDescriptor___set__ lims py_float py_strpdate nesting false instance
    dict_value w = (Ok tt, w') /\
  requests w' = requests w /\
  exists d,
    UdfDictionaryDescriptor___get__ lims py_float py_strpdate nesting false instance w'
      = (Ok d, w') /\
    dom (items d) = list_to_set dict_value.*1 /\
    (forall k v, (k, v) ∈ dict_value -> items d !! k = Some (stored_value v)).
Proof.
  intros H Hr Hres Hn Hall Hnd Hsimple r' w'.
  set (keys := default [] nesting).
  set (flds := mkUdfFields keys (UdtFlag false)).
  set (cs := filter (fun e => has_tag udf_field_tag e = false) (children n)).
  set (r1 := alter_at (with_children cs) p r).
  set (d_empty := mkXmlDictionary ∅ [] flds : UdfDictionary).
  assert (Hres1 : resolve_path keys r1 = Some p)
    by (apply resolve_path_alter_at; [reflexivity|exact Hres]).
  assert (Hn1 : node_at p r1 = Some (with_children cs n))
    by (unfold r1; rewrite node_at_alter_at, Hn; reflexivity).
  assert (Hpos1 : positions (has_tag udf_field_tag) cs 0 = [])
    by (apply positions_nil_iff, filter_out_Forall).
  assert (Hsync1 : udf_in_sync d_empty r1).
  { split; [reflexivity|]. exists p, (with_children cs n), [].
    split; [exact Hres1|]. split; [exact Hn1|].
    cbn [children with_children _elems items d_empty]. rewrite Hpos1.
    split; [reflexivity|]. split; [unfold cs; rewrite filter_in_out; reflexivity|].
    split; [constructor|]. rewrite dom_empty_L. reflexivity. }
  assert (Hparse1 : udf_parseable py_float py_strpdate d_empty r1).
  { assert (Hbf : backing_fields d_empty r1 = []).
    { unfold backing_fields. cbn [fields d_empty rootkeys flds].
      rewrite Hres1. cbn [mbind option_bind]. rewrite Hn1.
      cbn [_udt udt_truthy children with_children]. apply filter_in_out. }
    unfold udf_parseable. rewrite Hbf. constructor. }
  destruct (setitems_new_keys dict_value d_empty r1 p (with_children cs n)
              Hsync1 Hparse1 Hres1 Hn1 Hnd) as (d2 & Hloop & Hf2).
  { intros k _. cbn [items d_empty]. rewrite dom_empty_L. apply not_elem_of_empty. }
  { exact Hsimple. }
  assert (Hr' : alter_at (fun e => with_children (children e ++ (field_of <$> dict_value)) e)
                  p r1 = r').
  { unfold r1, r'. rewrite alter_at_compose. reflexivity. }
  rewrite Hr' in Hloop.
  assert (Hset : (UdfDictionary___init__ py_float py_strpdate nesting (UdtFlag false) ;;
                  UdfDictionary_clear ;;
                  for_each dict_value (fun '(k, v) =>
                    UdfDictionary___setitem__ py_float py_strpdate k v))
                   (UdfDictionary_blank, r) = (Ok tt, (d2, r'))).
  { unfold bind at 1. rewrite (init_parsed nesting r p n Hres Hn Hall).
    unfold bind at 1.
    rewrite (clear_scanned
               (mkXmlDictionary
                  (foldl (enter_field py_float py_strpdate) ∅
                     (filter (fun f => has_tag udf_field_tag f = true) (children n)))
                  ((fun i => p ++ [i]) <$> positions (has_tag udf_field_tag) (children n) 0)
                  flds) r p n eq_refl Hres Hn eq_refl).
    exact Hloop. }
  split; [|split; [apply requests_world_with_root|]].
  - unfold UdfDictionaryDescriptor___set__.
    unfold bind at 1. rewrite (Entity_get_fetched lims w instance x r H Hr).
    unfold bind at 1. rewrite (on_udf_fetched _ _ w instance x r H Hr), Hset. reflexivity.
  - pose proof (world_with_root_has_attrs w instance x r' H) as H'. fold w' in H'.
    set (fs := field_of <$> dict_value).
    assert (Hn' : node_at p r' = Some (with_children (cs ++ fs) n))
      by (unfold r'; rewrite node_at_alter_at, Hn; reflexivity).
    assert (Hres' : resolve_path keys r' = Some p)
      by (apply resolve_path_alter_at; [reflexivity|exact Hres]).
    assert (Hfil : filter (fun f => has_tag udf_field_tag f = true) (cs ++ fs) = fs).
    { rewrite filter_app. unfold cs. rewrite filter_in_out. cbn [app].
      apply filter_all. apply Forall_forall. intros f Hf.
      apply list_elem_of_fmap in Hf as ([k v] & -> & _). unfold field_of.
      destruct (infer_type (k, v).2) as [[vt v0]|]; reflexivity. }
    assert (Hread : Forall (fun f => is_Some (attrib f !! "name") /\
                                     is_Some (field_value py_float py_strpdate f)) fs).
    { apply Forall_forall. intros f Hf.
      apply list_elem_of_fmap in Hf as ([k v] & -> & Hin).
      rewrite Forall_forall in Hsimple. specialize (Hsimple _ Hin). cbn [snd] in Hsimple.
      destruct (field_of_readable k v Hsimple) as [Hnm Hv]. split; eauto. }
    assert (Hnames : (fun f => attrib f !! "name") <$> fs = Some <$> dict_value.*1).
    { unfold fs. rewrite <- !list_fmap_compose. apply list_fmap_ext.
      intros i [k v] Hi. cbn. apply list_elem_of_lookup_2 in Hi.
      rewrite Forall_forall in Hsimple. specialize (Hsimple _ Hi).
      apply (field_of_readable k v Hsimple). }
    eexists. split; [|split].
    + unfold UdfDictionaryDescriptor___get__.
      unfold bind at 1. rewrite (Entity_get_fetched lims w' instance _ r' H' eq_refl).
      unfold bind at 1. rewrite (on_udf_fetched _ _ w' instance _ r' H' eq_refl).
      rewrite (init_parsed nesting r' p _ Hres' Hn')
        by (cbn [children with_children]; rewrite Hfil; exact Hread).
      cbn [fst snd]. unfold bind, lift_result, ret.
      unfold w'. rewrite world_with_root_twice. reflexivity.
    + cbn [items children with_children]. rewrite Hfil.
      rewrite (foldl_enter_field_dom py_float py_strpdate fs ∅ _ Hnames)
        by (eapply Forall_impl; [exact Hread|]; intros f [_ Hf]; exact Hf).
      rewrite dom_empty_L, union_empty_l_L. reflexivity.
    + intros k v Hin. cbn [items children with_children]. rewrite Hfil.
      rewrite Forall_forall in Hsimple. pose proof (Hsimple _ Hin) as Hs. cbn [snd] in Hs.
      destruct (field_of_readable k v Hs) as [Hnm Hv].
      apply (foldl_enter_field_lookup fs ∅ dict_value.*1 (field_of (k, v)) k _
               Hnames Hnd); [|exact Hnm|exact Hv].
      apply list_elem_of_fmap. exists (k, v). auto.
Qed.

End UdfAssignProperties.

(** ** Attribute lists: [insert] among other children *)

Section AttributeListInsert.

(** [l.insert(i, d)] on an attribute list in step with its document.  The
    entry goes to position [i] of the list, the element to position [i] of
    all the children of the nested root node: among the elements of the list
    it comes after those that are among the first [i] children.  The list
    stays in step with the document when the two positions agree, as they do
    for [i = 0]. *)
Theorem AttributeList_insert_outcome l w i d :
  attribute_list_in_sync l w ->
  exists r p n l' w' n',
    list_rooted l w r p n /\
    AttributeList_insert i (LDict d) (l, w) = (Ok tt, (l', w')) /\
    list_rooted l' w' (alter_at (ElementTree.insert i (attribute_node (l_tag l) d)) p r) p n' /\
    let kl := insert_pos i (length (entries l)) in
    let kd := insert_pos i (length (children n)) in
    let m := length (filter (fun e => has_tag (l_tag l) e = true) (take kd (children n))) in
    entries l' = take kl (entries l) ++ LDict d :: drop kl (entries l) /\
    children n' = take kd (children n) ++ attribute_node (l_tag l) d :: drop kd (children n) /\
    (fun e => LDict (attrib e)) <$> filter (fun e => has_tag (l_tag l) e = true) (children n')
    = take m (entries l) ++ LDict d :: drop m (entries l) /\
    (m = kl -> attribute_list_in_sync l' w') /\
    (i = 0%Z -> m = kl).
Proof.
  intros (r & p & n & Hroot & Hel & Hent).
  set (g := ElementTree.insert i (attribute_node (l_tag l) d)).
  assert (Hg : forall e, ElementTree.tag (g e) = ElementTree.tag e) by reflexivity.
  pose proof (list_rooted_edit l w r p n g Hg Hroot) as Hroot'.
  set (kd := insert_pos i (length (children n))).
  set (A := filter (fun e => has_tag (l_tag l) e = true) (take kd (children n))).
  set (B := filter (fun e => has_tag (l_tag l) e = true) (drop kd (children n))).
  assert (Hfs : filter (fun e => has_tag (l_tag l) e = true) (children n) = A ++ B).
  { rewrite <- (take_drop kd (children n)) at 1. apply filter_app. }
  assert (Hfs' : filter (fun e => has_tag (l_tag l) e = true) (children (g n))
                 = A ++ attribute_node (l_tag l) d :: B).
  { unfold g, ElementTree.insert. cbn [children with_children]. fold kd.
    rewrite filter_app, filter_cons, decide_True; [reflexivity|].
    unfold has_tag. apply bool_decide_eq_true_2. reflexivity. }
  assert (Hdoc : (fun e => LDict (attrib e))
                   <$> filter (fun e => has_tag (l_tag l) e = true) (children (g n))
                 = take (length A) (entries l) ++ LDict d :: drop (length A) (entries l)).
  { rewrite Hfs', Hent, Hfs, !fmap_app, fmap_cons.
    rewrite take_app_length' by (rewrite length_fmap; reflexivity).
    rewrite drop_app_length' by (rewrite length_fmap; reflexivity). reflexivity. }
  exists r, p, n,
    (with_entries (fun es => let k := insert_pos i (length es) in
                             take k es ++ LDict d :: drop k es)
       (with_l_elems ((fun j => p ++ [j])
                        <$> positions (has_tag (l_tag l)) (children (g n)) 0) l)),
    (world_with_root w (l_instance l) (alter_at g p r)), (g n).
  split; [exact Hroot|]. split; [|split; [exact Hroot'|]].
  - unfold AttributeList_insert, XmlList_insert.
    unfold bind at 1. rewrite (AttributeList_insertitem_rooted l w r p n i d Hroot).
    fold g.
    unfold bind at 1. rewrite (TagXmlList_update_elems_rooted l _ _ p (g n) Hroot').
    unfold list_insert, modify. cbn [fst snd]. reflexivity.
  - cbv zeta. fold kd. fold A. split; [reflexivity|]. split; [reflexivity|].
    split; [exact Hdoc|]. split.
    + intros Hm. exists (alter_at g p r), p, (g n). split; [exact Hroot'|].
      split; [reflexivity|].
      cbn [l_tag entries with_entries with_l_elems]. rewrite Hdoc, Hm. reflexivity.
    + intros ->. unfold A, kd. reflexivity.
Qed.

End AttributeListInsert.

(** ** [Process.all_outputs] *)

Section AllOutputsProperties.

Variable lims : Lims.

Lemma map_m_output_limsid {S} maps (s : S) :
  map_m output_limsid (filter (fun io => has_output io = true) maps) s
  = (output_limsids maps, s).
Proof.
  induction maps as [|[i o] rest IH]; [reflexivity|].
  rewrite filter_cons. cbn [output_limsids snd]. destruct o as [d|].
  - rewrite decide_True by reflexivity. cbn [map_m]. unfold bind at 1.
    unfold output_limsid at 1. cbn [snd].
    destruct (d !! "limsid") as [v|]; [|reflexivity].
    unfold ret at 1. unfold bind. rewrite IH.
    destruct (output_limsids rest); reflexivity.
  - rewrite decide_False by discriminate. exact IH.
Qed.

Lemma output_limsids_no_limsid pre i d post :
  d !! "limsid" = None ->
  Forall (fun io => forall d', io.2 = Some d' -> is_Some (d' !! "limsid")) pre ->
  output_limsids (pre ++ (i, Some d) :: post) = Raise KeyError.
Proof.
  intros Hd. induction 1 as [|io pre Hio _ IH]; cbn [app output_limsids snd].
  - rewrite Hd. reflexivity.
  - destruct (io.2) as [d'|]; [|exact IH].
    destruct (Hio d' eq_refl) as [v ->]. rewrite IH. reflexivity.
Qed.

Lemma output_limsids_none maps :
  Forall (fun io => io.2 = None) maps -> output_limsids maps = Ok [].
Proof.
  induction 1 as [|io maps Hio _ IH]; [reflexivity|].
  cbn [output_limsids]. rewrite Hio. exact IH.
Qed.

Lemma output_limsids_error maps e : output_limsids maps = Raise e -> e = KeyError.
Proof.
  induction maps as [|io maps IH]; [discriminate|]. cbn [output_limsids].
  destruct (io.2) as [d|]; [|exact IH].
  destruct (d !! "limsid"); [|congruence].
  destruct (output_limsids maps); [discriminate|]. intros [= <-]. apply IH. reflexivity.
Qed.

(** [Process.all_outputs], for a process whose input/output maps are read
    without error.  An entry without output is skipped: it raises nothing,
    and a process none of whose entries has an output gets the empty list.
    The first output without [limsid] raises [KeyError].  Nothing is ever
    logged. *)
Theorem all_outputs_outcome :
  forall (self : addr) (unique : bool) (w w1 : World)
         (maps : list (option (gmap string IOValue) * option (gmap string IOValue))),
    InputOutputMapList___get__ lims [] self w = (Ok maps, w1) ->
    error_log (Process_all_outputs lims self unique false w).2 = error_log w /\
    (forall ids, output_limsids maps = Ok ids ->
       Process_all_outputs lims self unique false w
       = map_m (Artifact_by_id lims) (if unique then remove_dups ids else ids) w1) /\
    (forall e, output_limsids maps = Raise e ->
       e = KeyError /\ Process_all_outputs lims self unique false w = (Raise KeyError, w1)) /\
    (forall pre i d post,
       maps = pre ++ (i, Some d) :: post -> d !! "limsid" = None ->
       Forall (fun io => forall d', io.2 = Some d' -> is_Some (d' !! "limsid")) pre ->
       Process_all_outputs lims self unique false w = (Raise KeyError, w1)) /\
    (Forall (fun io => io.2 = None) maps ->
       Process_all_outputs lims self unique false w = (Ok [], w1)).
Proof.
  intros self unique w w1 maps Hget.
  assert (Hlog : error_log w1 = error_log w).
  { pose proof (keeps_log_input_output_maps lims [] self w) as H.
    rewrite Hget in H. exact H. }
  assert (Hok : forall ids, output_limsids maps = Ok ids ->
            Process_all_outputs lims self unique false w
            = map_m (Artifact_by_id lims) (if unique then remove_dups ids else ids) w1).
  { intros ids Hids. unfold Process_all_outputs.
    unfold bind at 1. rewrite Hget.
    unfold bind at 1. rewrite map_m_output_limsid, Hids.
    unfold bind, ret.
    destruct (map_m (Artifact_by_id lims) (if unique then remove_dups ids else ids) w1)
      as [[arts|e] w2]; reflexivity. }
  assert (Herr : forall e, output_limsids maps = Raise e ->
            Process_all_outputs lims self unique false w = (Raise e, w1)).
  { intros e He. unfold Process_all_outputs.
    unfold bind at 1. rewrite Hget.
    unfold bind at 1. rewrite map_m_output_limsid, He. reflexivity. }
  split; [|split; [exact Hok|split; [|split]]].
  - destruct (output_limsids maps) as [ids|e] eqn:E.
    + rewrite (Hok ids eq_refl), <- Hlog.
      apply (keeps_log_map_m _ _ (keeps_log_Artifact_by_id lims)).
    + rewrite (Herr e eq_refl). exact Hlog.
  - intros e He. pose proof (output_limsids_error maps e He) as ->.
    split; [reflexivity|exact (Herr _ He)].
  - intros pre i d post -> Hd Hpre.
    exact (Herr _ (output_limsids_no_limsid pre i d post Hd Hpre)).
  - intros Hnone. rewrite (Hok [] (output_limsids_none maps Hnone)).
    destruct unique; reflexivity.
Qed.

End AllOutputsProperties.

(** ** Entity lists: construction and [append] *)

Section EntityListProperties.

Variable lims : Lims.

Lemma world_extends_refl w : world_extends w w.
Proof. repeat split; auto. Qed.

Lemma world_extends_trans w1 w2 w3 :
  world_extends w1 w2 -> world_extends w2 w3 -> world_extends w1 w3.
Proof.
  intros (Hr1 & Ha1 & Hc1) (Hr2 & Ha2 & Hc2). repeat split; [congruence|auto|auto].
Qed.

Lemma refers_to_extends w w' item e :
  world_extends w w' -> refers_to w item e -> refers_to w' item e.
Proof.
  intros (_ & Ha & Hc) (a & u & x & -> & Hu & Hne & Hcu & Hx).
  exists a, u, x. repeat split; auto.
Qed.

Lemma list_rooted_extends l w w' r p n :
  world_extends w w' -> list_rooted l w r p n -> list_rooted l w' r p n.
Proof.
  intros (_ & Ha & _) ((x & H & Hr) & Hres & Hn).
  split; [exists x; split; [apply Ha, H|exact Hr]|split; assumption].
Qed.

(** A construction by URI in a world whose cache is well formed: it
    succeeds, the instance is cached under the URI, and the world keeps what
    it had. *)
Lemma Entity_call_by_uri w cls u :
  cache_wf w -> u <> EmptyString ->
  exists a w',
    Entity_call lims cls (Some u) None false w = (Ok a, w') /\
    cache w' !! u = Some a /\ (exists x, has_attrs w' a x) /\
    cache_wf w' /\ world_extends w w'.
Proof.
  intros Hwf Hu. destruct (cache w !! u) as [a|] eqn:Hc.
  - destruct (Hwf u a Hc) as (x & Hx). exists a, w.
    split; [apply (Entity_call_cached lims w cls u a x Hu Hc Hx)|].
    split; [exact Hc|]. split; [eauto|]. split; [exact Hwf|apply world_extends_refl].
  - eexists _, _. split; [apply (Entity_call_fresh lims w cls u Hu Hc)|].
    set (o := mkObject cls (Some (mkAttrs (Some u) None))).
    assert (Hnew : has_attrs
              (with_heap (heap w ++ [o]) (with_cache (<[u:=length (heap w)]> (cache w)) w))
              (length (heap w)) (mkAttrs (Some u) None)).
    { exists o. split; [|reflexivity]. cbn [heap with_heap].
      rewrite lookup_app_r by lia. rewrite Nat.sub_diag. reflexivity. }
    assert (Hkeep : forall b y, has_attrs w b y ->
              has_attrs (with_heap (heap w ++ [o])
                           (with_cache (<[u:=length (heap w)]> (cache w)) w)) b y).
    { intros b y (ob & Hob & Hy). exists ob. split; [|exact Hy]. cbn [heap with_heap].
      apply lookup_app_l_Some. exact Hob. }
    split; [cbn [cache with_heap with_cache]; apply lookup_insert_eq|].
    split; [eauto|]. split; [|split; [reflexivity|split; [exact Hkeep|]]].
    + intros u' b. cbn [cache with_heap with_cache]. intros Hb.
      destruct (decide (u' = u)) as [->|Hne].
      * rewrite lookup_insert_eq in Hb. injection Hb as <-. eauto.
      * rewrite lookup_insert_ne in Hb by congruence.
        destruct (Hwf u' b Hb) as (y & Hy). eauto.
    + intros u' b Hb. cbn [cache with_heap with_cache].
      rewrite lookup_insert_ne by congruence. exact Hb.
Qed.

Lemma world_run_eq {A} (m : W A) l w :
  world m (l, w) = ((m w).1, (l, (m w).2)).
Proof. unfold world, zoom. cbn [fst snd]. destruct (m w); reflexivity. Qed.

(** One [_parse_element] of an entity list. *)
Lemma EntityList_parse_element_rooted l w r p n i f u :
  list_rooted l w r p n -> children n !! i = Some f ->
  attrib f !! "uri" = Some u -> u <> EmptyString -> cache_wf w ->
  exists a w',
    EntityList__parse_element lims (p ++ [i]) (l, w)
    = (Ok tt, (with_entries (fun es => es ++ [LEntity a]) l, w')) /\
    refers_to w' (LEntity a) f /\ cache_wf w' /\ world_extends w w'.
Proof.
  intros Hroot Hi Hu Hne Hwf. pose proof Hroot as ((x & H & Hr) & Hres & Hn).
  destruct (Entity_call_by_uri w (l_klass l) u Hwf Hne)
    as (a & w' & Hcall & Hc & (xa & Hxa) & Hwf' & Hext).
  exists a, w'. split; [|split; [|split; assumption]].
  - assert (Hget : attrib_get (p ++ [i]) "uri" r = (Ok u, r)).
    { unfold attrib_get, bind, deref. rewrite (node_at_child p i r n Hn), Hi, Hu.
      reflexivity. }
    unfold EntityList__parse_element. unfold bind at 1, self_ at 1. cbn [fst].
    unfold bind at 1. rewrite (ldoc_fetched _ l w x r H Hr), Hget. cbn [fst snd].
    rewrite (world_with_root_same w _ x r H Hr).
    unfold bind at 1. rewrite world_run_eq, Hcall. reflexivity.
  - exists a, u, xa. repeat split; assumption.
Qed.

(** The loop of [_prepare_list] of an entity list. *)
Lemma EntityList_prepare_list_rooted r p n idx fs :
  Forall2 (fun i f => children n !! i = Some f) idx fs ->
  Forall (fun f => exists u, attrib f !! "uri" = Some u /\ u <> EmptyString) fs ->
  forall l w,
    list_rooted l w r p n -> cache_wf w ->
    exists items w',
      for_each ((fun i => p ++ [i]) <$> idx) (EntityList__parse_element lims) (l, w)
      = (Ok tt, (with_entries (fun es => es ++ items) l, w')) /\
      Forall2 (refers_to w') items fs /\ cache_wf w' /\ world_extends w w'.
Proof.
  induction 1 as [|i f idx fs Hi _ IH]; intros Hall l w Hroot Hwf.
  - exists [], w. split; [|split; [constructor|split; [exact Hwf|apply world_extends_refl]]].
    cbn [fmap list_fmap for_each]. unfold ret. f_equal. f_equal.
    unfold with_entries. rewrite app_nil_r. destruct l; reflexivity.
  - apply Forall_cons in Hall as [(u & Hu & Hne) Hall].
    destruct (EntityList_parse_element_rooted l w r p n i f u Hroot Hi Hu Hne Hwf)
      as (a & w1 & Hstep & Href & Hwf1 & Hext1).
    destruct (IH Hall (with_entries (fun es => es ++ [LEntity a]) l) w1
                (list_rooted_extends _ w w1 r p n Hext1 Hroot) Hwf1)
      as (items & w' & Hloop & Hrefs & Hwf' & Hext').
    exists (LEntity a :: items), w'.
    split; [|split; [|split; [exact Hwf'|exact (world_extends_trans _ _ _ Hext1 Hext')]]].
    + cbn [fmap list_fmap for_each]. unfold bind at 1. rewrite Hstep, Hloop.
      f_equal. f_equal. unfold with_entries. cbn [entries l_elems l_instance l_tag l_rootkeys l_klass].
      rewrite <- app_assoc. reflexivity.
    + constructor; [exact (refers_to_extends _ _ _ _ Hext' Href)|exact Hrefs].
Qed.

(** The same loop over elements whose entities the cache already holds:
    the world does not change. *)
Lemma EntityList_prepare_list_cached r p n idx fs items :
  Forall2 (fun i f => children n !! i = Some f) idx fs ->
  forall l w,
    Forall2 (refers_to w) items fs ->
    list_rooted l w r p n ->
    for_each ((fun i => p ++ [i]) <$> idx) (EntityList__parse_element lims) (l, w)
    = (Ok tt, (with_entries (fun es => es ++ items) l, w)).
Proof.
  intros HF. revert items.
  induction HF as [|i f idx fs Hi _ IH]; intros items l w Hrefs Hroot.
  - inversion Hrefs; subst. cbn [fmap list_fmap for_each]. unfold ret. f_equal. f_equal.
    unfold with_entries. rewrite app_nil_r. destruct l; reflexivity.
  - inversion Hrefs as [|item f' items' fs' Href Hrefs']; subst.
    destruct Href as (a & u & xa & -> & Hu & Hne & Hc & Hxa).
    pose proof Hroot as ((x & H & Hr) & Hres & Hn).
    assert (Hget : attrib_get (p ++ [i]) "uri" r = (Ok u, r)).
    { unfold attrib_get, bind, deref. rewrite (node_at_child p i r n Hn), Hi, Hu.
      reflexivity. }
    assert (Hstep : EntityList__parse_element lims (p ++ [i]) (l, w)
                    = (Ok tt, (with_entries (fun es => es ++ [LEntity a]) l, w))).
    { unfold EntityList__parse_element. unfold bind at 1, self_ at 1. cbn [fst].
      unfold bind at 1. rewrite (ldoc_fetched _ l w x r H Hr), Hget. cbn [fst snd].
      rewrite (world_with_root_same w _ x r H Hr).
      unfold bind at 1.
      rewrite world_run_eq, (Entity_call_cached lims w (l_klass l) u a xa Hne Hc Hxa).
      reflexivity. }
    cbn [fmap list_fmap for_each]. unfold bind at 1. rewrite Hstep.
    rewrite (IH items' (with_entries (fun es => es ++ [LEntity a]) l) w Hrefs' Hroot).
    f_equal. f_equal. unfold with_entries.
    cbn [entries l_elems l_instance l_tag l_rootkeys l_klass].
    rewrite <- app_assoc. reflexivity.
Qed.

(** [EntityList(instance, tag, klass, nesting)] on a fetched instance whose
    document has the nested root node and whose elements all carry a
    non-empty [uri].  The construction succeeds without any request and
    returns the list of the instances cached under these URIs, in document
    order, making and caching those the cache did not hold; the world keeps
    what it had.  A second construction returns the same list of the same
    instances and changes nothing. *)
Theorem EntityList_init_stable instance tag klass nesting w x r p n :
  cache_wf w ->
  has_attrs w instance x -> root x = Some r ->
  resolve_path (default [] nesting) r = Some p -> node_at p r = Some n ->
  Forall (fun f => exists u, attrib f !! "uri" = Some u /\ u <> EmptyString)
    (filter (fun e => has_tag tag e = true) (children n)) ->
  exists l w',
    EntityList___init__ lims instance tag klass nesting w = (Ok (Ok tt, l), w') /\
    entity_list_in_sync l w' /\
    l_instance l = instance /\ l_tag l = tag /\
    cache_wf w' /\ world_extends w w' /\
    EntityList___init__ lims instance tag klass nesting w' = (Ok (Ok tt, l), w').
Proof.
  intros Hwf H Hr Hres Hn Hall.
  set (l0 := mkXmlList [] [] instance tag (default [] nesting) klass).
  set (scan := (fun i => p ++ [i]) <$> positions (has_tag tag) (children n) 0).
  set (l1 := with_l_elems scan l0).
  assert (Hroot0 : list_rooted l0 w r p n).
  { split; [exists x; split; assumption|split; assumption]. }
  assert (Hroot1 : list_rooted l1 w r p n) by exact Hroot0.
  pose proof (positions_elements (has_tag tag) (children n)) as HF.
  destruct (EntityList_prepare_list_rooted r p n _ _ HF Hall l1 w Hroot1 Hwf)
    as (items & w' & Hloop & Hrefs & Hwf' & Hext).
  set (l' := with_entries (fun es => es ++ items) l1).
  assert (Hinit : forall w0 (Hroot : list_rooted l0 w0 r p n),
            for_each scan (EntityList__parse_element lims) (l1, w0) = (Ok tt, (l', w')) ->
            EntityList___init__ lims instance tag klass nesting w0 = (Ok (Ok tt, l'), w')).
  { intros w0 Hroot Hl. unfold EntityList___init__, XmlList___init__. cbv [bind modify].
    change (TagXmlList__update_elems _) with (TagXmlList__update_elems (l0, w0)).
    rewrite (TagXmlList_update_elems_rooted l0 w0 r p n Hroot). fold scan. fold l1.
    cbv [XmlList__prepare_list bind self_].
    change (for_each _ _ _) with (for_each scan (EntityList__parse_element lims) (l1, w0)).
    rewrite Hl. reflexivity. }
  exists l', w'. split; [exact (Hinit w Hroot0 Hloop)|].
  assert (Hroot' : list_rooted l' w' r p n)
    by exact (list_rooted_extends l0 w w' r p n Hext Hroot0).
  split; [|split; [reflexivity|split; [reflexivity|split; [exact Hwf'|split; [exact Hext|]]]]].
  - exists r, p, n. split; [exact Hroot'|]. split; [reflexivity|]. exact Hrefs.
  - apply (Hinit w' Hroot').
    exact (EntityList_prepare_list_cached r p n _ _ items HF l1 w' Hrefs Hroot').
Qed.

Lemma refers_to_world_with_root w instance r item e :
  refers_to w item e -> refers_to (world_with_root w instance r) item e.
Proof.
  intros (a & u & x & -> & Hu & Hne & Hc & Hx).
  destruct (has_attrs_world_with_root_uri w instance r a x Hx) as (x' & Hx' & _).
  exists a, u, x'. rewrite cache_world_with_root. repeat split; assumption.
Qed.

(** One [_additem] of an entity: the new element carries its URI. *)
Lemma EntityList_additem_rooted l w r p n a xa u :
  list_rooted l w r p n -> has_attrs w a xa -> _uri xa = Some u ->
  XmlList__additem List_rootnode EntityList__create_new_node (LEntity a) (l, w)
  = (Ok tt,
     (l, world_with_root w (l_instance l)
           (alter_at (ElementTree.append (ElementTree.set "uri" u (Element_ (l_tag l)))) p r))).
Proof.
  intros Hroot Ha Hu. pose proof Hroot as ((x & H & Hr) & Hres & Hn).
  unfold XmlList__additem. unfold bind at 1.
  unfold EntityList__create_new_node. unfold bind at 1, self_ at 1. cbn [fst].
  unfold bind at 1. rewrite world_run_eq, (Entity_uri_has_attrs w a xa Ha), Hu.
  cbn [fst snd]. unfold ret at 1.
  unfold bind at 1. rewrite (List_rootnode_rooted l w r p n Hroot).
  rewrite (ldoc_fetched _ l w x r H Hr), (mutate_spec p _ r n Hn). reflexivity.
Qed.

(** [l.append(entity)] on an entity list in step with its document, for an
    entity that the cache holds under its URI: the call succeeds without any
    request, the new element carries the URI of the entity and comes last,
    as the entity does in the list, and the list stays in step with the
    document.  An item that is not an entity raises [TypeError] before
    anything changes. *)
Theorem EntityList_append_in_sync l w a xa u :
  entity_list_in_sync l w ->
  has_attrs w a xa -> _uri xa = Some u -> u <> EmptyString ->
  cache w !! u = Some a ->
  (exists l' w',
     EntityList_append (LEntity a) (l, w) = (Ok tt, (l', w')) /\
     entity_list_in_sync l' w' /\
     entries l' = entries l ++ [LEntity a] /\
     requests w' = requests w /\ cache w' = cache w) /\
  (forall item, (forall b, item <> LEntity b) ->
     EntityList_append item (l, w) = (Raise TypeError, (l, w))).
Proof.
  intros (r & p & n & Hroot & Hel & Hent) Ha Hu Hne Hc. split.
  - set (node := ElementTree.set "uri" u (Element_ (l_tag l))).
    set (g := ElementTree.append node).
    assert (Hg : forall e, ElementTree.tag (g e) = ElementTree.tag e) by reflexivity.
    pose proof (list_rooted_edit l w r p n g Hg Hroot) as Hroot'.
    exists (with_entries (fun es => es ++ [LEntity a])
              (with_l_elems ((fun j => p ++ [j])
                               <$> positions (has_tag (l_tag l)) (children (g n)) 0) l)),
      (world_with_root w (l_instance l) (alter_at g p r)).
    split; [|split; [|split; [reflexivity|split]]].
    + unfold EntityList_append, XmlList_append.
      unfold bind at 1. rewrite (EntityList_additem_rooted l w r p n a xa u Hroot Ha Hu).
      fold node. fold g.
      unfold bind at 1. rewrite (TagXmlList_update_elems_rooted l _ _ p (g n) Hroot').
      reflexivity.
    + exists (alter_at g p r), p, (g n). split; [exact Hroot'|]. split; [reflexivity|].
      cbn [l_tag entries with_entries with_l_elems].
      assert (Hfil : filter (fun e => has_tag (l_tag l) e = true) (children (g n))
                     = filter (fun e => has_tag (l_tag l) e = true) (children n) ++ [node]).
      { unfold g, ElementTree.append. cbn [children with_children].
        rewrite filter_app. f_equal. rewrite filter_cons, decide_True; [reflexivity|].
        unfold has_tag. apply bool_decide_eq_true_2. reflexivity. }
      rewrite Hfil. apply Forall2_app.
      * eapply Forall2_impl; [exact Hent|]. intros item e. apply refers_to_world_with_root.
      * constructor; [|constructor].
        destruct (has_attrs_world_with_root_uri w (l_instance l) (alter_at g p r) a xa Ha)
          as (x' & Hx' & _).
        exists a, u, x'. rewrite cache_world_with_root.
        split; [reflexivity|]. split; [apply lookup_insert_eq|]. repeat split; assumption.
    + apply requests_world_with_root.
    + apply cache_world_with_root.
  - intros item Hitem. unfold EntityList_append, XmlList_append, XmlList__additem.
    unfold bind at 1. unfold bind at 1.
    destruct item as [b| |]; [destruct (Hitem b eq_refl)|reflexivity|reflexivity].
Qed.

End EntityListProperties.

(** ** [Sample.create] *)

Section SampleCreateProperties.

Variable lims : Lims.

Lemma SubElement_root t attrs r :
  SubElement (Some []) t attrs r
  = (Ok [length (children r)],
     with_children (children r ++ [with_attrib (list_to_map attrs) (Element_ t)]) r).
Proof. reflexivity. Qed.

Lemma node_at_last_child r loc p :
  node_at (length (children r) :: p) (with_children (children r ++ [loc]) r) = node_at p loc.
Proof.
  cbn [node_at children with_children].
  rewrite lookup_app_r by lia. rewrite Nat.sub_diag. reflexivity.
Qed.

Lemma alter_at_last_child f r loc p :
  alter_at f (length (children r) :: p) (with_children (children r ++ [loc]) r)
  = with_children (children r ++ [alter_at f p loc]) r.
Proof.
  cbn [alter_at children with_children ElementTree.tag attrib text].
  unfold with_children. cbn [ElementTree.tag attrib text]. f_equal.
  rewrite alter_app_r_alt by lia. rewrite Nat.sub_diag. reflexivity.
Qed.

Lemma SubElement_last_child t attrs r loc :
  SubElement (Some [length (children r)]) t attrs (with_children (children r ++ [loc]) r)
  = (Ok [length (children r); length (children loc)],
     with_children
       (children r ++ [with_children (children loc
                                        ++ [with_attrib (list_to_map attrs) (Element_ t)]) loc])
       r).
Proof.
  unfold SubElement, append_new, bind, deref, mutate.
  rewrite node_at_last_child. change (node_at [] loc) with (Some loc). cbv beta iota.
  rewrite node_at_last_child. change (node_at [] loc) with (Some loc). cbv beta iota.
  rewrite alter_at_last_child. reflexivity.
Qed.

Lemma mutate_last_child f r loc j e :
  children loc !! j = Some e ->
  mutate [length (children r); j] f (with_children (children r ++ [loc]) r)
  = (Ok tt, with_children (children r ++ [with_children (alter f j (children loc)) loc]) r).
Proof.
  intros He. unfold mutate. rewrite node_at_last_child. cbn [node_at]. rewrite He.
  rewrite alter_at_last_child. reflexivity.
Qed.

Lemma with_unbound_on_root {A} (m : D A) w cls r :
  on_root (length (heap w)) m (with_unbound w cls r)
  = ((m r).1, with_unbound w cls (m r).2).
Proof.
  rewrite (on_root_fetched m _ _ _ r (with_unbound_has_attrs w cls r) eq_refl).
  rewrite with_unbound_set_root. reflexivity.
Qed.

(** [Sample.create] refuses what is no [Container] before it creates
    anything.  With a container that has a URI, the document [_create] made
    gets one more child, the [location] with the URI of the container and the
    position; this document is posted to the URI of the class, and the new
    instance gets the response as its document and the [uri] of the response
    as its URI.  The cache is left as it was. *)
Theorem Sample_create_outcome cls container position kwargs w c :
  heap w !! container = Some c ->
  (o_class c <> Container ->
     Sample_create lims cls container position kwargs w = (Raise TypeError, w)) /\
  (forall xc u a w1 uri,
     o_class c = Container -> o_attrs c = Some xc -> _uri xc = Some u ->
     Entity__create lims cls kwargs w = (Ok a, w1) ->
     get_uri lims [c_URI cls] = Ok uri ->
     exists r,
       a = length (heap w) /\ w1 = with_unbound w cls r /\
       let data :=
         tostring lims
           (Some (with_children (children r ++ [location_element u position]) r)) in
       forall resp u',
         lims_post lims (requests w) uri data = Ok resp ->
         attrib resp !! "uri" = Some u' ->
         Sample_create lims cls container position kwargs w
         = (Ok a,
            mkWorld (heap w ++ [mkObject cls (Some (mkAttrs (Some u') (Some resp)))])
              (cache w) (requests w ++ [POST uri data]) (error_log w))).
Proof.
  intros Hc. split.
  - intros Hne. unfold Sample_create, bind at 1, object_at. rewrite Hc.
    unfold isinstance. rewrite bool_decide_eq_false_2 by exact Hne.
    rewrite bool_decide_eq_false_2 by discriminate. reflexivity.
  - intros xc u a w1 uri Hcls Hxc Hu Hcreate Huri.
    destruct (Entity__create_shape lims cls kwargs w _ _ Hcreate) as
      [(r & -> & Ha)|(e & at' & He & _)]; [|discriminate].
    rewrite (Ha a eq_refl). exists r. split; [reflexivity|]. split; [reflexivity|].
    intros data resp u' Hpost Hu'.
    unfold Sample_create. unfold bind at 1, object_at. rewrite Hc.
    unfold isinstance. rewrite (bool_decide_eq_true_2 _ Hcls). cbn [orb negb].
    rewrite (Ha a eq_refl) in Hcreate.
    unfold bind at 1. rewrite Hcreate.
    unfold bind at 1. rewrite with_unbound_on_root, SubElement_root. cbn [fst snd].
    assert (Hcont : forall r', Entity_uri container (with_unbound w cls r')
                               = (Ok (Some u), with_unbound w cls r')).
    { intros r'. rewrite (Entity_uri_has_attrs _ container xc), Hu; [reflexivity|].
      exists c. split; [|exact Hxc]. cbn [with_unbound heap with_heap].
      apply lookup_app_l_Some. exact Hc. }
    unfold bind at 1. rewrite Hcont.
    unfold bind at 1. rewrite with_unbound_on_root, SubElement_last_child. cbn [fst snd].
    unfold bind at 1.
    rewrite with_unbound_on_root, SubElement_last_child. cbn [fst snd].
    unfold bind at 1. rewrite with_unbound_on_root.
    rewrite (mutate_last_child _ _ _ _ (with_attrib (list_to_map []) (Element_ "value")))
      by reflexivity.
    cbn [fst snd].
    match goal with
    | |- context [with_unbound w cls ?d] =>
        change d with (with_children (children r ++ [location_element u position]) r)
    end.
    unfold bind at 1.
    rewrite (attrs_of_has_attrs _ _ _ (with_unbound_has_attrs w cls _)).
    cbn [root].
    unfold bind at 1, lift_result at 1. rewrite Huri.
    change (tostring lims _) with data. clearbody data.
    unfold bind at 1. unfold transport_post, bind, get_state, modify, lift_result.
    cbn [fst snd with_unbound with_heap requests heap cache error_log with_requests].
    rewrite Hpost.
    unfold set_root, bind, object_at, modify. simpl.
    rewrite lookup_app_r by lia. rewrite Nat.sub_diag. simpl.
    rewrite Hu'.
    unfold set_uri, bind, object_at, modify, ret. simpl.
    rewrite insert_app_r_alt by lia. rewrite Nat.sub_diag. simpl.
    rewrite lookup_app_r by lia. rewrite Nat.sub_diag. simpl.
    rewrite insert_app_r_alt by lia. rewrite Nat.sub_diag. reflexivity.
Qed.

End SampleCreateProperties.

(** * The properties at the concrete inputs *)

Lemma empty_world_wf : cache_wf empty_world.
Proof. intros u a H. simpl in H. rewrite lookup_empty in H. discriminate H. Qed.

(** C6 as stated fails: after [Artifact.create(lims)] the cache does not
    hold the new entity (object 0) under its URI, and constructing an
    [Artifact] by that URI yields another object (object 1). *)
Lemma create_leaves_cache_empty :
  let '(res, w') := Entity_create mock_lims Artifact [] empty_world in
  res = Ok 0 /\
  cache w' !! "http://testgenologics.com:4040/api/v2/artifacts/a1" = None /\
  (Entity_call mock_lims Artifact
     (Some "http://testgenologics.com:4040/api/v2/artifacts/a1") None false w').1 = Ok 1.
Proof. vm_compute. repeat split; reflexivity. Qed.

Lemma create_binds_without_caching_witness :
  exists uri data resp u,
    lims_post mock_lims [] uri data = Ok resp /\
    attrib resp !! "uri" = Some u /\
    has_attrs (Entity_create mock_lims Artifact [] empty_world).2 0
      (mkAttrs (Some u) (Some resp)) /\
    requests (Entity_create mock_lims Artifact [] empty_world).2 = [] ++ [POST uri data] /\
    cache (Entity_create mock_lims Artifact [] empty_world).2 = ∅ /\
    (forall u' b, cache (Entity_create mock_lims Artifact [] empty_world).2 !! u' = Some b
                  -> b <> 0) /\
    (forall b w'',
       Entity_call mock_lims Artifact (Some u) None false
         (Entity_create mock_lims Artifact [] empty_world).2 = (Ok b, w'') -> b <> 0).
Proof.
  apply (create_binds_without_caching mock_lims Artifact [] empty_world
           (Entity_create mock_lims Artifact [] empty_world).2 0 empty_world_wf).
  vm_compute. reflexivity.
Defined.

(** ** Entities of the concrete world *)

Lemma same_uri_same_instance_witness :
  exists a w1,
    Entity_call mock_lims Artifact (Some artifact_a1_uri) None false empty_world
      = (Ok a, w1) /\
    cache_wf w1 /\
    Entity_call mock_lims Artifact (Some artifact_a1_uri) None false w1 = (Ok a, w1) /\
    (forall id, truthy id = true ->
       get_uri mock_lims [c_URI Artifact; id] = Ok artifact_a1_uri ->
       Entity_call mock_lims Artifact None id false w1 = (Ok a, w1)) /\
    (forall r : Element,
       let w2 := (set_root a (Some r) w1).2 in
       exists b x,
         Entity_call mock_lims Artifact (Some artifact_a1_uri) None false w2 = (Ok b, w2) /\
         b = a /\ has_attrs w2 b x /\ root x = Some r).
Proof.
  apply (same_uri_same_instance mock_lims empty_world Artifact artifact_a1_uri
           empty_world_wf).
  discriminate.
Defined.

Lemma world_a1_has_attrs : has_attrs world_a1 0 (mkAttrs (Some artifact_a1_uri) None).
Proof. eexists. split; reflexivity. Qed.

Lemma get_is_idempotent_witness :
  (forall r, root (mkAttrs (Some artifact_a1_uri) None) = Some r ->
             Entity_get mock_lims 0 false world_a1 = (Ok tt, world_a1)) /\
  (root (mkAttrs (Some artifact_a1_uri) None) = None ->
   let once := Entity_get mock_lims 0 false world_a1 in
   let twice := (Entity_get mock_lims 0 false ;; Entity_get mock_lims 0 false) world_a1 in
   twice = once /\
   requests twice.2 = requests world_a1 ++ [GET (_uri (mkAttrs (Some artifact_a1_uri) None))]).
Proof.
  exact (get_is_idempotent mock_lims world_a1 0 (mkAttrs (Some artifact_a1_uri) None)
           world_a1_has_attrs).
Defined.

Lemma world_fetched_has_attrs :
  has_attrs world_fetched 0 (mkAttrs (Some artifact_a1_uri) (Some (test_entry_count "32"))).
Proof. eexists. split; reflexivity. Qed.

Lemma integer_round_trip_witness :
  (forall (n : Z) (value : PyValue),
     value = VInt n \/ value = VStr (PyStr.of_int n) ->
     exists w1,
       IntegerDescriptor___set__ mock_lims (Some "count") 0 value world_fetched = (Ok tt, w1) /\
       IntegerDescriptor___get__ mock_lims (Some "count") 0 w1 = (Ok (Some n), w1) /\
       StringDescriptor___get__ mock_lims (Some "count") 0 w1
         = (Ok (Some (TStr (PyStr.of_int n))), w1)) /\
  (test_entry_count "32" = test_entry_count "32" ->
     IntegerDescriptor___get__ mock_lims (Some "count") 0 world_fetched
       = (Ok (Some 32%Z), world_fetched) /\
     forall value, value = VInt 21 \/ value = VStr "21" ->
       IntegerDescriptor___set__ mock_lims (Some "count") 0 value world_fetched
         = (Ok tt, world_with_root world_fetched 0 (test_entry_count "21"))).
Proof.
  exact (integer_round_trip mock_lims (Some "count") world_fetched 0 _ _
           world_fetched_has_attrs eq_refl).
Defined.

Lemma nested_read_creates_intermediates_witness :
  Nestable_rootnode ["nesting"] (test_entry_count "32")
    = (Ok (nested_ref ["nesting"] (test_entry_count "32")),
       ensure_path ["nesting"] (test_entry_count "32")) /\
  (resolve_path ["nesting"] (test_entry_count "32") = None ->
     ensure_path ["nesting"] (test_entry_count "32") <> test_entry_count "32" /\
     resolve_path ["nesting"] (ensure_path ["nesting"] (test_entry_count "32"))
       = Some (nested_ref ["nesting"] (test_entry_count "32")) /\
     StringListDescriptor___get__ mock_lims "test-subentry" ["nesting"] 0 world_fetched
       = (Ok [], world_with_root world_fetched 0
                   (ensure_path ["nesting"] (test_entry_count "32"))) /\
     world_with_root world_fetched 0 (ensure_path ["nesting"] (test_entry_count "32"))
       <> world_fetched).
Proof.
  exact (nested_read_creates_intermediates mock_lims "test-subentry" ["nesting"]
           world_fetched 0 _ _ world_fetched_has_attrs eq_refl).
Defined.

(** ** Processes of the concrete world *)

(** C9 as stated fails.  A process with no input/output map at all gets
    the empty list, without any error logged; and when an entry without limsid
    precedes the entry without input, the error raised is a [KeyError] that is
    not logged. *)
Lemma all_inputs_without_maps_is_empty :
  Process_all_inputs mock_lims 0 true false (world_process process_without_maps)
    = (Ok [], world_process process_without_maps) /\
  (let '(res, w') :=
     Process_all_inputs mock_lims 0 true false (world_process process_without_limsid) in
   res = Raise KeyError /\ error_log w' = []).
Proof. split; vm_compute; [reflexivity | split; reflexivity]. Qed.

Lemma all_inputs_error_path_witness :
  error_log (world_process process_without_input)
    = error_log (world_process process_without_input) /\
  (forall pre o post,
      [entry_without_input] = pre ++ (None, o) :: post ->
      Forall (fun io : option (gmap string IOValue) * option (gmap string IOValue) =>
                exists d, io.1 = Some d /\ is_Some (d !! "limsid")) pre ->
      Process_all_inputs mock_lims 0 true false (world_process process_without_input) =
        (Raise TypeError,
         with_error_log (error_log (world_process process_without_input) ++ ["Process "])
           (world_process process_without_input))) /\
  (Forall (fun io : option (gmap string IOValue) * option (gmap string IOValue) =>
             is_Some io.1) [entry_without_input] ->
      error_log (Process_all_inputs mock_lims 0 true false
                   (world_process process_without_input)).2
        = error_log (world_process process_without_input)) /\
  ([entry_without_input] = [] ->
      Process_all_inputs mock_lims 0 true false (world_process process_without_input)
        = (Ok [], world_process process_without_input)).
Proof.
  apply (all_inputs_error_path mock_lims 0 true (world_process process_without_input)
           (world_process process_without_input) [entry_without_input]).
  vm_compute. reflexivity.
Defined.

(** ** The UDF dictionary of the tests *)

(** C3 at a failing input.  The dictionary over the document of the tests
    has three keys and three backing elements with distinct names.
    [del d['test']] raises [AttributeError] after the key has left the
    mapping: two keys remain for three backing elements, so the two counts
    differ after the operation. *)
Theorem delitem_breaks_count :
  let s0 := (UdfDictionary_call no_float no_date None (UdtFlag false) udf_document).2 in
  let '(res, (d, root)) := UdfDictionary___delitem__ "test" s0 in
  (size (items s0.1) = 3 /\ length (backing_fields s0.1 s0.2) = 3 /\
   NoDup (backing_names s0.1 s0.2)) /\
  res = Raise AttributeError /\
  size (items d) = 2 /\
  length (backing_fields d root) = 3.
Proof.
  vm_compute. repeat split; try reflexivity.
  apply (bool_decide_unpack _). vm_compute. exact I.
Qed.

(** The set-item operations of the script keep the dictionary of the tests
    in step with its document. *)
Lemma udf_dictionary_in_sync : udf_in_sync udf_dictionary.1 udf_dictionary.2.
Proof.
  apply (init_in_sync no_float no_date None _ udf_document); [vm_compute; reflexivity|].
  apply (bool_decide_unpack _). vm_compute. exact I.
Qed.

Lemma setitems_keep_counts_witness :
  udf_in_sync (set_items_script no_float no_date udf_script udf_dictionary).2.1
              (set_items_script no_float no_date udf_script udf_dictionary).2.2 /\
  size (items (set_items_script no_float no_date udf_script udf_dictionary).2.1)
    = length (backing_fields (set_items_script no_float no_date udf_script udf_dictionary).2.1
                             (set_items_script no_float no_date udf_script udf_dictionary).2.2) /\
  NoDup (backing_names (set_items_script no_float no_date udf_script udf_dictionary).2.1
                       (set_items_script no_float no_date udf_script udf_dictionary).2.2).
Proof.
  apply (setitems_keep_counts no_float no_date udf_script udf_dictionary.1 _
           udf_dictionary.2 _ udf_dictionary_in_sync).
  vm_compute. reflexivity.
Defined.

(** The script returns normally and leaves four keys. *)
Example udf_script_outcome :
  (set_items_script no_float no_date udf_script udf_dictionary).1 = Ok tt /\
  size (items (set_items_script no_float no_date udf_script udf_dictionary).2.1) = 4.
Proof. vm_compute. split; reflexivity. Qed.

(** A set-item that raises is outside [setitems_keep_counts]:
    [d['new'] = None] puts the key in the mapping and then raises
    [NotImplementedError], before any element is made. *)
Example setitem_raise_leaves_key :
  (UdfDictionary___setitem__ no_float no_date "new" VNone udf_dictionary).1
    = Raise NotImplementedError /\
  size (items (UdfDictionary___setitem__ no_float no_date "new" VNone udf_dictionary).2.1) = 4 /\
  length (backing_fields
            (UdfDictionary___setitem__ no_float no_date "new" VNone udf_dictionary).2.1
            (UdfDictionary___setitem__ no_float no_date "new" VNone udf_dictionary).2.2) = 3.
Proof. vm_compute. repeat split; reflexivity. Qed.

(** ** The next actions of a step *)

Lemma world_actions_has_attrs :
  has_attrs world_actions 0 (mkAttrs (Some actions_uri) (Some actions_document)).
Proof. eexists. split; reflexivity. Qed.

Lemma next_actions_rooted :
  list_rooted next_actions world_actions actions_document [1] next_actions_node.
Proof.
  split; [|split; reflexivity].
  eexists. split; [exact world_actions_has_attrs|reflexivity].
Qed.

Lemma next_actions_in_sync : attribute_list_in_sync next_actions world_actions.
Proof.
  exists actions_document, [1], next_actions_node.
  split; [exact next_actions_rooted|]. split; vm_compute; reflexivity.
Qed.

Lemma next_actions_built :
  AttributeList___init__ 0 "next-action" (Some ["next-actions"]) world_actions
  = (Ok (Ok tt, next_actions), world_actions).
Proof. vm_compute. reflexivity. Qed.

Lemma next_actions_only_tagged : only_tagged_children next_actions world_actions.
Proof.
  intros r p n ((x & (o & Ho & Hx) & Hr) & Hres & Hn).
  injection Ho as <-. injection Hx as <-. injection Hr as <-.
  injection Hres as <-. injection Hn as <-.
  repeat constructor.
Qed.

Lemma AttributeList_init_in_sync_witness :
  exists l,
    AttributeList___init__ 0 "next-action" (Some ["next-actions"]) world_actions
      = (Ok (Ok tt, l), world_actions) /\
    attribute_list_in_sync l world_actions /\
    l_instance l = 0 /\ l_tag l = "next-action" /\
    l_rootkeys l = default [] (Some ["next-actions"]).
Proof.
  apply (AttributeList_init_in_sync 0 "next-action" (Some ["next-actions"]) world_actions
           _ actions_document [1] next_actions_node world_actions_has_attrs);
    reflexivity.
Defined.

Lemma AttributeList_append_in_sync_witness :
  exists l' w',
    AttributeList_append (LDict (next_action artifact_a1_uri "complete"))
      (next_actions, world_actions) = (Ok tt, (l', w')) /\
    attribute_list_in_sync l' w' /\
    entries l' = entries next_actions ++ [LDict (next_action artifact_a1_uri "complete")].
Proof. exact (AttributeList_append_in_sync _ _ _ next_actions_in_sync). Defined.

Lemma AttributeList_extend_in_sync_witness :
  exists l' w',
    AttributeList_extend
      (LDict <$> [next_action artifact_a1_uri "complete"; next_action artifact_a1_uri "remove"])
      (next_actions, world_actions) = (Ok tt, (l', w')) /\
    AttributeList___iadd__
      (LDict <$> [next_action artifact_a1_uri "complete"; next_action artifact_a1_uri "remove"])
      (next_actions, world_actions) = (Ok tt, (l', w')) /\
    attribute_list_in_sync l' w' /\
    entries l' = entries next_actions ++
      (LDict <$> [next_action artifact_a1_uri "complete"; next_action artifact_a1_uri "remove"]).
Proof. exact (AttributeList_extend_in_sync _ _ _ next_actions_in_sync). Defined.

Lemma AttributeList_insert_in_sync_witness :
  exists l' w',
    AttributeList_insert 0 (LDict (next_action artifact_a1_uri "complete"))
      (next_actions, world_actions) = (Ok tt, (l', w')) /\
    attribute_list_in_sync l' w' /\
    entries l' = take (insert_pos 0 (length (entries next_actions))) (entries next_actions)
                 ++ LDict (next_action artifact_a1_uri "complete")
                 :: drop (insert_pos 0 (length (entries next_actions))) (entries next_actions).
Proof.
  exact (AttributeList_insert_in_sync _ _ 0 _ next_actions_in_sync next_actions_only_tagged).
Defined.

(** ** The notes of a sample *)

(** [notes = sample.notes; notes.insert(1, Note(lims, uri=n2))] on a
    sample whose document holds its name before its note [n1]: the new element
    becomes child 1 of the sample, before the element of [n1], while the list
    holds [n2] after [n1].  A list built anew from the document has the two
    notes in the other order. *)
Example insert_breaks_document_order :
  exists notes w0 w1 notes' w2 fresh,
    EntityList___init__ mock_lims 0 "note" Note None world_sample = (Ok (Ok tt, notes), w0) /\
    entries notes = [LEntity 1] /\
    Entity_call mock_lims Note (Some (note_uri "n2")) None false w0 = (Ok 2, w1) /\
    EntityList_insert 1 (LEntity 2) (notes, w1) = (Ok tt, (notes', w2)) /\
    entries notes' = [LEntity 1; LEntity 2] /\
    EntityList___init__ mock_lims 0 "note" Note None w2 = (Ok (Ok tt, fresh), w2) /\
    entries fresh = [LEntity 2; LEntity 1].
Proof.
  do 6 eexists.
  split; [vm_compute; reflexivity|]. split; [reflexivity|].
  split; [vm_compute; reflexivity|].
  split; [vm_compute; reflexivity|]. split; [reflexivity|].
  split; [vm_compute; reflexivity|]. reflexivity.
Qed.

(** ** Scalar descriptors at the fetched artifact *)

Lemma string_descriptor_laws_witness :
  exists w1,
    StringDescriptor___set__ mock_lims (Some "count") 0 (VStr "33") world_fetched
      = (Ok tt, w1) /\
    requests w1 = requests world_fetched /\
    cache w1 = cache world_fetched /\
    StringDescriptor___get__ mock_lims (Some "count") 0 w1
      = (Ok (Some (TStr (py_str (VStr "33")))), w1) /\
    StringDescriptor___get__ mock_lims None 0 w1
      = ((StringDescriptor___get__ mock_lims None 0 world_fetched).1, w1) /\
    StringDescriptor___set__ mock_lims (Some "count") 0 (VInt 1) w1
      = StringDescriptor___set__ mock_lims (Some "count") 0 (VInt 1) world_fetched.
Proof.
  apply (string_descriptor_laws mock_lims (Some "count") None (VStr "33") (VInt 1)
           world_fetched 0 _ _ world_fetched_has_attrs eq_refl).
  vm_compute. discriminate.
Defined.

Lemma boolean_round_trip_witness :
  exists w1,
    BooleanDescriptor___set__ mock_lims (Some "count") 0 (VBool true) world_fetched
      = (Ok tt, w1) /\
    BooleanDescriptor___get__ mock_lims (Some "count") 0 w1
      = (Ok (Some (bool_decide (PyStr.lower (py_str (VBool true)) = "true"))), w1) /\
    forall b, VBool true = VBool b ->
      BooleanDescriptor___get__ mock_lims (Some "count") 0 w1 = (Ok (Some b), w1) /\
      StringDescriptor___get__ mock_lims (Some "count") 0 w1
        = (Ok (Some (TStr (if b then "true" else "false"))), w1).
Proof.
  exact (boolean_round_trip mock_lims (Some "count") (VBool true) world_fetched 0 _ _
           world_fetched_has_attrs eq_refl).
Defined.

Lemma scalar_getters_on_fetched_witness :
  StringDescriptor___get__ mock_lims (Some "qc-flag") 0 world_fetched
    = (Ok (get_text_doc (Some "qc-flag") (test_entry_count "32")), world_fetched) /\
  IntegerDescriptor___get__ mock_lims (Some "qc-flag") 0 world_fetched
    = (match get_text_doc (Some "qc-flag") (test_entry_count "32") with
       | Some t =>
           match PyStr.int (text_chars t) with
           | Some n => Ok (Some n)
           | None => Raise ValueError
           end
       | None => Ok None
       end, world_fetched) /\
  BooleanDescriptor___get__ mock_lims (Some "qc-flag") 0 world_fetched
    = (Ok match get_text_doc (Some "qc-flag") (test_entry_count "32") with
          | Some (TStr s) => Some (bool_decide (PyStr.lower s = "true"))
          | Some (TBytes _) => Some false
          | None => None
          end, world_fetched) /\
  forall t, Some "qc-flag" = Some t -> t <> EmptyString ->
    Forall (fun c => tag c <> t) (children (test_entry_count "32")) ->
    get_text_doc (Some "qc-flag") (test_entry_count "32") = None.
Proof.
  exact (scalar_getters_on_fetched mock_lims (Some "qc-flag") world_fetched 0 _ _
           world_fetched_has_attrs eq_refl).
Defined.

Lemma attribute_descriptor_laws_witness :
  exists w1,
    StringAttributeDescriptor___set__ mock_lims "limsid" 0 "a1" world_fetched = (Ok tt, w1) /\
    requests w1 = requests world_fetched /\
    cache w1 = cache world_fetched /\
    StringAttributeDescriptor___get__ mock_lims "limsid" 0 w1 = (Ok "a1", w1) /\
    (forall tag', tag' <> "limsid" ->
       StringAttributeDescriptor___get__ mock_lims tag' 0 w1
         = ((StringAttributeDescriptor___get__ mock_lims tag' 0 world_fetched).1, w1)) /\
    (forall tag',
       StringDescriptor___get__ mock_lims (Some tag') 0 w1
         = ((StringDescriptor___get__ mock_lims (Some tag') 0 world_fetched).1, w1)) /\
    (attrib (test_entry_count "32") !! "limsid" = None ->
       StringAttributeDescriptor___get__ mock_lims "limsid" 0 world_fetched
         = (Raise KeyError, world_fetched)) /\
    forall n, "a1" = PyStr.of_int n ->
      IntegerAttributeDescriptor___get__ mock_lims "limsid" 0 w1 = (Ok n, w1).
Proof.
  exact (attribute_descriptor_laws mock_lims "limsid" "a1" world_fetched 0 _ _
           world_fetched_has_attrs eq_refl).
Defined.

(** ** Documents of the descriptor tests *)

Lemma world_entry_has_attrs root :
  has_attrs (world_entry root) 0 (mkAttrs (Some artifact_a1_uri) (Some root)).
Proof. eexists. split; reflexivity. Qed.

Lemma StringDictionaryDescriptor_last_wins_witness :
  exists d,
    StringDictionaryDescriptor___get__ mock_lims "test-subentry" [] 0
      (world_entry dictionary_document) = (Ok d, world_entry dictionary_document) /\
    (head (positions (has_tag "test-subentry") (children dictionary_document) 0) = None ->
     d = ∅) /\
    forall i c,
      head (positions (has_tag "test-subentry") (children dictionary_document) 0) = Some i ->
      children dictionary_document !! i = Some c ->
      forall k, d !! k = text <$> last (filter (fun e => tag e = k) (children c)).
Proof.
  exact (StringDictionaryDescriptor_last_wins mock_lims "test-subentry" [] _ 0 _ _ [] _
           (world_entry_has_attrs dictionary_document) eq_refl eq_refl eq_refl).
Defined.

Lemma list_readers_on_fetched_witness :
  ExternalidListDescriptor___get__ mock_lims 0 (world_entry labelled_document)
    = (Ok ((fun e => (attrib e !! "id", attrib e !! "uri")) <$>
           filter (fun e => has_tag "{http://pyclarity_lims.com/ri}externalid" e = true)
             (children labelled_document)),
       world_entry labelled_document) /\
  ReagentLabelList___get__ mock_lims 0 (world_entry labelled_document)
    = (Ok (omap (fun e => attrib e !! "name")
             (filter (fun e => has_tag "reagent-label" e = true)
                (children labelled_document))),
       world_entry labelled_document).
Proof.
  exact (list_readers_on_fetched mock_lims _ 0 _ _
           (world_entry_has_attrs labelled_document) eq_refl).
Defined.

(** ** An artifact and its parent process *)

Lemma world_artifact_process_artifact :
  has_attrs world_artifact_process 0
    (mkAttrs (Some artifact_a1_uri) (Some (test_entry_count "32"))).
Proof. eexists. split; reflexivity. Qed.

Lemma world_artifact_process_process :
  has_attrs world_artifact_process 1 (mkAttrs (Some process_p1_uri) None).
Proof. eexists. split; reflexivity. Qed.

Lemma EntityDescriptor_set_get_witness :
  exists w1,
    EntityDescriptor___set__ mock_lims "parent-process" 0 1 world_artifact_process
      = (Ok tt, w1) /\
    requests w1 = requests world_artifact_process /\
    cache w1 = cache world_artifact_process /\
    EntityDescriptor___get__ mock_lims "parent-process" Process 0 w1 = (Ok (Some 1), w1).
Proof.
  apply (EntityDescriptor_set_get mock_lims "parent-process" Process world_artifact_process
           0 (mkAttrs (Some artifact_a1_uri) (Some (test_entry_count "32")))
           (test_entry_count "32") 1 (mkAttrs (Some process_p1_uri) None) process_p1_uri);
    [discriminate | exact world_artifact_process_artifact | reflexivity
    | exact world_artifact_process_process | reflexivity | discriminate
    | vm_compute; reflexivity].
Defined.

(** ** The next actions of a step with two entries *)

Lemma world_two_actions_has_attrs :
  has_attrs world_two_actions 0 (mkAttrs (Some actions_uri) (Some two_actions_document)).
Proof. eexists. split; reflexivity. Qed.

Lemma two_next_actions_rooted :
  list_rooted two_next_actions world_two_actions two_actions_document [1] two_actions_node.
Proof.
  split; [|split; reflexivity].
  eexists. split; [exact world_two_actions_has_attrs|reflexivity].
Qed.

Lemma two_next_actions_in_sync : attribute_list_in_sync two_next_actions world_two_actions.
Proof.
  exists two_actions_document, [1], two_actions_node.
  split; [exact two_next_actions_rooted|]. split; vm_compute; reflexivity.
Qed.

Lemma two_next_actions_only_tagged : only_tagged_children two_next_actions world_two_actions.
Proof.
  intros r p n ((x & (o & Ho & Hx) & Hr) & Hres & Hn).
  injection Ho as <-. injection Hx as <-. injection Hr as <-.
  injection Hres as <-. injection Hn as <-.
  repeat constructor.
Qed.

Lemma AttributeList_setitem_outcome_witness :
  exists l' w' r' p n',
    AttributeList___setitem__ (IInt (-1)) (LDict (next_action artifact_a1_uri "remove"))
      (two_next_actions, world_two_actions) = (Ok tt, (l', w')) /\
    entries l' = <[1 := LDict (next_action artifact_a1_uri "remove")]>
                   (entries two_next_actions) /\
    list_rooted l' w' r' p n' /\
    (let j := insert_pos (-1) (length (entries two_next_actions) - 1) in
     (fun e => LDict (attrib e)) <$> children n'
       = take j (delete 1 (entries two_next_actions))
         ++ LDict (next_action artifact_a1_uri "remove")
         :: drop j (delete 1 (entries two_next_actions))) /\
    ((0 <= -1)%Z -> attribute_list_in_sync l' w') /\
    ((-1 < 0)%Z -> 0 < 1 ->
       insert_pos (-1) (length (entries two_next_actions) - 1) = 1 - 1).
Proof.
  exact (AttributeList_setitem_outcome two_next_actions world_two_actions (-1)
           (next_action artifact_a1_uri "remove")
           two_next_actions_in_sync two_next_actions_only_tagged).
Defined.

Lemma AttributeList_add_outcome_witness :
  exists l' w',
    AttributeList___add__ (LDict <$> [next_action artifact_a1_uri "remove"])
      (two_next_actions, world_two_actions)
      = (Ok (entries two_next_actions ++ (LDict <$> [next_action artifact_a1_uri "remove"])),
         (l', w')) /\
    entries l' = entries two_next_actions /\
    attribute_list_in_sync
      (with_entries
         (fun _ => entries two_next_actions
                     ++ (LDict <$> [next_action artifact_a1_uri "remove"])) l') w' /\
    ([next_action artifact_a1_uri "remove"] <> [] -> ~ attribute_list_in_sync l' w').
Proof.
  exact (AttributeList_add_outcome two_next_actions world_two_actions
           [next_action artifact_a1_uri "remove"] two_next_actions_in_sync).
Defined.

Lemma AttributeList_insert_outcome_witness :
  exists r p n l' w' n',
    list_rooted two_next_actions world_two_actions r p n /\
    AttributeList_insert 1 (LDict (next_action artifact_a1_uri "remove"))
      (two_next_actions, world_two_actions) = (Ok tt, (l', w')) /\
    list_rooted l' w'
      (alter_at (insert 1 (attribute_node (l_tag two_next_actions)
                             (next_action artifact_a1_uri "remove"))) p r) p n' /\
    (let kl := insert_pos 1 (length (entries two_next_actions)) in
     let kd := insert_pos 1 (length (children n)) in
     let m := length (filter (fun e => has_tag (l_tag two_next_actions) e = true)
                        (take kd (children n))) in
     entries l' = take kl (entries two_next_actions)
                  ++ LDict (next_action artifact_a1_uri "remove")
                  :: drop kl (entries two_next_actions) /\
     children n' = take kd (children n)
                   ++ attribute_node (l_tag two_next_actions)
                        (next_action artifact_a1_uri "remove")
                   :: drop kd (children n) /\
     (fun e => LDict (attrib e)) <$>
       filter (fun e => has_tag (l_tag two_next_actions) e = true) (children n')
       = take m (entries two_next_actions)
         ++ LDict (next_action artifact_a1_uri "remove") :: drop m (entries two_next_actions) /\
     (m = kl -> attribute_list_in_sync l' w') /\
     (1%Z = 0%Z -> m = kl)).
Proof.
  exact (AttributeList_insert_outcome two_next_actions world_two_actions 1
           (next_action artifact_a1_uri "remove") two_next_actions_in_sync).
Defined.

(** ** The UDF dictionary of the tests, continued *)

Lemma udf_dictionary_parseable :
  udf_parseable no_float no_date udf_dictionary.1 udf_dictionary.2.
Proof.
  unfold udf_parseable.
  change (backing_fields udf_dictionary.1 udf_dictionary.2)
    with [ udf_field "String" "test" "stuff"; udf_field "Numeric" "how much" "42";
           udf_field "Boolean" "really?" "true" ].
  repeat constructor; eexists; vm_compute; reflexivity.
Qed.

Lemma UdfDictionary_clear_outcome_witness :
  exists p n root',
    resolve_path (rootkeys (fields udf_dictionary.1)) udf_dictionary.2 = Some p /\
    node_at p udf_dictionary.2 = Some n /\
    UdfDictionary_clear (udf_dictionary.1, udf_dictionary.2)
      = (Ok tt, (mkXmlDictionary ∅ [] (fields udf_dictionary.1), root')) /\
    root' = alter_at (with_children
                        (filter (fun e => has_tag udf_field_tag e = false) (children n)))
              p udf_dictionary.2 /\
    backing_fields (mkXmlDictionary ∅ [] (fields udf_dictionary.1)) root' = [] /\
    udf_in_sync (mkXmlDictionary ∅ [] (fields udf_dictionary.1)) root'.
Proof.
  exact (UdfDictionary_clear_outcome udf_dictionary.1 udf_dictionary.2 udf_dictionary_in_sync).
Defined.

Lemma setitem_existing_key_witness :
  exists p n i f,
    resolve_path (rootkeys (fields udf_dictionary.1)) udf_dictionary.2 = Some p /\
    node_at p udf_dictionary.2 = Some n /\
    children n !! i = Some f /\
    has_tag udf_field_tag f = true /\
    attrib f !! "name" = Some "how much" /\
    (let d1 := mkXmlDictionary (<["how much" := VStr "a lot"]> (items udf_dictionary.1))
                 (_elems udf_dictionary.1) (fields udf_dictionary.1) in
     UdfDictionary___setitem__ no_float no_date "how much" (VStr "a lot")
       (udf_dictionary.1, udf_dictionary.2)
     = match attrib f !! "type" with
       | Some ty =>
           match check_value (PyStr.lower ty) (VStr "a lot") with
           | Ok v => (Ok tt, (d1, alter_at (with_text (Some (encode_text v)))
                                    (p ++ [i]) udf_dictionary.2))
           | Raise e => (Raise e, (d1, udf_dictionary.2))
           end
       | None => (Raise KeyError, (d1, udf_dictionary.2))
       end).
Proof.
  apply (setitem_existing_key no_float no_date "how much" (VStr "a lot")
           udf_dictionary.1 udf_dictionary.2 udf_dictionary_in_sync).
  apply elem_of_dom. exists (VInt 42). vm_compute. reflexivity.
Defined.

Lemma setitem_new_key_round_trip_witness :
  exists d' root',
    UdfDictionary___setitem__ no_float no_date "count" (VInt 3)
      (udf_dictionary.1, udf_dictionary.2) = (Ok tt, (d', root')) /\
    backing_fields d' root'
      = backing_fields udf_dictionary.1 udf_dictionary.2 ++ [field_of ("count", VInt 3)] /\
    items d' !! "count" = Some (stored_value (VInt 3)) /\
    size (items d') = S (size (items udf_dictionary.1)) /\
    udf_in_sync d' root' /\
    udf_parseable no_float no_date d' root'.
Proof.
  apply (setitem_new_key_round_trip no_float no_date "count" (VInt 3)
           udf_dictionary.1 udf_dictionary.2 udf_dictionary_in_sync udf_dictionary_parseable);
    [|exact I].
  apply not_elem_of_dom. vm_compute. reflexivity.
Defined.

Lemma set_udt_outcome_witness :
  let d1 := mkXmlDictionary (items udt_dictionary.1) (_elems udt_dictionary.1)
              (mkUdfFields (rootkeys (fields udt_dictionary.1)) (UdtName "renamed")) in
  UdfDictionary_set_udt (VStr "renamed") (udt_dictionary.1, udt_dictionary.2)
    = match head (positions (has_tag udf_type_tag) (children udt_document) 0) with
      | Some i => (Ok tt, (d1, alter_at (set "name" "renamed") ([] ++ [i]) udt_dictionary.2))
      | None => (Raise AssertionError, (d1, udt_dictionary.2))
      end /\
  UdfDictionary_get_udt d1 = VStr "renamed" /\
  forall v, (forall s, v <> VStr s) ->
    UdfDictionary_set_udt v (udt_dictionary.1, udt_dictionary.2)
      = (Raise AssertionError, (udt_dictionary.1, udt_dictionary.2)).
Proof.
  exact (set_udt_outcome udt_dictionary.1 udt_dictionary.2 "renamed" [] udt_document
           eq_refl eq_refl eq_refl).
Defined.

Lemma udf_assignment_replaces_fields_witness :
  let dict_value := [("test", VStr "other"); ("count", VInt 3)] in
  let r' := alter_at
              (with_children
                 (filter (fun e => has_tag udf_field_tag e = false) (children udf_document)
                  ++ (field_of <$> dict_value))) [] udf_document in
  let w' := world_with_root (world_entry udf_document) 0 r' in
  UdfDictionaryDescriptor___set__ mock_lims no_float no_date None false 0 dict_value
    (world_entry udf_document) = (Ok tt, w') /\
  requests w' = requests (world_entry udf_document) /\
  exists d,
    UdfDictionaryDescriptor___get__ mock_lims no_float no_date None false 0 w' = (Ok d, w') /\
    dom (items d) = list_to_set dict_value.*1 /\
    forall k v, (k, v) ∈ dict_value -> items d !! k = Some (stored_value v).
Proof.
  apply (udf_assignment_replaces_fields mock_lims no_float no_date None
           [("test", VStr "other"); ("count", VInt 3)] (world_entry udf_document) 0
           (mkAttrs (Some artifact_a1_uri) (Some udf_document)) udf_document [] udf_document
           (world_entry_has_attrs udf_document) eq_refl eq_refl eq_refl).
  - change (filter (fun f => has_tag udf_field_tag f = true) (children udf_document))
      with [ udf_field "String" "test" "stuff"; udf_field "Numeric" "how much" "42";
             udf_field "Boolean" "really?" "true" ].
    repeat constructor; eexists; vm_compute; reflexivity.
  - apply (bool_decide_unpack _). vm_compute. exact I.
  - repeat constructor.
Defined.

(** ** The outputs of a process *)

Lemma all_outputs_outcome_witness :
  error_log (Process_all_outputs mock_lims 0 true false
               (world_process process_with_output)).2
    = error_log (world_process process_with_output) /\
  (forall ids, output_limsids process_maps = Ok ids ->
     Process_all_outputs mock_lims 0 true false (world_process process_with_output)
       = map_m (Artifact_by_id mock_lims) (if true then remove_dups ids else ids)
           world_process_maps) /\
  (forall e, output_limsids process_maps = Raise e ->
     e = KeyError /\
     Process_all_outputs mock_lims 0 true false (world_process process_with_output)
       = (Raise KeyError, world_process_maps)) /\
  (forall pre i d post,
     process_maps = pre ++ (i, Some d) :: post ->
     d !! "limsid" = None ->
     Forall (fun io : option (gmap string IOValue) * option (gmap string IOValue) =>
               forall d', io.2 = Some d' -> is_Some (d' !! "limsid")) pre ->
     Process_all_outputs mock_lims 0 true false (world_process process_with_output)
       = (Raise KeyError, world_process_maps)) /\
  (Forall (fun io : option (gmap string IOValue) * option (gmap string IOValue) =>
             io.2 = None) process_maps ->
     Process_all_outputs mock_lims 0 true false (world_process process_with_output)
       = (Ok [], world_process_maps)).
Proof.
  apply (all_outputs_outcome mock_lims 0 true (world_process process_with_output)
           world_process_maps process_maps).
  vm_compute. reflexivity.
Defined.

(** The one output of that process is the artifact [a2]. *)
Example process_with_output_limsids : output_limsids process_maps = Ok [IOStr "a2"].
Proof. vm_compute. reflexivity. Qed.

(** ** The notes of a sample, continued *)

Lemma world_sample_has_attrs :
  has_attrs world_sample 0 (mkAttrs (Some sample_s1_uri) (Some sample_document)).
Proof. eexists. split; reflexivity. Qed.

Lemma world_sample_wf : cache_wf world_sample.
Proof.
  intros u a H. unfold world_sample in H. cbn [cache] in H.
  apply lookup_singleton_Some in H as [_ <-].
  eexists. exact world_sample_has_attrs.
Qed.

Lemma EntityList_init_stable_witness :
  exists l w',
    EntityList___init__ mock_lims 0 "note" Note None world_sample = (Ok (Ok tt, l), w') /\
    entity_list_in_sync l w' /\
    l_instance l = 0 /\ l_tag l = "note" /\
    cache_wf w' /\
    world_extends world_sample w' /\
    EntityList___init__ mock_lims 0 "note" Note None w' = (Ok (Ok tt, l), w').
Proof.
  apply (EntityList_init_stable mock_lims 0 "note" Note None world_sample
           (mkAttrs (Some sample_s1_uri) (Some sample_document)) sample_document []
           sample_document world_sample_wf world_sample_has_attrs eq_refl eq_refl eq_refl).
  change (filter (fun e => has_tag "note" e = true) (children sample_document))
    with [mkElement "note" {[ "uri" := note_uri "n1" ]} None []].
  repeat constructor. exists (note_uri "n1"). split; [vm_compute; reflexivity|discriminate].
Defined.

Lemma world_two_notes_sample :
  has_attrs world_two_notes 0 (mkAttrs (Some sample_s1_uri) (Some sample_document)).
Proof. eexists. split; vm_compute; reflexivity. Qed.

Lemma world_two_notes_n1 : has_attrs world_two_notes 1 (mkAttrs (Some (note_uri "n1")) None).
Proof. eexists. split; vm_compute; reflexivity. Qed.

Lemma world_two_notes_n2 : has_attrs world_two_notes 2 (mkAttrs (Some (note_uri "n2")) None).
Proof. eexists. split; vm_compute; reflexivity. Qed.

Lemma sample_notes_in_sync : entity_list_in_sync sample_notes world_two_notes.
Proof.
  exists sample_document, [], sample_document.
  split; [|split].
  - split; [|split; reflexivity].
    eexists. split; [exact world_two_notes_sample|reflexivity].
  - vm_compute. reflexivity.
  - change (filter (fun e => has_tag (l_tag sample_notes) e = true) (children sample_document))
      with [mkElement "note" {[ "uri" := note_uri "n1" ]} None []].
    change (entries sample_notes) with [LEntity 1].
    repeat constructor.
    exists 1, (note_uri "n1"), (mkAttrs (Some (note_uri "n1")) None).
    split; [reflexivity|]. split; [vm_compute; reflexivity|].
    split; [discriminate|]. split; [vm_compute; reflexivity|exact world_two_notes_n1].
Qed.

Lemma EntityList_append_in_sync_witness :
  (exists l' w',
     EntityList_append (LEntity 2) (sample_notes, world_two_notes) = (Ok tt, (l', w')) /\
     entity_list_in_sync l' w' /\
     entries l' = entries sample_notes ++ [LEntity 2] /\
     requests w' = requests world_two_notes /\ cache w' = cache world_two_notes) /\
  (forall item, (forall b, item <> LEntity b) ->
     EntityList_append item (sample_notes, world_two_notes)
       = (Raise TypeError, (sample_notes, world_two_notes))).
Proof.
  apply (EntityList_append_in_sync sample_notes world_two_notes 2
           (mkAttrs (Some (note_uri "n2")) None) (note_uri "n2")
           sample_notes_in_sync world_two_notes_n2 eq_refl).
  - discriminate.
  - vm_compute. reflexivity.
Defined.

(** ** A sample created in a container *)

Lemma Sample_create_outcome_witness :
  (o_class (mkObject Container (Some (mkAttrs (Some container_c1_uri) None))) <> Container ->
     Sample_create mock_lims Sample 0 "1:1" [("name", VStr "s1")] world_container
       = (Raise TypeError, world_container)) /\
  (forall xc u a w1 uri,
     o_class (mkObject Container (Some (mkAttrs (Some container_c1_uri) None))) = Container ->
     o_attrs (mkObject Container (Some (mkAttrs (Some container_c1_uri) None))) = Some xc ->
     _uri xc = Some u ->
     Entity__create mock_lims Sample [("name", VStr "s1")] world_container = (Ok a, w1) ->
     get_uri mock_lims [c_URI Sample] = Ok uri ->
     exists r,
       a = length (heap world_container) /\ w1 = with_unbound world_container Sample r /\
       let data :=
         tostring mock_lims
           (Some (with_children (children r ++ [location_element u "1:1"]) r)) in
       forall resp u',
         lims_post mock_lims (requests world_container) uri data = Ok resp ->
         attrib resp !! "uri" = Some u' ->
         Sample_create mock_lims Sample 0 "1:1" [("name", VStr "s1")] world_container
         = (Ok a,
            mkWorld (heap world_container
                       ++ [mkObject Sample (Some (mkAttrs (Some u') (Some resp)))])
              (cache world_container) (requests world_container ++ [POST uri data])
              (error_log world_container))).
Proof.
  exact (Sample_create_outcome mock_lims Sample 0 "1:1" [("name", VStr "s1")]
           world_container _ eq_refl).
Defined.

(** The document [Sample.create] hands to [lims.tostring] for the sample
    [s1] at position 1:1 of the container [c1]. *)
Example sample_creation_document :
  exists w1,
    Entity__create mock_lims Sample [("name", VStr "s1")] world_container = (Ok 1, w1) /\
    w1 = with_unbound world_container Sample
           (mkElement "{http://pyclarity_lims.com/ri/sample}samplecreation" ∅ None
              [mkElement "name" ∅ (Some (TStr "s1")) []]) /\
    (Sample_create mock_lims Sample 0 "1:1" [("name", VStr "s1")] world_container).1 = Ok 1.
Proof. eexists. split; [vm_compute; reflexivity|]. split; vm_compute; reflexivity. Qed.
